(** * TwoOwnerAccountAPI: the two-owner account adapter

    A shallow embedding of [src/pages/Account/account-api/account-api.ts]
    and of the parts of its dependencies that the adapter's behaviour
    rests on:

    - [Bytes]: the hex-string helpers of [ethers/lib/utils]
      ([isHexString], [arrayify], [hexlify], [hexConcat]);
    - [JSString]: a text as its UTF-16 code units, and [toUtf8Bytes];
    - [Curve]: which private keys have a public key;
    - [JSNumber]: IEEE-754 binary64, the arithmetic of [Number(x) * 2.5]
      and the numbers that are integers;
    - [Abi]: the ABI coder for the two shapes the adapter encodes, the
      tuple [(bytes, bytes)] and the call
      [createAccount(address, address, uint256)], with [BigNumber.from] on
      a number;
    - [WalletApi]: [new Wallet], [Wallet.createRandom], [signMessage];
    - the class itself, its methods written in a state-and-exception monad
      over the instance and a store of operation objects.

    Hex data, addresses, keys and the strings the libraries write only use
    ASCII and are Rocq [string]s, one character per code unit; the text
    given to [signMessage] is arbitrary and is a [JSString.t]. The index
    of the account is a JavaScript number. Cryptographic primitives
    (Keccak-256, secp256k1) and the base class [AccountApiType] are
    parameters. The library functions follow ethers
    version 5, which the imports of the source name. The ABI of the account
    contract is generated code; the encoder of its [execute] call is a
    parameter of [encodeExecute]. *)

From Stdlib Require Import List String Ascii Strings.Byte ZArith NArith Lia Bool.
From Stdlib Require Import QArith Qpower Floats.SpecFloat DecimalString.
Import ListNotations.

Local Close Scope Q_scope.
Local Open Scope string_scope.
Local Open Scope list_scope.

(** ** Exceptions and results *)

(** What a [throw] carries. [Error] is [new Error(message)];
    [ArgumentError] is what ethers' [logger.throwArgumentError] raises
    (code INVALID_ARGUMENT), with its reason and the value it carries (a
    number is given by its decimal digits; the name of the argument, which
    for a coder is the name of the parameter in the ABI, is not kept);
    [NumericFault] is what
    [BigNumber.from] raises on a number it cannot hold (code NUMERIC_FAULT);
    [TypeError] is a type error of the JavaScript engine, whose message is
    the engine's; [Rejected] stands for any failure reported by a
    collaborator (a chain read, the bundler, the base class). *)
Inductive exn : Type :=
| Error (message : string)
| ArgumentError (reason : string) (value : string)
| NumericFault (fault : string)
| TypeError
| Rejected (reason : string).

Inductive result (A : Type) : Type :=
| Ok (a : A)
| Err (e : exn).
Arguments Ok {A} a.
Arguments Err {A} e.

Definition rbind {A B} (r : result A) (k : A -> result B) : result B :=
  match r with
  | Ok a => k a
  | Err e => Err e
  end.

Declare Scope result_scope.
Delimit Scope result_scope with res.
Notation "x <-? r ;; k" := (rbind r (fun x => k))
  (at level 61, r at next level, right associativity) : result_scope.

(** ** Hex strings and byte arrays ([@ethersproject/bytes]) *)

Module Bytes.

Definition nibble_of_char (c : ascii) : option N :=
  let n := N_of_ascii c in
  if ((48 <=? n) && (n <=? 57))%N then Some (n - 48)%N
  else if ((97 <=? n) && (n <=? 102))%N then Some (n - 87)%N
  else if ((65 <=? n) && (n <=? 70))%N then Some (n - 55)%N
  else None.

(** The character class [[0-9A-Fa-f]]. *)
Definition is_hex_char (c : ascii) : bool :=
  match nibble_of_char c with Some _ => true | None => false end.

Fixpoint all_chars (p : ascii -> bool) (s : string) : bool :=
  match s with
  | EmptyString => true
  | String c r => p c && all_chars p r
  end.

(** [value.substring(n)] *)
Fixpoint substring_from (n : nat) (s : string) : string :=
  match n, s with
  | O, _ => s
  | S n', String _ r => substring_from n' r
  | S _, EmptyString => EmptyString
  end.

(** [isHexString(value)]: the match against [/^0x[0-9A-Fa-f]*$/]. *)
Definition isHexString (value : string) : bool :=
  match value with
  | String "0" (String "x" digits) => all_chars is_hex_char digits
  | _ => false
  end.

Definition lower_char (c : ascii) : ascii :=
  let n := N_of_ascii c in
  if ((65 <=? n) && (n <=? 90))%N then ascii_of_N (n + 32) else c.

Definition upper_char (c : ascii) : ascii :=
  let n := N_of_ascii c in
  if ((97 <=? n) && (n <=? 122))%N then ascii_of_N (n - 32) else c.

(** [String.prototype.toLowerCase] on the ASCII range. *)
Fixpoint toLowerCase (s : string) : string :=
  match s with
  | EmptyString => EmptyString
  | String c r => String (lower_char c) (toLowerCase r)
  end.

Definition byte_of_N (n : N) : byte :=
  match Byte.of_N n with Some b => b | None => x00 end.

(** [parseInt(hex.substring(i, i + 2), 16)] for each pair of digits (they
    are hex digits wherever this is called). *)
Fixpoint parse_pairs (hex : string) : list byte :=
  match hex with
  | String a (String b r) =>
      match nibble_of_char a, nibble_of_char b with
      | Some hi, Some lo => byte_of_N (16 * hi + lo) :: parse_pairs r
      | _, _ => parse_pairs r
      end
  | _ => []
  end.

(** [arrayify(value)] on a string argument. *)
Definition arrayify (value : string) : result (list byte) :=
  if isHexString value then
    let hex := substring_from 2 value in
    if Nat.odd (String.length hex)
    then Err (ArgumentError "hex data is odd-length" value)
    else Ok (parse_pairs hex)
  else Err (ArgumentError "invalid arrayify value" value).

Definition hex_char (n : N) : ascii :=
  if (n <? 10)%N then ascii_of_N (48 + n) else ascii_of_N (87 + n).

Fixpoint hex_of_bytes (l : list byte) : string :=
  match l with
  | [] => EmptyString
  | b :: r =>
      String (hex_char (Byte.to_N b / 16))
        (String (hex_char (Byte.to_N b mod 16)) (hex_of_bytes r))
  end.

(** [hexlify(value)] on a byte array. *)
Definition hexlify_bytes (l : list byte) : string :=
  String "0" (String "x" (hex_of_bytes l)).

(** [hexlify(value)] on a string argument. *)
Definition hexlify (value : string) : result string :=
  if isHexString value then
    if Nat.odd (String.length value)
    then Err (ArgumentError "hex data is odd-length" value)
    else Ok (toLowerCase value)
  else Err (ArgumentError "invalid hexlify value" value).

(** [hexConcat(items)]: [items.forEach (item => result += hexlify(item).substring(2))]. *)
Fixpoint hexConcat_from (acc : string) (items : list string) : result string :=
  match items with
  | [] => Ok acc
  | item :: rest =>
      match hexlify item with
      | Ok h => hexConcat_from (acc ++ substring_from 2 h)%string rest
      | Err e => Err e
      end
  end.

Definition hexConcat (items : list string) : result string :=
  hexConcat_from "0x" items.

(** [hexDataLength(data)] of a hex string known to be well formed. *)
Definition hexDataLength (data : string) : nat :=
  Nat.div (String.length data - 2) 2.

(** [toUtf8Bytes(str)] on a string of code units below 0x100, as are the
    strings the libraries themselves pass (a prefix, decimal digits, hex
    digits, the signature of a function): one byte for a code unit below
    0x80, two bytes otherwise. Text that comes from outside is a
    [JSString.t]. *)
Definition utf8_of_char (c : ascii) : list byte :=
  let n := N_of_ascii c in
  if (n <? 0x80)%N then [byte_of_N n]
  else [byte_of_N (N.lor (N.shiftr n 6) 0xc0);
        byte_of_N (N.lor (N.land n 0x3f) 0x80)].

Definition toUtf8Bytes (s : string) : list byte :=
  flat_map utf8_of_char (list_ascii_of_string s).

End Bytes.

(** ** Text ([@ethersproject/strings])

    A string that comes from outside the libraries (the data to sign) is
    the sequence of its UTF-16 code units, as [charCodeAt] reads them. *)

Module JSString.
Import Bytes.

Definition t : Type := list N.

(** The text of a string of code units below 0x100. *)
Definition of_ascii (s : string) : t := map N_of_ascii (list_ascii_of_string s).

(** [v || fallback]: the empty string is falsy. *)
Definition or_else (v : option t) (fallback : t) : t :=
  match v with
  | Some (c :: s) => c :: s
  | Some [] | None => fallback
  end.

(** [toUtf8Bytes(str)]: one to three bytes for a code unit, four for a
    high surrogate followed by a low one; a high surrogate that no low
    surrogate follows throws. *)
Fixpoint toUtf8Bytes (str : t) : result (list byte) :=
  match str with
  | [] => Ok []
  | c :: rest =>
      if (c <? 0x80)%N then
        (r <-? toUtf8Bytes rest ;; Ok (byte_of_N c :: r))%res
      else if (c <? 0x800)%N then
        (r <-? toUtf8Bytes rest ;;
         Ok (byte_of_N (N.lor (N.shiftr c 6) 0xc0)
               :: byte_of_N (N.lor (N.land c 0x3f) 0x80) :: r))%res
      else if (N.land c 0xfc00 =? 0xd800)%N then
        match rest with
        | c2 :: rest' =>
            if (N.land c2 0xfc00 =? 0xdc00)%N then
              let pair :=
                (0x10000 + N.shiftl (N.land c 0x03ff) 10 + N.land c2 0x03ff)%N in
              (r <-? toUtf8Bytes rest' ;;
               Ok (byte_of_N (N.lor (N.shiftr pair 18) 0xf0)
                     :: byte_of_N (N.lor (N.land (N.shiftr pair 12) 0x3f) 0x80)
                     :: byte_of_N (N.lor (N.land (N.shiftr pair 6) 0x3f) 0x80)
                     :: byte_of_N (N.lor (N.land pair 0x3f) 0x80) :: r))%res
            else Err (Error "invalid utf-8 string")
        | [] => Err (Error "invalid utf-8 string")
        end
      else
        (r <-? toUtf8Bytes rest ;;
         Ok (byte_of_N (N.lor (N.shiftr c 12) 0xe0)
               :: byte_of_N (N.lor (N.land (N.shiftr c 6) 0x3f) 0x80)
               :: byte_of_N (N.lor (N.land c 0x3f) 0x80) :: r))%res
  end.

End JSString.

(** ** Primitives of the libraries

    Keccak-256, ECDSA over secp256k1, the key derivation of a random
    wallet, the ICAP decoding of [@ethersproject/address] and the text of
    an error's message are not unfolded; the adapter only moves their
    results around. *)

(** The group of secp256k1: a private key is a number modulo the order of
    the group, and a key that is 0 modulo the order has no public key. *)
Module Curve.

Definition order : N :=
  0xFFFFFFFFFFFFFFFFFFFFFFFFFFFFFFFEBAAEDCE6AF48A03BBFD25E8CD0364141%N.

(** The number a key denotes, most significant byte first. *)
Definition scalar (key : list byte) : N :=
  fold_left (fun acc b => (acc * 256 + Byte.to_N b)%N) key 0%N.

(** [keyFromPrivate(key).getPublic()] returns: the scalar is not 0 modulo
    the order. *)
Definition has_public_key (key : list byte) : bool :=
  negb (scalar key mod order =? 0)%N.

End Curve.

Class Primitives : Type := {
  (** [keccak256(data)], as bytes *)
  keccak256 : list byte -> list byte;
  (** a Keccak-256 hash has 32 bytes *)
  keccak256_length : forall data, List.length (keccak256 data) = 32;
  (** [joinSignature(signingKey.signDigest(digest))], as bytes; ethers signs
      with the deterministic nonce of RFC 6979 *)
  signDigest : list byte -> list byte -> list byte;
  (** [computePublicKey(privateKey)], the uncompressed public key *)
  computePublicKey : list byte -> list byte;
  (** the ICAP branch of [getAddress]: the address, unless the checksum
      is bad *)
  icapAddress : string -> option string;
  (** the key of the wallet [Wallet.createRandom()] returns, derived from
      the random source through a mnemonic and the default path of an HD
      node; the derivation makes a signing key of it, so a wallet that is
      returned holds 32 bytes that have a public key *)
  deriveKey : (nat -> byte) -> list byte;
  deriveKey_length : forall random, List.length (deriveKey random) = 32;
  deriveKey_valid : forall random, Curve.has_public_key (deriveKey random) = true;
  (** [error.message] of an error: for an argument error, the reason
      followed by the name of the argument, the value, the code and the
      version of the library, as [Logger.makeError] composes them *)
  errorMessage : exn -> string
}.

(** ** Addresses ([@ethersproject/address]) *)

Module Address.
Import Bytes.

Definition starts_with_0x (s : string) : bool :=
  match s with
  | String "0" (String "x" _) => true
  | _ => false
  end.

(** The match against [/^(0x)?[0-9a-fA-F]{40}$/]. *)
Definition matches_hex_address (s : string) : bool :=
  let body := if starts_with_0x s then substring_from 2 s else s in
  Nat.eqb (String.length body) 40 && all_chars is_hex_char body.

Definition is_digit (c : ascii) : bool :=
  let n := N_of_ascii c in ((48 <=? n) && (n <=? 57))%N.

Definition is_alnum (c : ascii) : bool :=
  let n := N_of_ascii c in
  (((48 <=? n) && (n <=? 57)) || ((65 <=? n) && (n <=? 90))
   || ((97 <=? n) && (n <=? 122)))%N.

(** The match against [/^XE[0-9]{2}[0-9A-Za-z]{30,31}$/]. *)
Definition matches_icap (s : string) : bool :=
  match s with
  | String "X" (String "E" (String d1 (String d2 rest))) =>
      is_digit d1 && is_digit d2
      && (Nat.eqb (String.length rest) 30 || Nat.eqb (String.length rest) 31)
      && all_chars is_alnum rest
  | _ => false
  end.

Definition is_upper_hex (c : ascii) : bool :=
  let n := N_of_ascii c in ((65 <=? n) && (n <=? 70))%N.

Definition is_lower_hex (c : ascii) : bool :=
  let n := N_of_ascii c in ((97 <=? n) && (n <=? 102))%N.

Fixpoint any_char (p : ascii -> bool) (s : string) : bool :=
  match s with
  | EmptyString => false
  | String c r => p c || any_char p r
  end.

(** The match against [/([A-F].*[a-f])|([a-f].*[A-F])/]: both cases occur. *)
Definition is_mixed_case (s : string) : bool :=
  any_char is_upper_hex s && any_char is_lower_hex s.

(** The loop of [getChecksumAddress]: character [i] is upper-cased when
    nibble [i] of the hash is at least 8. *)
Fixpoint checksum_chars (chars : string) (hashed : list byte) : string :=
  match chars with
  | String c0 (String c1 r) =>
      let h := Byte.to_N (hd x00 hashed) in
      String (if (8 <=? h / 16)%N then upper_char c0 else c0)
        (String (if (8 <=? h mod 16)%N then upper_char c1 else c1)
           (checksum_chars r (tl hashed)))
  | _ => chars
  end.

Section WithPrimitives.
Context {primitives : Primitives}.

(** [getChecksumAddress(address)], for a string matching the address
    pattern and carrying its prefix. *)
Definition getChecksumAddress (address : string) : string :=
  let chars := substring_from 2 (toLowerCase address) in
  let hashed := keccak256 (toUtf8Bytes chars) in
  String "0" (String "x" (checksum_chars chars hashed)).

(** [getAddress(address)] *)
Definition getAddress (address : string) : result string :=
  if matches_hex_address address then
    let address := if starts_with_0x address then address
                   else ("0x" ++ address)%string in
    let checksummed := getChecksumAddress address in
    if is_mixed_case address && negb (String.eqb checksummed address)
    then Err (ArgumentError "bad address checksum" address)
    else Ok checksummed
  else if matches_icap address then
    match icapAddress address with
    | Some a => Ok a
    | None => Err (ArgumentError "bad icap checksum" address)
    end
  else Err (ArgumentError "invalid address" address).
End WithPrimitives.

End Address.

(** ** JavaScript numbers: IEEE-754 binary64 *)

Module JSNumber.

Definition prec : Z := 53.
Definition emax : Z := 1024.

Definition number : Type := spec_float.

(** The double nearest to an integer (ties to even), as [Number] yields
    it from a decimal string of digits. *)
Definition of_Z (z : Z) : number := binary_normalize prec emax z 0 false.

(** The [*] of two numbers. *)
Definition mul (x y : number) : number := SFmul prec emax x y.

(** The literal [2.5], that is 5 * 2^-1. *)
Definition two_and_a_half : number :=
  Eval cbv in binary_normalize prec emax 5 (-1) false.

(** The rational a finite number denotes. *)
Definition to_Q (x : number) : option Q :=
  match x with
  | S754_zero _ => Some 0%Q
  | S754_finite s m e =>
      Some ((if s then inject_Z (Zneg m) else inject_Z (Zpos m)) * (2 # 1) ^ e)%Q
  | S754_infinity _ | S754_nan => None
  end.

(** [a * 2^j], a mantissa shifted left. *)
Definition shl (a : positive) (j : Z) : positive :=
  match j with
  | Zpos k => Pos.iter xO a k
  | _ => a
  end.

(** [x] is finite and its value is [q]. *)
Definition denotes (x : number) (q : Q) : Prop :=
  match to_Q x with
  | Some v => (v == q)%Q
  | None => False
  end.

(** The integer a number is, when it is finite and has no fraction
    (either zero is 0). *)
Definition integer (x : number) : option Z :=
  match x with
  | S754_zero _ => Some 0%Z
  | S754_finite s m e =>
      let z := if s then Zneg m else Zpos m in
      match e with
      | Z0 => Some z
      | Zpos k => Some (z * 2 ^ Zpos k)%Z
      | Zneg k =>
          if (Zpos m mod 2 ^ Zpos k =? 0)%Z then Some (z / 2 ^ Zpos k)%Z else None
      end
  | S754_infinity _ | S754_nan => None
  end.

(** [String(x)] for a number that is the integer [z]: its decimal digits,
    after a minus sign when it is negative. *)
Definition integer_toString (z : Z) : string :=
  DecimalString.NilZero.string_of_int (Z.to_int z).

End JSNumber.

(** ** The ABI coder ([@ethersproject/abi]) *)

Module Abi.
Import Bytes.

(** [k] bytes of [n], most significant first. *)
Fixpoint be_bytes (k : nat) (n : N) : list byte :=
  match k with
  | O => []
  | S k' => be_bytes k' (n / 256) ++ [byte_of_N (n mod 256)]
  end.

(** The number a byte array denotes, most significant byte first. *)
Definition N_of_bytes (l : list byte) : N :=
  fold_left (fun acc b => (acc * 256 + Byte.to_N b)%N) l 0%N.

(** [Writer.writeValue(value)]: one 32-byte word. *)
Definition word (n : N) : list byte := be_bytes 32 n.

(** [Writer.writeBytes(value)]: the bytes, zero-padded to a multiple of
    the word size. *)
Definition writeBytes (value : list byte) : list byte :=
  let paddingOffset := Nat.modulo (List.length value) 32 in
  if Nat.eqb paddingOffset 0 then value
  else value ++ repeat x00 (32 - paddingOffset).

(** What one coder leaves in the writers of [pack]: words for the static
    writer, or data for the dynamic writer. *)
Inductive encoded : Type :=
| Static (words : list byte)
| Dynamic (data : list byte).

Definition head_size (e : encoded) : nat :=
  match e with
  | Static w => List.length w
  | Dynamic _ => 32
  end.

Fixpoint static_length (es : list encoded) : nat :=
  match es with
  | [] => 0
  | e :: r => head_size e + static_length r
  end.

(** The static writer of [pack] once the offsets are backfilled. *)
Fixpoint pack_heads (baseOffset dynamicOffset : nat) (es : list encoded)
  : list byte :=
  match es with
  | [] => []
  | Static w :: r => w ++ pack_heads baseOffset dynamicOffset r
  | Dynamic d :: r =>
      word (N.of_nat (baseOffset + dynamicOffset))
        ++ pack_heads baseOffset (dynamicOffset + List.length d) r
  end.

(** The dynamic writer of [pack]. *)
Fixpoint pack_tails (es : list encoded) : list byte :=
  match es with
  | [] => []
  | Static _ :: r => pack_tails r
  | Dynamic d :: r => d ++ pack_tails r
  end.

Definition pack (es : list encoded) : list byte :=
  pack_heads (static_length es) 0 es ++ pack_tails es.

(** [DynamicBytesCoder.encode]: the length, then the padded bytes. *)
Definition encode_bytes (value : string) : result encoded :=
  match arrayify value with
  | Ok b => Ok (Dynamic (word (N.of_nat (List.length b)) ++ writeBytes b))
  | Err e => Err e
  end.

(** [Writer.writeValue(address)]: the word whose number the address's hex
    digits denote. *)
Definition address_word (a : string) : list byte :=
  word (N_of_bytes (parse_pairs (substring_from 2 a))).

(** [Number.MAX_SAFE_INTEGER], 2^53 - 1. *)
Definition MAX_SAFE : Z := 9007199254740991.

(** [BigNumber.from(value)] on a number: a fraction is an underflow, a
    magnitude of [MAX_SAFE] or more an overflow (an infinity too), and the
    digits of [String(value)] are read otherwise ([NaN] gives the string
    [NaN], which is no number). *)
Definition BigNumber_from (value : JSNumber.number) : result Z :=
  match value with
  | S754_nan => Err (ArgumentError "invalid BigNumber string" "NaN")
  | S754_infinity _ => Err (NumericFault "overflow")
  | _ =>
      match JSNumber.integer value with
      | None => Err (NumericFault "underflow")
      | Some z =>
          if ((MAX_SAFE <=? z) || (z <=? - MAX_SAFE))%Z
          then Err (NumericFault "overflow")
          else Ok z
      end
  end.

(** [NumberCoder.encode] for [uint256], on a number. *)
Definition encode_uint256 (value : JSNumber.number) : result encoded :=
  (v <-? BigNumber_from value ;;
   if ((v <? 0) || (2 ^ 256 - 1 <? v))%Z
   then Err (ArgumentError "value out-of-bounds" (JSNumber.integer_toString v))
   else Ok (Static (word (Z.to_N v))))%res.

Section WithPrimitives.
Context {primitives : Primitives}.

(** [AddressCoder.encode]: [getAddress(value)], written as one word; an
    error of [getAddress] is caught and thrown again as an argument error
    whose reason is the message of the first and whose value is the
    argument. *)
Definition encode_address (value : string) : result encoded :=
  match Address.getAddress value with
  | Ok a => Ok (Static (address_word a))
  | Err e => Err (ArgumentError (errorMessage e) value)
  end.

(** [Interface.getSighash]: the first four bytes of the hash of the
    function's signature. *)
Definition getSighash (signature : string) : list byte :=
  firstn 4 (keccak256 (toUtf8Bytes signature)).

(** [factory.interface.encodeFunctionData('createAccount',
    [ownerOne, ownerTwo, index])], for the factory's
    [createAccount(address ownerOne, address ownerTwo, uint256 index)]:
    the selector, then the packed arguments, hexlified. *)
Definition encodeFunctionData_createAccount
  (ownerOne ownerTwo : string) (index : JSNumber.number) : result string :=
  (e1 <-? encode_address ownerOne ;;
   e2 <-? encode_address ownerTwo ;;
   e3 <-? encode_uint256 index ;;
   Ok (hexlify_bytes
         (getSighash "createAccount(address,address,uint256)"
            ++ pack [e1; e2; e3])))%res.
End WithPrimitives.

(** The encoding of the tuple [(a, b)] of two byte strings: two offsets,
    then each string as its length and its padded bytes. *)
Definition tuple_bytes_bytes (a b : list byte) : list byte :=
  pack [Dynamic (word (N.of_nat (List.length a)) ++ writeBytes a);
        Dynamic (word (N.of_nat (List.length b)) ++ writeBytes b)].

(** [defaultAbiCoder.encode(['bytes', 'bytes'], [a, b])] *)
Definition encode_bytes_bytes (a b : string) : result string :=
  (ea <-? encode_bytes a ;;
   eb <-? encode_bytes b ;;
   Ok (hexlify_bytes (pack [ea; eb])))%res.

(** Reading back: the word at an offset, and the length-prefixed bytes at
    an offset. *)
Definition read_word (data : list byte) (offset : nat) : option N :=
  if Nat.leb (offset + 32) (List.length data)
  then Some (N_of_bytes (firstn 32 (skipn offset data)))
  else None.

Definition read_bytes (data : list byte) (offset : nat) : option (list byte) :=
  match read_word data offset with
  | Some len =>
      if (N.of_nat (offset + 32) + len <=? N.of_nat (List.length data))%N
      then Some (firstn (N.to_nat len) (skipn (offset + 32) data))
      else None
  | None => None
  end.

(** Decoding of a [(bytes, bytes)] tuple, as the verifying contract's
    [abi.decode(signature, (bytes, bytes))] reads it. *)
Definition decode_bytes_bytes (data : list byte)
  : option (list byte * list byte) :=
  match read_word data 0, read_word data 32 with
  | Some o1, Some o2 =>
      match read_bytes data (N.to_nat o1), read_bytes data (N.to_nat o2) with
      | Some a, Some b => Some (a, b)
      | _, _ => None
      end
  | _, _ => None
  end.

End Abi.

(** ** Wallets ([@ethersproject/wallet], [@ethersproject/hash]) *)

(** [Bytes | string], the argument type of [signMessage] and
    [hashMessage]: a string of code units below 0x100, or a byte array. *)
Inductive BytesOrString : Type :=
| Str (s : string)
| Arr (b : list byte).

(** A wallet holds its signing key; [privateKey] and [address] are derived
    from it. *)
Record Wallet : Type := { signingKey : list byte }.

Module WalletApi.
Import Bytes.

(** [wallet.privateKey]: [hexlify] of the key. *)
Definition privateKey (w : Wallet) : string := hexlify_bytes (signingKey w).

(** [new ethers.Wallet(privateKey)] on a string: a key of 64 hex digits
    without prefix is given one, then [new SigningKey] hexlifies the key,
    requires 32 bytes and computes the public key, which for a key that is
    0 modulo the order of the group ends in a type error (the point has no
    coordinates to read). *)
Definition new (privateKey : string) : result Wallet :=
  let privateKey :=
    if all_chars is_hex_char privateKey && Nat.eqb (String.length privateKey) 64
    then ("0x" ++ privateKey)%string else privateKey in
  match hexlify privateKey with
  | Ok key =>
      if Nat.eqb (hexDataLength key) 32 then
        let bytes := parse_pairs (substring_from 2 key) in
        if Curve.has_public_key bytes
        then Ok {| signingKey := bytes |}
        else Err TypeError
      else Err (ArgumentError "invalid private key" "[[ REDACTED ]]")
  | Err e => Err e
  end.

(** ["\x19Ethereum Signed Message:\n"] *)
Definition messagePrefix : string :=
  String (ascii_of_N 25) ("Ethereum Signed Message:" ++ String (ascii_of_N 10) "").

(** [String(n)] for a length. *)
Definition decimal (n : nat) : string :=
  DecimalString.NilZero.string_of_uint (Nat.to_uint n).

Definition message_bytes (message : BytesOrString) : list byte :=
  match message with
  | Str s => toUtf8Bytes s
  | Arr b => b
  end.

Section WithPrimitives.
Context {primitives : Primitives}.

(** [ethers.Wallet.createRandom()]: the wallet of the key derived from the
    random source. *)
Definition createRandom (random : nat -> byte) : Wallet :=
  {| signingKey := deriveKey random |}.

(** [computeAddress(key)]: the checksummed form of the last 20 bytes of
    the hash of the public key without its first byte. ethers obtains it
    as [getAddress(hexDataSlice(keccak256(hexDataSlice(publicKey, 1)), 12))],
    which succeeds and is this string. *)
Definition computeAddress (privateKey : list byte) : string :=
  Address.getChecksumAddress
    (hexlify_bytes (skipn 12 (keccak256 (tl (computePublicKey privateKey))))).

(** [wallet.getAddress()]: the address computed when the wallet was made. *)
Definition getAddress (w : Wallet) : string := computeAddress (signingKey w).

(** [hashMessage(message)] *)
Definition hashMessage (message : BytesOrString) : list byte :=
  let message := message_bytes message in
  keccak256 (toUtf8Bytes messagePrefix
               ++ toUtf8Bytes (decimal (List.length message))
               ++ message).

(** The bytes of the signature [wallet.signMessage(message)] returns. *)
Definition signature_bytes (w : Wallet) (message : BytesOrString) : list byte :=
  signDigest (signingKey w) (hashMessage message).

(** [wallet.signMessage(message)] *)
Definition signMessage (w : Wallet) (message : BytesOrString) : string :=
  hexlify_bytes (signature_bytes w message).

(** [wallet.signMessage(message)] on a text: [hashMessage] encodes it
    first, and the encoding may throw. *)
Definition signText (w : Wallet) (message : JSString.t) : result string :=
  (bytes <-? JSString.toUtf8Bytes message ;; Ok (signMessage w (Arr bytes)))%res.
End WithPrimitives.

End WalletApi.

(** ** Operations *)

(** [BigNumberish], for the gas fields: a JavaScript number or an ethers
    [BigNumber] (strings and bigints, which the base builder does not
    produce for these fields, are left out). *)
Inductive BigNumberish : Type :=
| BN_number (x : JSNumber.number)
| BN_BigNumber (z : Z).

(** [Number(value)]: a number is itself; a BigNumber goes through its
    decimal string. *)
Definition Number (value : BigNumberish) : JSNumber.number :=
  match value with
  | BN_number x => x
  | BN_BigNumber z => JSNumber.of_Z z
  end.

(** [PromiseOrValue<A>]: a plain value, or a promise that settles to a
    value or to a rejection. *)
Inductive PromiseOrValue (A : Type) : Type :=
| Value (a : A)
| Promise (settled : result A).
Arguments Value {A} a.
Arguments Promise {A} settled.

Definition await {A} (p : PromiseOrValue A) : result A :=
  match p with
  | Value a => Ok a
  | Promise r => r
  end.

Record UserOperationStruct : Type := {
  sender : PromiseOrValue string;
  nonce : PromiseOrValue BigNumberish;
  initCode : PromiseOrValue string;
  callData : PromiseOrValue string;
  callGasLimit : PromiseOrValue BigNumberish;
  verificationGasLimit : PromiseOrValue BigNumberish;
  preVerificationGas : PromiseOrValue BigNumberish;
  maxFeePerGas : PromiseOrValue BigNumberish;
  maxPriorityFeePerGas : PromiseOrValue BigNumberish;
  paymasterAndData : PromiseOrValue string;
  signature : PromiseOrValue string
}.

(** [{ ...userOp, signature: s }] *)
Definition with_signature (userOp : UserOperationStruct) (s : string)
  : UserOperationStruct :=
  {| sender := sender userOp;
     nonce := nonce userOp;
     initCode := initCode userOp;
     callData := callData userOp;
     callGasLimit := callGasLimit userOp;
     verificationGasLimit := verificationGasLimit userOp;
     preVerificationGas := preVerificationGas userOp;
     maxFeePerGas := maxFeePerGas userOp;
     maxPriorityFeePerGas := maxPriorityFeePerGas userOp;
     paymasterAndData := paymasterAndData userOp;
     signature := Value s |}.

(** [userOp.preVerificationGas = x], the object after the assignment. *)
Definition with_preVerificationGas (userOp : UserOperationStruct)
  (x : JSNumber.number) : UserOperationStruct :=
  {| sender := sender userOp;
     nonce := nonce userOp;
     initCode := initCode userOp;
     callData := callData userOp;
     callGasLimit := callGasLimit userOp;
     verificationGasLimit := verificationGasLimit userOp;
     preVerificationGas := Value (BN_number x);
     maxFeePerGas := maxFeePerGas userOp;
     maxPriorityFeePerGas := maxPriorityFeePerGas userOp;
     paymasterAndData := paymasterAndData userOp;
     signature := signature userOp |}.

(** ** Configuration ([exconfig]) *)

(** The configuration module, of which the adapter reads one entry. *)
Record ExConfig : Type := { factory_address : option string }.

(** [v ? yes(v) : no] for a [v] of type [string | undefined]: the empty
    string and [undefined] are falsy. *)
Definition cond {A} (v : option string) (yes : string -> A) (no : A) : A :=
  match v with
  | Some s => if String.eqb s "" then no else yes s
  | None => no
  end.

(** [v || fallback] *)
Definition or_else (v : option string) (fallback : string) : string :=
  cond v (fun s => s) fallback.

Definition FACTORY_ADDRESS (Config : ExConfig) : string :=
  or_else (factory_address Config) "0x6c0ec05Ad55C8B8427119ce50b6087E7B0C9c23e".

(** ** The class *)

(** An ethers [Contract] bound to the provider; of its state the adapter
    reads the address it was connected to. *)
Record Contract : Type := { address : string }.

(** [X__factory.connect(address, provider)] *)
Definition connect (addr : string) : Contract := {| address := addr |}.

(** The serialized state, [{ privateKey, ownerTwo }]. *)
Module State.
Record t : Type := { privateKey : string; ownerTwo : string }.
End State.

(** The creation context, [{ address }]. *)
Module CreationContext.
Record t : Type := { address : string }.
End CreationContext.

(** [AccountApiParamsType<{ address }, { privateKey, ownerTwo }>]: the
    parameters of the base class, and the two optional entries. *)
Record AccountApiParamsType (BaseApiParams : Type) : Type := {
  baseParams : BaseApiParams;
  context : option CreationContext.t;
  deserializeState : option State.t
}.
Arguments baseParams {BaseApiParams} _.
Arguments context {BaseApiParams} _.
Arguments deserializeState {BaseApiParams} _.

(** [{ signedMessage }], the second owner's signature handed in by the
    caller. *)
Record SigningContext : Type := { signedMessage : string }.

(** [MessageSigningRequest], of which [signMessage] reads one entry. *)
Record MessageSigningRequest : Type := { rawSigningData : option JSString.t }.

(** The fields of an instance: those of the base class, kept opaque, and
    the ones this class declares. *)
Record TwoOwnerAccountAPI (Base : Type) : Type := {
  super : Base;
  name : string;
  factoryAddress : option string;
  ownerOne : Wallet;
  ownerTwo : string;
  index : JSNumber.number;
  accountContract : option Contract;
  factory : option Contract
}.
Arguments super {Base} _.
Arguments name {Base} _.
Arguments factoryAddress {Base} _.
Arguments ownerOne {Base} _.
Arguments ownerTwo {Base} _.
Arguments index {Base} _.
Arguments accountContract {Base} _.
Arguments factory {Base} _.

Definition set_accountContract {Base} (c : Contract) (t : TwoOwnerAccountAPI Base)
  : TwoOwnerAccountAPI Base :=
  {| super := super t; name := name t; factoryAddress := factoryAddress t;
     ownerOne := ownerOne t; ownerTwo := ownerTwo t; index := index t;
     accountContract := Some c; factory := factory t |}.

Definition set_factory {Base} (c : Contract) (t : TwoOwnerAccountAPI Base)
  : TwoOwnerAccountAPI Base :=
  {| super := super t; name := name t; factoryAddress := factoryAddress t;
     ownerOne := ownerOne t; ownerTwo := ownerTwo t; index := index t;
     accountContract := accountContract t; factory := Some c |}.

(** What the adapter inherits from [AccountApiType] and what it reads from
    the chain. A method of the base class acts on the whole instance (it
    may call back into this class and fill its caches) and may fail; the
    operation it is given is read, not written. *)
Class BaseAccountAPI (Base BaseApiParams Details : Type) : Type := {
  (** [super(params)] *)
  base_constructor : AccountApiParamsType BaseApiParams -> Base;
  (** [this.getUserOpHash(userOp)] *)
  getUserOpHash :
    UserOperationStruct -> TwoOwnerAccountAPI Base
    -> result string * TwoOwnerAccountAPI Base;
  (** [this.checkAccountPhantom()] *)
  checkAccountPhantom :
    TwoOwnerAccountAPI Base -> result bool * TwoOwnerAccountAPI Base;
  (** [this.getAccountAddress()] *)
  getAccountAddress :
    TwoOwnerAccountAPI Base -> result string * TwoOwnerAccountAPI Base;
  (** [super.createUnsignedUserOp(info)], returning a new object *)
  base_createUnsignedUserOp :
    Details -> TwoOwnerAccountAPI Base
    -> result UserOperationStruct * TwoOwnerAccountAPI Base;
  (** [accountContract.getNonce()], a read of the chain through the
      provider *)
  contract_getNonce : Contract -> result Z
}.

(** *** The monad of methods

    A method runs on the instance and on the store of operation objects
    (an operation is passed by reference); it returns or throws, and what
    it wrote before throwing stays written. *)

Definition ref : Type := nat.

Record World (Base : Type) : Type := {
  this : TwoOwnerAccountAPI Base;
  heap : list UserOperationStruct
}.
Arguments this {Base} _.
Arguments heap {Base} _.

Definition M (Base A : Type) : Type := World Base -> result A * World Base.

Section Monad.
Context {Base : Type}.

Definition ret {A} (a : A) : M Base A := fun w => (Ok a, w).

Definition throw {A} (e : exn) : M Base A := fun w => (Err e, w).

Definition bind {A B} (m : M Base A) (k : A -> M Base B) : M Base B :=
  fun w =>
    match m w with
    | (Ok a, w') => k a w'
    | (Err e, w') => (Err e, w')
    end.

(** A call that neither reads nor writes the world: it returns or
    throws. *)
Definition from_result {A} (r : result A) : M Base A := fun w => (r, w).

Definition get_this : M Base (TwoOwnerAccountAPI Base) :=
  fun w => (Ok (this w), w).

Definition modify_this (f : TwoOwnerAccountAPI Base -> TwoOwnerAccountAPI Base)
  : M Base unit :=
  fun w => (Ok tt, {| this := f (this w); heap := heap w |}).

(** A method of the base class. *)
Definition inherited {A}
  (f : TwoOwnerAccountAPI Base -> result A * TwoOwnerAccountAPI Base)
  : M Base A :=
  fun w =>
    let (r, t) := f (this w) in (r, {| this := t; heap := heap w |}).

(** A new object. *)
Definition alloc (o : UserOperationStruct) : M Base ref :=
  fun w => (Ok (List.length (heap w)),
            {| this := this w; heap := heap w ++ [o] |}).

(** The object behind a reference. A reference always denotes an object;
    the other case only makes the function total. *)
Definition deref (r : ref) : M Base UserOperationStruct :=
  fun w =>
    match nth_error (heap w) r with
    | Some o => (Ok o, w)
    | None => (Err (Rejected "no such object"), w)
    end.

Fixpoint update (l : list UserOperationStruct) (r : ref) (o : UserOperationStruct)
  : list UserOperationStruct :=
  match l, r with
  | [], _ => []
  | _ :: rest, O => o :: rest
  | x :: rest, S r' => x :: update rest r' o
  end.

(** A write to the object behind a reference. *)
Definition assign (r : ref) (f : UserOperationStruct -> UserOperationStruct)
  : M Base unit :=
  fun w =>
    match nth_error (heap w) r with
    | Some o => (Ok tt, {| this := this w; heap := update (heap w) r (f o) |})
    | None => (Err (Rejected "no such object"), w)
    end.
End Monad.

Declare Scope method_scope.
Delimit Scope method_scope with method.
Notation "x <- m ;; k" := (bind m (fun x => k))
  (at level 61, m at next level, right associativity) : method_scope.
Notation "m ;; k" := (bind m (fun _ => k))
  (at level 61, right associativity) : method_scope.

(** *** The constructor and the methods *)

Section TwoOwnerAccountAPI.
Context {Base BaseApiParams Details : Type}.
Context {primitives : Primitives} {api : BaseAccountAPI Base BaseApiParams Details}.
Variable Config : ExConfig.

Local Open Scope method_scope.

(** [constructor(params)]; [random] is the source [createRandom] draws
    from. *)
Definition constructor (params : AccountApiParamsType BaseApiParams)
  (random : nat -> byte) : result (TwoOwnerAccountAPI Base) :=
  let base := base_constructor params in
  let privateKey := option_map State.privateKey (deserializeState params) in
  let ownerTwo' := option_map State.ownerTwo (deserializeState params) in
  let address := option_map CreationContext.address (context params) in
  match cond privateKey WalletApi.new (Ok (WalletApi.createRandom random)) with
  | Ok wallet =>
      Ok {| super := base;
            name := "SimpleAccountAPI";
            factoryAddress := Some (FACTORY_ADDRESS Config);
            ownerOne := wallet;
            ownerTwo := cond ownerTwo' (fun s => s) (or_else address "");
            index := JSNumber.of_Z 0;
            accountContract := None;
            factory := None |}
  | Err e => Err e
  end.

(** [serialize()] *)
Definition serialize : M Base State.t :=
  t <- get_this ;;
  ret {| State.privateKey := WalletApi.privateKey (ownerOne t);
         State.ownerTwo := ownerTwo t |}.

(** [_getAccountContract()]: the binding is made on first use, at the
    address the base class gives, and kept. *)
Definition _getAccountContract : M Base Contract :=
  t <- get_this ;;
  match accountContract t with
  | None =>
      a <- inherited getAccountAddress ;;
      modify_this (set_accountContract (connect a)) ;;
      ret (connect a)
  | Some c => ret c
  end.

(** [getAccountInitCode()]: the factory binding is made on first use from
    [factoryAddress] and kept; the two items of [hexConcat] are evaluated
    left to right, so the call data is encoded before the concatenation
    looks at the factory address. *)
Definition getAccountInitCode : M Base string :=
  t <- get_this ;;
  factory <-
    match factory t with
    | None =>
        match factoryAddress t with
        | Some a =>
            if negb (String.eqb a "")
            then modify_this (set_factory (connect a)) ;; ret (connect a)
            else throw (Error "no factory to get initCode")
        | None => throw (Error "no factory to get initCode")
        end
    | Some f => ret f
    end ;;
  t <- get_this ;;
  let ownerOneAddress := WalletApi.getAddress (ownerOne t) in
  data <- from_result (Abi.encodeFunctionData_createAccount
                  ownerOneAddress (ownerTwo t) (index t)) ;;
  from_result (Bytes.hexConcat [address factory; data]).

(** [getNonce()]; a [BigNumber] is an integer. *)
Definition getNonce : M Base Z :=
  phantom <- inherited checkAccountPhantom ;;
  if (phantom : bool) then ret 0%Z
  else
    accountContract <- _getAccountContract ;;
    from_result (contract_getNonce accountContract).

(** [signOwnerOne(userOpHash)] *)
Definition signOwnerOne (userOpHash : string) : M Base string :=
  t <- get_this ;;
  message <- from_result (Bytes.arrayify userOpHash) ;;
  ret (WalletApi.signMessage (ownerOne t) (Arr message)).

(** [signMessage(context, request)]; [context] is not read. *)
Definition signMessage {Any : Type} (context : Any)
  (request : option MessageSigningRequest) : M Base string :=
  t <- get_this ;;
  let rawSigningData :=
    match request with
    | Some r => rawSigningData r
    | None => None
    end in
  from_result (WalletApi.signText (ownerOne t) (JSString.or_else rawSigningData [])).

(** [signUserOpWithContext(userOp, context)]: the object literal first
    copies the properties of [userOp], then evaluates the signature, and
    is a new object. *)
Definition signUserOpWithContext (userOp : ref) (context : SigningContext)
  : M Base ref :=
  op <- deref userOp ;;
  userOpHash <- inherited (getUserOpHash op) ;;
  ownerOneSignature <- signOwnerOne userOpHash ;;
  encoded <- from_result (Abi.encode_bytes_bytes ownerOneSignature (signedMessage context)) ;;
  alloc (with_signature op encoded).

(** [createUnsignedUserOp(info)]: the object the base class returns is
    awaited on twice, written to, and returned. *)
Definition createUnsignedUserOp (info : Details) : M Base ref :=
  built <- inherited (base_createUnsignedUserOp info) ;;
  userOp <- alloc built ;;
  (op <- deref userOp ;; from_result (await (preVerificationGas op))) ;;
  op <- deref userOp ;;
  value <- from_result (await (preVerificationGas op)) ;;
  assign userOp (fun o =>
    with_preVerificationGas o (JSNumber.mul (Number value) JSNumber.two_and_a_half)) ;;
  ret userOp.

(** [getUserOpHashToSign(userOp)] *)
Definition getUserOpHashToSign (userOp : ref) : M Base string :=
  op <- deref userOp ;;
  inherited (getUserOpHash op).

End TwoOwnerAccountAPI.

(** *** The execute call

    [encodeExecute(target, value, data)] encodes with the interface of the
    account contract's binding, whose ABI is generated code; the encoder
    [accountContract.interface.encodeFunctionData('execute', ...)] is a
    parameter, applied to the binding and to the three arguments in the
    order of the call. *)

Section EncodeExecute.
Context {Base BaseApiParams Details : Type}.
Context {api : BaseAccountAPI Base BaseApiParams Details}.
Variable interface_encodeExecute :
  Contract -> string -> BigNumberish -> string -> result string.

Local Open Scope method_scope.

(** [encodeExecute(target, value, data)] *)
Definition encodeExecute (target : string) (value : BigNumberish) (data : string)
  : M Base string :=
  accountContract <- _getAccountContract ;;
  from_result (interface_encodeExecute accountContract target value data).

End EncodeExecute.

(** ** Notions the properties are stated with *)

(** The factory address [getAccountInitCode] resolves: that of the cached
    binding, else the configured one when it is neither absent nor
    empty. *)
Definition resolvable_factory {Base} (t : TwoOwnerAccountAPI Base) : option string :=
  match factory t with
  | Some f => Some (address f)
  | None =>
      match factoryAddress t with
      | Some a => if String.eqb a "" then None else Some a
      | None => None
      end
  end.

(** The same base class over a chain that reports other nonces. *)
Definition with_reported_nonce {Base BaseApiParams Details}
  (api : BaseAccountAPI Base BaseApiParams Details)
  (reported : Contract -> result Z) : BaseAccountAPI Base BaseApiParams Details :=
  {| base_constructor := @base_constructor _ _ _ api;
     getUserOpHash := @getUserOpHash _ _ _ api;
     checkAccountPhantom := @checkAccountPhantom _ _ _ api;
     getAccountAddress := @getAccountAddress _ _ _ api;
     base_createUnsignedUserOp := @base_createUnsignedUserOp _ _ _ api;
     contract_getNonce := reported |}.

(** The restore parameters: a serialized state and no creation context. *)
Definition restore_params {BaseApiParams} (base : BaseApiParams) (state : State.t)
  : AccountApiParamsType BaseApiParams :=
  {| baseParams := base; context := None; deserializeState := Some state |}.

(** The digits of a hex string: what follows the prefix [0x], or the
    whole string when there is no prefix. *)
Definition hex_digits (s : string) : string :=
  if Address.starts_with_0x s then Bytes.substring_from 2 s else s.

(** A private key in the form [new ethers.Wallet] takes: 64 hex digits,
    with or without the prefix. *)
Definition is_private_key (k : string) : bool :=
  Nat.eqb (String.length (hex_digits k)) 64
  && Bytes.all_chars Bytes.is_hex_char (hex_digits k).

(** A private key [new ethers.Wallet] makes a wallet of: one in that form
    whose number is not 0 modulo the order of the group. *)
Definition is_valid_key (k : string) : bool :=
  is_private_key k && Curve.has_public_key (Bytes.parse_pairs (hex_digits k)).

(** ** Sample collaborators

    A toy hash and signature, and a base class whose answers are read off
    its state; they instantiate the parameters where a closed example is
    wanted. *)

Module Sample.
Import Bytes.

(** The toy hash: the first 32 bytes of the data, zero-padded. *)
Definition hash (data : list byte) : list byte :=
  firstn 32 (data ++ repeat x00 32).

Lemma hash_length (data : list byte) : List.length (hash data) = 32.
Proof.
  unfold hash. rewrite length_firstn, length_app, repeat_length. lia.
Qed.

(** The toy key derivation: the first 32 bytes of the random source,
    unless they have no public key. *)
Definition derive (random : nat -> byte) : list byte :=
  if Curve.has_public_key (map random (seq 0 32))
  then map random (seq 0 32)
  else repeat x00 31 ++ [x01].

Lemma derive_length (random : nat -> byte) : List.length (derive random) = 32.
Proof.
  unfold derive. destruct (Curve.has_public_key _); [|reflexivity].
  now rewrite length_map, length_seq.
Qed.

Lemma derive_valid (random : nat -> byte) :
  Curve.has_public_key (derive random) = true.
Proof.
  unfold derive.
  destruct (Curve.has_public_key (map random (seq 0 32))) eqn:H;
    [exact H|reflexivity].
Qed.

(** The toy message of an error: its reason, and the value when there is
    one. *)
Definition message (e : exn) : string :=
  match e with
  | Error m => m
  | ArgumentError reason value => reason ++ " (value=" ++ value ++ ")"
  | NumericFault fault => fault
  | TypeError => ""
  | Rejected reason => reason
  end.

Definition primitives : Primitives :=
  {| keccak256 := hash;
     keccak256_length := hash_length;
     signDigest := fun key digest => firstn 65 (digest ++ key ++ repeat x01 65);
     computePublicKey := fun key => x04 :: key ++ key;
     icapAddress := fun _ => None;
     deriveKey := derive;
     deriveKey_length := derive_length;
     deriveKey_valid := derive_valid;
     errorMessage := message |}.

#[local] Existing Instance primitives.

(** The state of the sample base class: whether the account is phantom,
    its address, and the operation the generic builder returns. *)
Record base : Type := {
  isPhantom : bool;
  accountAddress : string;
  built : UserOperationStruct
}.

Definition userOpHash : string := hexlify_bytes (repeat x11 32).

Definition api : BaseAccountAPI base base unit :=
  {| base_constructor := fun params => baseParams params;
     getUserOpHash := fun _ t => (Ok userOpHash, t);
     checkAccountPhantom := fun t => (Ok (isPhantom (super t)), t);
     getAccountAddress := fun t => (Ok (accountAddress (super t)), t);
     base_createUnsignedUserOp := fun _ t => (Ok (built (super t)), t);
     contract_getNonce := fun _ => Ok 7%Z |}.

(** A base class that, as one that ABI-encodes the operation does, cannot
    hash an operation whose [preVerificationGas] is a number that
    [BigNumber.from] rejects. *)
Definition strict_getUserOpHash (op : UserOperationStruct)
  (t : TwoOwnerAccountAPI base) : result string * TwoOwnerAccountAPI base :=
  match await (preVerificationGas op) with
  | Ok (BN_number x) =>
      match Abi.BigNumber_from x with
      | Ok _ => (Ok userOpHash, t)
      | Err e => (Err e, t)
      end
  | Ok (BN_BigNumber _) => (Ok userOpHash, t)
  | Err e => (Err e, t)
  end.

Definition strict_api : BaseAccountAPI base base unit :=
  {| base_constructor := fun params => baseParams params;
     getUserOpHash := strict_getUserOpHash;
     checkAccountPhantom := fun t => (Ok (isPhantom (super t)), t);
     getAccountAddress := fun t => (Ok (accountAddress (super t)), t);
     base_createUnsignedUserOp := fun _ t => (Ok (built (super t)), t);
     contract_getNonce := fun _ => Ok 7%Z |}.

Definition operation (gas : BigNumberish) : UserOperationStruct :=
  {| sender := Value "0x00000000000000000000000000000000000000aa";
     nonce := Value (BN_BigNumber 0);
     initCode := Value "0x";
     callData := Value "0x";
     callGasLimit := Value (BN_BigNumber 35000);
     verificationGasLimit := Value (BN_BigNumber 100000);
     preVerificationGas := Promise (Ok gas);
     maxFeePerGas := Value (BN_BigNumber 1);
     maxPriorityFeePerGas := Value (BN_BigNumber 1);
     paymasterAndData := Value "0x";
     signature := Value "" |}.

Definition base_state (phantom : bool) (gas : BigNumberish) : base :=
  {| isPhantom := phantom;
     accountAddress := "0x00000000000000000000000000000000000000aa";
     built := operation gas |}.

Definition config : ExConfig := {| factory_address := None |}.

Definition random : nat -> byte := fun _ => x2a.

Definition second_owner : string := "0x00000000000000000000000000000000000000bb".

(** Creation with a context that names the second owner. *)
Definition params (phantom : bool) (gas : BigNumberish) : AccountApiParamsType base :=
  {| baseParams := base_state phantom gas;
     context := Some {| CreationContext.address := second_owner |};
     deserializeState := None |}.

(** Creation with neither a context nor a state. *)
Definition bare_params : AccountApiParamsType base :=
  {| baseParams := base_state true (BN_BigNumber 0);
     context := None;
     deserializeState := None |}.

(** The instance after construction, as fields. *)
Definition instance (phantom : bool) (gas : BigNumberish) (secondOwner : string)
  : TwoOwnerAccountAPI base :=
  {| super := base_state phantom gas;
     name := "SimpleAccountAPI";
     factoryAddress := Some (FACTORY_ADDRESS config);
     ownerOne := WalletApi.createRandom random;
     ownerTwo := secondOwner;
     index := JSNumber.of_Z 0;
     accountContract := None;
     factory := None |}.

Definition world (phantom : bool) (gas : BigNumberish) (secondOwner : string)
  (objects : list UserOperationStruct) : World base :=
  {| this := instance phantom gas secondOwner; heap := objects |}.

Definition gas : BigNumberish := BN_BigNumber 21000.

(** An instance with a second owner, and one operation in the store. *)
Definition signing_world : World base :=
  world false gas second_owner [operation gas].

Definition signing_context : SigningContext := {| signedMessage := "0x1234" |}.

(** The local owner's signature over the sample hash. *)
Definition local_signature : list byte :=
  @WalletApi.signature_bytes primitives (WalletApi.createRandom random)
    (Arr (repeat x11 32)).

(** A state in which the account contract is already bound. *)
Definition bound_world : World base :=
  {| this := set_accountContract (connect "0x00000000000000000000000000000000000000aa")
               (instance false gas second_owner);
     heap := [] |}.

(** The largest odd integer a double holds exactly, 2^53 - 1, as a
    number. *)
Definition large_gas : BigNumberish :=
  BN_number (JSNumber.of_Z 9007199254740991).

(** A second state holding the same operation at another reference, in an
    instance that differs in its base state and second owner. *)
Definition other_world : World base :=
  world true large_gas "" [operation large_gas; operation gas].

(** A state whose factory address has been cleared and whose factory
    binding is not cached. *)
Definition unconfigured_world : World base :=
  {| this := {| super := base_state true gas;
                name := "SimpleAccountAPI";
                factoryAddress := None;
                ownerOne := WalletApi.createRandom random;
                ownerTwo := second_owner;
                index := JSNumber.of_Z 0;
                accountContract := None;
                factory := None |};
     heap := [] |}.

(** The call data of [createAccount] for the sample instance, under the
    sample primitives. *)
Definition call_data : list byte :=
  @Abi.getSighash primitives "createAccount(address,address,uint256)"
    ++ Abi.address_word "0x2a2a2a2a2a2a2a2a2a2a2a2a2a2a2a2a2a2a2a2a"
    ++ Abi.address_word second_owner
    ++ Abi.word 0.

(** The state an instance without a second owner serializes to. *)
Definition state_without_second_owner : State.t :=
  {| State.privateKey := WalletApi.privateKey (WalletApi.createRandom random);
     State.ownerTwo := "" |}.

(** A configuration that names another factory. *)
Definition other_config : ExConfig :=
  {| factory_address := Some "0x00000000000000000000000000000000000000fa" |}.

(** A state whose key is written in upper case and without prefix. *)
Definition state_with_bare_key : State.t :=
  {| State.privateKey :=
       "ABABABABABABABABABABABABABABABABABABABABABABABABABABABABABABABAB";
     State.ownerTwo := second_owner |}.

(** A state whose key is empty. *)
Definition state_without_key : State.t :=
  {| State.privateKey := ""; State.ownerTwo := second_owner |}.


(** A configuration whose factory address is a name. *)
Definition named_config : ExConfig :=
  {| factory_address := Some "factory.eth" |}.

(** The instance after construction under a configuration that names the
    factory address [F]. *)
Definition configured_instance (F : string) : TwoOwnerAccountAPI base :=
  {| super := base_state false gas;
     name := "SimpleAccountAPI";
     factoryAddress := Some F;
     ownerOne := WalletApi.createRandom random;
     ownerTwo := second_owner;
     index := JSNumber.of_Z 0;
     accountContract := None;
     factory := None |}.

(** A state in which the factory binding is cached, with the factory
    address still set or cleared since. *)
Definition factory_world (configured : option string) : World base :=
  {| this := {| super := base_state true gas;
                name := "SimpleAccountAPI";
                factoryAddress := configured;
                ownerOne := WalletApi.createRandom random;
                ownerTwo := second_owner;
                index := JSNumber.of_Z 0;
                accountContract := None;
                factory := Some (connect "0x00000000000000000000000000000000000000fa") |};
     heap := [] |}.

(** The second owner of the samples spelled in upper case and without
    prefix. *)
Definition second_owner_bare : string := "00000000000000000000000000000000000000BB".

(** An odd gas value. *)
Definition odd_gas : BigNumberish := BN_BigNumber 21001.

(** An encoder of the execute call that lists its arguments. *)
Definition interface_encodeExecute (c : Contract) (target : string)
  (value : BigNumberish) (data : string) : result string :=
  Ok (address c ++ target ++ data)%string.

(** The init code of the sample instance. *)
Definition init_code : string :=
  "0x6c0ec05ad55c8b8427119ce50b6087e7b0c9c23e"
  ++ "63726561"
  ++ "0000000000000000000000002a2a2a2a2a2a2a2a2a2a2a2a2a2a2a2a2a2a2a2a"
  ++ "00000000000000000000000000000000000000000000000000000000000000bb"
  ++ "0000000000000000000000000000000000000000000000000000000000000000".

(** A signing context with no second signature. *)
Definition empty_context : SigningContext := {| signedMessage := "" |}.

End Sample.

(** * Facts *)

(** ** Hex strings *)

Module BytesFacts.
Import Bytes.

Lemma hex_digits_of_byte (b : byte) :
  nibble_of_char (hex_char (Byte.to_N b / 16)) = Some (Byte.to_N b / 16)%N
  /\ nibble_of_char (hex_char (Byte.to_N b mod 16)) = Some (Byte.to_N b mod 16)%N
  /\ byte_of_N (16 * (Byte.to_N b / 16) + Byte.to_N b mod 16) = b.
Proof. destruct b; vm_compute; repeat split; reflexivity. Qed.

Lemma hex_digits_lower (b : byte) :
  lower_char (hex_char (Byte.to_N b / 16)) = hex_char (Byte.to_N b / 16)
  /\ lower_char (hex_char (Byte.to_N b mod 16)) = hex_char (Byte.to_N b mod 16).
Proof. destruct b; vm_compute; split; reflexivity. Qed.

Lemma parse_pairs_hex_of_bytes (l : list byte) :
  parse_pairs (hex_of_bytes l) = l.
Proof.
  induction l as [|b l IH]; [reflexivity|].
  cbn [hex_of_bytes parse_pairs].
  destruct (hex_digits_of_byte b) as (Hhi & Hlo & Hb).
  rewrite Hhi, Hlo, Hb, IH. reflexivity.
Qed.

Lemma all_hex_hex_of_bytes (l : list byte) :
  all_chars is_hex_char (hex_of_bytes l) = true.
Proof.
  induction l as [|b l IH]; [reflexivity|].
  cbn [hex_of_bytes all_chars]. unfold is_hex_char at 1 2.
  destruct (hex_digits_of_byte b) as (Hhi & Hlo & _).
  rewrite Hhi, Hlo, IH. reflexivity.
Qed.

Lemma length_hex_of_bytes (l : list byte) :
  String.length (hex_of_bytes l) = 2 * List.length l.
Proof.
  induction l as [|b l IH]; [reflexivity|].
  cbn [hex_of_bytes String.length List.length]. rewrite IH. lia.
Qed.

Lemma odd_double (n : nat) : Nat.odd (2 * n) = false.
Proof.
  rewrite <- Nat.negb_even, Nat.even_mul. reflexivity.
Qed.

Lemma toLowerCase_hex_of_bytes (l : list byte) :
  toLowerCase (hex_of_bytes l) = hex_of_bytes l.
Proof.
  induction l as [|b l IH]; [reflexivity|].
  cbn [hex_of_bytes toLowerCase].
  destruct (hex_digits_lower b) as (Hhi & Hlo).
  rewrite Hhi, Hlo, IH. reflexivity.
Qed.

Lemma isHexString_hexlify_bytes (l : list byte) :
  isHexString (hexlify_bytes l) = true.
Proof. apply all_hex_hex_of_bytes. Qed.

(** [arrayify(hexlify(bytes))] gives the bytes back. *)
Lemma arrayify_hexlify_bytes (l : list byte) :
  arrayify (hexlify_bytes l) = Ok l.
Proof.
  unfold arrayify. rewrite isHexString_hexlify_bytes.
  cbn [hexlify_bytes substring_from].
  rewrite length_hex_of_bytes, odd_double, parse_pairs_hex_of_bytes.
  reflexivity.
Qed.

(** [hexlify] leaves the hex string of a byte array as it is. *)
Lemma hexlify_hexlify_bytes (l : list byte) :
  hexlify (hexlify_bytes l) = Ok (hexlify_bytes l).
Proof.
  unfold hexlify. rewrite isHexString_hexlify_bytes.
  cbn [hexlify_bytes String.length toLowerCase].
  rewrite length_hex_of_bytes, toLowerCase_hex_of_bytes.
  replace (S (S (2 * List.length l))) with (2 * S (List.length l)) by lia.
  rewrite odd_double. reflexivity.
Qed.

Lemma hexDataLength_hexlify_bytes (l : list byte) :
  hexDataLength (hexlify_bytes l) = List.length l.
Proof.
  unfold hexDataLength. cbn [hexlify_bytes String.length].
  rewrite length_hex_of_bytes.
  replace (S (S (2 * List.length l)) - 2) with (List.length l * 2) by lia.
  apply Nat.div_mul. discriminate.
Qed.

Lemma nibble_lower_char (c : ascii) :
  nibble_of_char (lower_char c) = nibble_of_char c.
Proof.
  destruct c as [[] [] [] [] [] [] [] []]; vm_compute; reflexivity.
Qed.

Lemma parse_pairs_toLowerCase (s : string) :
  parse_pairs (toLowerCase s) = parse_pairs s.
Proof.
  revert s. fix IH 1. intros [|a [|b r]]; try reflexivity.
  cbn [toLowerCase parse_pairs].
  rewrite !nibble_lower_char, IH. reflexivity.
Qed.

Lemma all_hex_toLowerCase (s : string) :
  all_chars is_hex_char (toLowerCase s) = all_chars is_hex_char s.
Proof.
  induction s as [|c s IH]; [reflexivity|].
  cbn [toLowerCase all_chars]. unfold is_hex_char at 1 3.
  rewrite nibble_lower_char, IH. reflexivity.
Qed.

Lemma lower_char_idempotent (c : ascii) : lower_char (lower_char c) = lower_char c.
Proof. destruct c as [[] [] [] [] [] [] [] []]; vm_compute; reflexivity. Qed.

Lemma toLowerCase_idempotent (s : string) :
  toLowerCase (toLowerCase s) = toLowerCase s.
Proof.
  induction s as [|c s IH]; [reflexivity|].
  cbn [toLowerCase]. now rewrite lower_char_idempotent, IH.
Qed.

Lemma length_toLowerCase (s : string) :
  String.length (toLowerCase s) = String.length s.
Proof. induction s as [|c s IH]; [reflexivity|]. cbn. now rewrite IH. Qed.

Lemma length_append (a b : string) :
  String.length (a ++ b) = String.length a + String.length b.
Proof. induction a as [|c a IH]; [reflexivity|]. cbn. now rewrite IH. Qed.

Lemma all_chars_append (p : ascii -> bool) (a b : string) :
  all_chars p (a ++ b) = all_chars p a && all_chars p b.
Proof.
  induction a as [|c a IH]; [reflexivity|].
  cbn. rewrite IH. now rewrite andb_assoc.
Qed.

(** Parsing is additive over a first part of even length made of hex
    digits. *)
Lemma parse_pairs_append (a b : string) :
  Nat.odd (String.length a) = false ->
  parse_pairs (a ++ b) = (parse_pairs a ++ parse_pairs b)%list.
Proof.
  revert a. fix IH 1. intros [|x [|y r]] Hodd.
  - reflexivity.
  - discriminate Hodd.
  - change (String x (String y r) ++ b)%string
      with (String x (String y (r ++ b))).
    cbn [parse_pairs].
    assert (Hr : Nat.odd (String.length r) = false).
    { cbn [String.length] in Hodd. rewrite Nat.odd_succ, Nat.even_succ in Hodd.
      exact Hodd. }
    rewrite (IH r Hr).
    destruct (nibble_of_char x), (nibble_of_char y); reflexivity.
Qed.

(** What [arrayify] accepts, and what it yields. *)
Lemma arrayify_Ok (value : string) (l : list byte) :
  arrayify value = Ok l ->
  isHexString value = true
  /\ Nat.odd (String.length (substring_from 2 value)) = false
  /\ l = parse_pairs (substring_from 2 value).
Proof.
  unfold arrayify. destruct (isHexString value); [|discriminate].
  destruct (Nat.odd _); [discriminate|].
  intros [= <-]. repeat split.
Qed.

Lemma isHexString_shape (value : string) :
  isHexString value = true ->
  value = String "0" (String "x" (substring_from 2 value))
  /\ all_chars is_hex_char (substring_from 2 value) = true.
Proof.
  destruct value as [|a [|b r]]; [discriminate| |].
  - destruct a as [[] [] [] [] [] [] [] []]; discriminate.
  - destruct a as [[] [] [] [] [] [] [] []]; try discriminate.
    destruct b as [[] [] [] [] [] [] [] []]; try discriminate.
    intros Hall. split; [reflexivity|exact Hall].
Qed.

(** [hexlify] of a string that [arrayify] accepts: the same data, in
    lower case. *)
Lemma hexlify_of_arrayify (value : string) (l : list byte) :
  arrayify value = Ok l ->
  hexlify value = Ok (toLowerCase value)
  /\ arrayify (toLowerCase value) = Ok l.
Proof.
  intros Harr. destruct (arrayify_Ok _ _ Harr) as (Hhex & Hodd & ->).
  destruct (isHexString_shape _ Hhex) as (Hshape & Hall).
  set (digits := substring_from 2 value) in *.
  rewrite Hshape. split.
  - unfold hexlify. cbn [isHexString]. rewrite Hall.
    cbn [String.length]. rewrite !Nat.odd_succ, Nat.even_succ.
    fold (Nat.odd (String.length digits)). rewrite Hodd. reflexivity.
  - unfold arrayify. cbn [toLowerCase]. change (lower_char "0") with "0"%char.
    change (lower_char "x") with "x"%char.
    cbn [isHexString substring_from].
    rewrite all_hex_toLowerCase, Hall, length_toLowerCase, Hodd.
    rewrite parse_pairs_toLowerCase. reflexivity.
Qed.

(** What [hexlify] and [hexConcat] throw is an argument error. *)
Lemma hexlify_error (value : string) (e : exn) :
  hexlify value = Err e -> exists reason v, e = ArgumentError reason v.
Proof.
  unfold hexlify. destruct (isHexString value); [destruct (Nat.odd _)|];
    intros [= <-]; eauto.
Qed.

Lemma hexConcat_from_error (items : list string) (acc : string) (e : exn) :
  hexConcat_from acc items = Err e -> exists reason v, e = ArgumentError reason v.
Proof.
  revert acc. induction items as [|item rest IH]; intros acc; [discriminate|].
  cbn [hexConcat_from]. destruct (hexlify item) as [h|e'] eqn:Hh.
  - apply IH.
  - intros [= <-]. exact (hexlify_error _ _ Hh).
Qed.

(** A string of hex digits parses to one byte per pair. *)
Lemma length_parse_pairs (s : string) :
  all_chars is_hex_char s = true ->
  List.length (parse_pairs s) = Nat.div (String.length s) 2.
Proof.
  revert s. fix IH 1. intros [|a [|b r]] Hall; [reflexivity|reflexivity|].
  cbn [all_chars] in Hall. unfold is_hex_char at 1 2 in Hall.
  cbn [parse_pairs String.length].
  destruct (nibble_of_char a); [|discriminate].
  destruct (nibble_of_char b); [|discriminate].
  cbn [andb List.length] in *. rewrite (IH r Hall).
  change (S (S (String.length r))) with (1 * 2 + String.length r).
  rewrite Nat.div_add_l by discriminate. reflexivity.
Qed.

Lemma odd_add_even (a b : nat) :
  Nat.odd a = false -> Nat.odd b = false -> Nat.odd (a + b) = false.
Proof. intros Ha Hb. rewrite Nat.odd_add, Ha, Hb. reflexivity. Qed.

(** [hexConcat] of two pieces of hex data is hex data, and denotes the
    bytes of the first followed by the bytes of the second. *)
Lemma arrayify_hexConcat (a b : string) (a' b' : list byte) :
  arrayify a = Ok a' ->
  arrayify b = Ok b' ->
  exists code, hexConcat [a; b] = Ok code /\ arrayify code = Ok (a' ++ b')%list.
Proof.
  intros Ha Hb.
  destruct (hexlify_of_arrayify _ _ Ha) as (Hla & Hlower_a).
  destruct (hexlify_of_arrayify _ _ Hb) as (Hlb & Hlower_b).
  destruct (arrayify_Ok _ _ Hlower_a) as (Hhex_a & Hodd_a & ->).
  destruct (arrayify_Ok _ _ Hlower_b) as (Hhex_b & Hodd_b & ->).
  destruct (isHexString_shape _ Hhex_a) as (_ & Hall_a).
  destruct (isHexString_shape _ Hhex_b) as (_ & Hall_b).
  set (da := substring_from 2 (toLowerCase a)) in *.
  set (db := substring_from 2 (toLowerCase b)) in *.
  exists (String "0" (String "x" (da ++ db))). split.
  - unfold hexConcat. cbn [hexConcat_from]. rewrite Hla, Hlb. reflexivity.
  - unfold arrayify. cbn [isHexString substring_from].
    rewrite all_chars_append, Hall_a, Hall_b, length_append.
    rewrite (odd_add_even _ _ Hodd_a Hodd_b).
    now rewrite parse_pairs_append.
Qed.

End BytesFacts.

(** ** Addresses *)

Module AddressFacts.
Import Bytes Address.

Lemma hex_digits_not_upper (b : byte) :
  is_upper_hex (hex_char (Byte.to_N b / 16)) = false
  /\ is_upper_hex (hex_char (Byte.to_N b mod 16)) = false.
Proof. destruct b; vm_compute; split; reflexivity. Qed.

Lemma no_upper_in_hex_of_bytes (l : list byte) :
  any_char is_upper_hex (hex_of_bytes l) = false.
Proof.
  induction l as [|b l IH]; [reflexivity|].
  cbn [hex_of_bytes any_char].
  destruct (hex_digits_not_upper b) as (Hhi & Hlo).
  rewrite Hhi, Hlo, IH. reflexivity.
Qed.

Lemma no_upper_in_hexlify_bytes (l : list byte) :
  any_char is_upper_hex (hexlify_bytes l) = false.
Proof. exact (no_upper_in_hex_of_bytes l). Qed.

Lemma is_hex_upper_char (c : ascii) : is_hex_char (upper_char c) = is_hex_char c.
Proof. destruct c as [[] [] [] [] [] [] [] []]; vm_compute; reflexivity. Qed.

Lemma lower_upper_char (c : ascii) : lower_char (upper_char c) = lower_char c.
Proof. destruct c as [[] [] [] [] [] [] [] []]; vm_compute; reflexivity. Qed.

(** Checksumming changes the case of letters and nothing else. *)
Lemma length_checksum_chars (chars : string) (hashed : list byte) :
  String.length (checksum_chars chars hashed) = String.length chars.
Proof.
  revert chars hashed. fix IH 1. intros [|c0 [|c1 r]] hashed; try reflexivity.
  cbn [checksum_chars String.length]. now rewrite IH.
Qed.

Lemma all_hex_checksum_chars (chars : string) (hashed : list byte) :
  all_chars is_hex_char (checksum_chars chars hashed)
  = all_chars is_hex_char chars.
Proof.
  revert chars hashed. fix IH 1. intros [|c0 [|c1 r]] hashed; try reflexivity.
  cbn [checksum_chars all_chars]. rewrite IH.
  destruct (8 <=? _)%N, (8 <=? _)%N; now rewrite ?is_hex_upper_char.
Qed.

Lemma toLowerCase_checksum_chars (chars : string) (hashed : list byte) :
  toLowerCase (checksum_chars chars hashed) = toLowerCase chars.
Proof.
  revert chars hashed. fix IH 1. intros [|c0 [|c1 r]] hashed; try reflexivity.
  cbn [checksum_chars toLowerCase]. rewrite IH.
  destruct (8 <=? _)%N, (8 <=? _)%N; now rewrite ?lower_upper_char.
Qed.

Section WithPrimitives.
Context {primitives : Primitives}.

(** [getAddress] accepts the hex string of 20 bytes and returns its
    checksummed form. *)
Lemma getAddress_hexlify_bytes (l : list byte) :
  List.length l = 20 ->
  getAddress (hexlify_bytes l) = Ok (getChecksumAddress (hexlify_bytes l)).
Proof.
  intros Hlen. unfold getAddress, matches_hex_address.
  cbn [hexlify_bytes starts_with_0x substring_from].
  rewrite BytesFacts.length_hex_of_bytes, Hlen, BytesFacts.all_hex_hex_of_bytes.
  cbn [Nat.mul Nat.add Nat.eqb andb].
  unfold is_mixed_case. rewrite no_upper_in_hexlify_bytes. reflexivity.
Qed.

(** [getChecksumAddress] looks at the digits in lower case only. *)
Lemma getChecksumAddress_prefixed (body : string) :
  getChecksumAddress (String "0" (String "x" body))
  = String "0" (String "x"
      (checksum_chars (toLowerCase body)
         (keccak256 (toUtf8Bytes (toLowerCase body))))).
Proof. reflexivity. Qed.

Lemma getChecksumAddress_idempotent (body : string) :
  getChecksumAddress (getChecksumAddress (String "0" (String "x" body)))
  = getChecksumAddress (String "0" (String "x" body)).
Proof.
  rewrite !getChecksumAddress_prefixed.
  now rewrite toLowerCase_checksum_chars, BytesFacts.toLowerCase_idempotent.
Qed.

(** [getAddress] accepts the checksummed form of 40 hex digits and returns
    it as it is. *)
Lemma getAddress_checksummed (body : string) :
  String.length body = 40 ->
  all_chars is_hex_char body = true ->
  getAddress (getChecksumAddress (String "0" (String "x" body)))
  = Ok (getChecksumAddress (String "0" (String "x" body))).
Proof.
  intros Hlen Hhex.
  pose proof (getChecksumAddress_idempotent body) as Hfix.
  rewrite getChecksumAddress_prefixed in Hfix |- *.
  set (checked := checksum_chars (toLowerCase body)
                    (keccak256 (toUtf8Bytes (toLowerCase body)))) in *.
  unfold getAddress, matches_hex_address.
  cbn [starts_with_0x substring_from]. rewrite Hfix, String.eqb_refl.
  cbn [negb]. rewrite andb_false_r.
  unfold checked. rewrite length_checksum_chars, all_hex_checksum_chars.
  rewrite BytesFacts.length_toLowerCase, BytesFacts.all_hex_toLowerCase.
  rewrite Hlen, Hhex. reflexivity.
Qed.

Lemma getAddress_getChecksumAddress (l : list byte) :
  List.length l = 20 ->
  getAddress (getChecksumAddress (hexlify_bytes l))
  = Ok (getChecksumAddress (hexlify_bytes l)).
Proof.
  intros Hlen. apply getAddress_checksummed.
  - now rewrite BytesFacts.length_hex_of_bytes, Hlen.
  - apply BytesFacts.all_hex_hex_of_bytes.
Qed.

Lemma address_bytes_length (publicKey : list byte) :
  List.length (skipn 12 (keccak256 publicKey)) = 20.
Proof. rewrite length_skipn, keccak256_length. reflexivity. Qed.

(** [computeAddress] is what ethers computes with [getAddress]. *)
Lemma computeAddress_by_getAddress (privateKey : list byte) :
  getAddress
    (hexlify_bytes (skipn 12 (keccak256 (tl (computePublicKey privateKey)))))
  = Ok (WalletApi.computeAddress privateKey).
Proof. apply getAddress_hexlify_bytes, address_bytes_length. Qed.

(** A wallet's address is an address. *)
Lemma getAddress_wallet (wallet : Wallet) :
  getAddress (WalletApi.getAddress wallet) = Ok (WalletApi.getAddress wallet).
Proof. apply getAddress_getChecksumAddress, address_bytes_length. Qed.

End WithPrimitives.

End AddressFacts.

(** ** The ABI coder *)

Module AbiFacts.
Import Bytes Abi.

Lemma length_be_bytes (k : nat) (n : N) : List.length (be_bytes k n) = k.
Proof.
  revert n. induction k as [|k IH]; intros n; [reflexivity|].
  cbn [be_bytes]. rewrite length_app, IH. cbn. lia.
Qed.

Lemma length_word (n : N) : List.length (word n) = 32.
Proof. apply length_be_bytes. Qed.

Lemma to_N_byte_of_N (n : N) : (n < 256)%N -> Byte.to_N (byte_of_N n) = n.
Proof.
  intros Hn. unfold byte_of_N.
  destruct (Byte.of_N n) as [b|] eqn:Hb.
  - now apply Byte.to_of_N.
  - apply Byte.of_N_None_iff in Hb. lia.
Qed.

Lemma N_of_bytes_snoc (l : list byte) (b : byte) :
  N_of_bytes (l ++ [b]) = (N_of_bytes l * 256 + Byte.to_N b)%N.
Proof. unfold N_of_bytes. rewrite fold_left_app. reflexivity. Qed.

Lemma N_of_bytes_be_bytes (k : nat) (n : N) :
  N_of_bytes (be_bytes k n) = (n mod 256 ^ N.of_nat k)%N.
Proof.
  revert n. induction k as [|k IH]; intros n.
  - cbn. now rewrite N.mod_1_r.
  - cbn [be_bytes]. rewrite N_of_bytes_snoc, IH.
    rewrite to_N_byte_of_N by (apply N.mod_lt; discriminate).
    rewrite Nat2N.inj_succ, N.pow_succ_r'.
    rewrite N.Div0.mod_mul_r. lia.
Qed.

(** A word reads back as the number written. *)
Lemma N_of_bytes_word (n : N) : (n < 2 ^ 256)%N -> N_of_bytes (word n) = n.
Proof.
  intros Hn. unfold word. rewrite N_of_bytes_be_bytes.
  apply N.mod_small. exact Hn.
Qed.

Lemma firstn_length_app {A} (l1 l2 : list A) :
  firstn (List.length l1) (l1 ++ l2) = l1.
Proof. induction l1 as [|x l1 IH]; cbn; [now destruct l2|now rewrite IH]. Qed.

Lemma skipn_length_app {A} (l1 l2 : list A) :
  skipn (List.length l1) (l1 ++ l2) = l2.
Proof. induction l1 as [|x l1 IH]; cbn; [reflexivity|exact IH]. Qed.

Lemma read_word_at (pre post : list byte) (n : N) :
  (n < 2 ^ 256)%N ->
  read_word (pre ++ word n ++ post) (List.length pre) = Some n.
Proof.
  intros Hn. unfold read_word.
  rewrite !length_app, length_word.
  destruct (Nat.leb_spec (List.length pre + 32)
              (List.length pre + (32 + List.length post))) as [_|Hlt]; [|lia].
  rewrite skipn_length_app.
  rewrite <- (length_word n) at 1. rewrite firstn_length_app.
  now rewrite N_of_bytes_word.
Qed.

Lemma length_writeBytes (value : list byte) :
  List.length value <= List.length (writeBytes value) <= List.length value + 31.
Proof.
  unfold writeBytes.
  destruct (Nat.eqb_spec (List.length value mod 32) 0) as [_|Hne]; [lia|].
  rewrite length_app, repeat_length.
  pose proof (Nat.mod_upper_bound (List.length value) 32 ltac:(discriminate)).
  lia.
Qed.

Lemma writeBytes_prefix (value : list byte) :
  exists padding, writeBytes value = value ++ padding.
Proof.
  unfold writeBytes.
  destruct (Nat.eqb (List.length value mod 32) 0).
  - exists []. now rewrite app_nil_r.
  - eexists. reflexivity.
Qed.

Lemma read_bytes_at (pre post value : list byte) :
  (N.of_nat (List.length value) < 2 ^ 256)%N ->
  read_bytes
    (pre ++ (word (N.of_nat (List.length value)) ++ writeBytes value) ++ post)
    (List.length pre)
  = Some value.
Proof.
  intros Hlen. unfold read_bytes.
  rewrite <- (app_assoc (word _)).
  rewrite read_word_at by exact Hlen.
  destruct (writeBytes_prefix value) as [padding Hpad]. rewrite Hpad.
  rewrite !length_app, length_word.
  destruct (N.leb_spec
              (N.of_nat (List.length pre + 32) + N.of_nat (List.length value))
              (N.of_nat (List.length pre
                         + (32 + (List.length value + List.length padding
                                  + List.length post))))) as [_|Hlt]; [|lia].
  rewrite Nat2N.id.
  replace (pre ++ word (N.of_nat (List.length value)) ++ (value ++ padding) ++ post)
    with ((pre ++ word (N.of_nat (List.length value))) ++ value ++ padding ++ post)
    by (now rewrite <- !app_assoc).
  replace (List.length pre + 32)
    with (List.length (pre ++ word (N.of_nat (List.length value))))
    by (now rewrite length_app, length_word).
  rewrite skipn_length_app, firstn_length_app. reflexivity.
Qed.

Lemma pack_two_dynamic (ta tb : list byte) :
  pack [Dynamic ta; Dynamic tb]
  = word 64 ++ word (N.of_nat (64 + List.length ta)) ++ ta ++ tb.
Proof.
  unfold pack. cbn [static_length head_size pack_heads pack_tails].
  change (32 + (32 + 0)) with 64.
  rewrite !app_nil_r, <- !app_assoc, Nat.add_0_r, Nat.add_0_l.
  reflexivity.
Qed.

(** Decoding the packed pair yields the two byte strings, in the order
    they were given. *)
Lemma decode_pack_bytes_bytes (a b : list byte) :
  (N.of_nat (List.length a) + N.of_nat (List.length b) + 192 < 2 ^ 256)%N ->
  decode_bytes_bytes
    (pack [Dynamic (word (N.of_nat (List.length a)) ++ writeBytes a);
           Dynamic (word (N.of_nat (List.length b)) ++ writeBytes b)])
  = Some (a, b).
Proof.
  intros Hlen. rewrite pack_two_dynamic.
  set (ta := word (N.of_nat (List.length a)) ++ writeBytes a).
  set (tb := word (N.of_nat (List.length b)) ++ writeBytes b).
  assert (Hta : List.length ta <= List.length a + 63).
  { unfold ta. rewrite length_app, length_word.
    pose proof (length_writeBytes a). lia. }
  set (o1 := 64%N). set (o2 := N.of_nat (64 + List.length ta)).
  assert (Ho1 : (o1 < 2 ^ 256)%N) by (unfold o1; lia).
  assert (Ho2 : (o2 < 2 ^ 256)%N) by (unfold o2; lia).
  assert (Hw1 : read_word (word o1 ++ word o2 ++ ta ++ tb) 0 = Some o1)
    by exact (read_word_at [] _ o1 Ho1).
  assert (Hw2 : read_word (word o1 ++ word o2 ++ ta ++ tb) 32 = Some o2).
  { pose proof (read_word_at (word o1) (ta ++ tb) o2 Ho2) as E.
    rewrite length_word in E. exact E. }
  assert (Hb1 : read_bytes (word o1 ++ word o2 ++ ta ++ tb) (N.to_nat o1) = Some a).
  { pose proof (read_bytes_at (word o1 ++ word o2) tb a ltac:(lia)) as E.
    fold ta in E. rewrite length_app, !length_word, <- app_assoc in E.
    exact E. }
  assert (Hb2 : read_bytes (word o1 ++ word o2 ++ ta ++ tb) (N.to_nat o2) = Some b).
  { pose proof (read_bytes_at ((word o1 ++ word o2) ++ ta) [] b ltac:(lia)) as E.
    fold tb in E.
    rewrite !length_app, !length_word, app_nil_r, <- !app_assoc in E.
    replace (N.to_nat o2) with (32 + 32 + List.length ta)
      by (unfold o2; rewrite Nat2N.id; lia).
    exact E. }
  unfold decode_bytes_bytes. rewrite Hw1, Hw2, Hb1, Hb2. reflexivity.
Qed.

Lemma pack_three_static (w1 w2 w3 : list byte) :
  pack [Static w1; Static w2; Static w3] = w1 ++ w2 ++ w3.
Proof.
  unfold pack. cbn [pack_heads pack_tails]. now rewrite !app_nil_r.
Qed.

(** [BigNumber.from] accepts a number that is an integer of magnitude
    below [MAX_SAFE]. *)
Lemma BigNumber_from_integer (value : JSNumber.number) (n : Z) :
  JSNumber.integer value = Some n ->
  BigNumber_from value
  = if ((MAX_SAFE <=? n) || (n <=? - MAX_SAFE))%Z
    then Err (NumericFault "overflow") else Ok n.
Proof.
  intros H. unfold BigNumber_from.
  destruct value; try discriminate H; now rewrite H.
Qed.

Lemma BigNumber_from_Ok (value : JSNumber.number) (n : Z) :
  BigNumber_from value = Ok n ->
  JSNumber.integer value = Some n /\ (- MAX_SAFE < n < MAX_SAFE)%Z.
Proof.
  unfold BigNumber_from.
  assert (H : match JSNumber.integer value with
              | Some z =>
                  if ((MAX_SAFE <=? z) || (z <=? - MAX_SAFE))%Z
                  then Err (NumericFault "overflow") else Ok z
              | None => Err (NumericFault "underflow")
              end = Ok n ->
              JSNumber.integer value = Some n /\ (- MAX_SAFE < n < MAX_SAFE)%Z).
  { destruct (JSNumber.integer value) as [z|]; [|discriminate].
    destruct (Z.leb_spec MAX_SAFE z); [discriminate|].
    destruct (Z.leb_spec z (- MAX_SAFE)); [discriminate|].
    cbn [orb]. intros [= ->]. split; [reflexivity|lia]. }
  destruct value; try discriminate; exact H.
Qed.

Lemma BigNumber_from_error (value : JSNumber.number) (e : exn) :
  BigNumber_from value = Err e ->
  (exists reason v, e = ArgumentError reason v) \/ (exists fault, e = NumericFault fault).
Proof.
  unfold BigNumber_from.
  assert (H : match JSNumber.integer value with
              | Some z =>
                  if ((MAX_SAFE <=? z) || (z <=? - MAX_SAFE))%Z
                  then Err (NumericFault "overflow") else Ok z
              | None => Err (NumericFault "underflow")
              end = Err e -> exists fault, e = NumericFault fault).
  { destruct (JSNumber.integer value) as [z|]; [|intros [= <-]; eauto].
    destruct (_ || _); [intros [= <-]; eauto|discriminate]. }
  destruct value; try (intros H'; right; exact (H H')).
  - intros [= <-]. right. eauto.
  - intros [= <-]. left. eauto.
Qed.

(** The word of an index that is an integer from 0 to below [MAX_SAFE]. *)
Lemma encode_uint256_Ok (value : JSNumber.number) (n : Z) :
  JSNumber.integer value = Some n ->
  (0 <= n < MAX_SAFE)%Z ->
  encode_uint256 value = Ok (Static (word (Z.to_N n))).
Proof.
  intros H Hn. unfold encode_uint256. rewrite (BigNumber_from_integer _ _ H).
  destruct (Z.leb_spec MAX_SAFE n); [lia|].
  destruct (Z.leb_spec n (- MAX_SAFE)); [unfold MAX_SAFE in *; lia|].
  cbn [orb rbind].
  destruct (Z.ltb_spec n 0); [lia|].
  destruct (Z.ltb_spec (2 ^ 256 - 1) n); [unfold MAX_SAFE in *; lia|].
  reflexivity.
Qed.

Lemma encode_uint256_Ok_inv (value : JSNumber.number) (e : encoded) :
  encode_uint256 value = Ok e ->
  exists n : Z,
    JSNumber.integer value = Some n /\ (0 <= n < MAX_SAFE)%Z
    /\ e = Static (word (Z.to_N n)).
Proof.
  unfold encode_uint256.
  destruct (BigNumber_from value) as [n|] eqn:H; [|discriminate].
  destruct (BigNumber_from_Ok _ _ H) as [Hint Hrange]. cbn [rbind].
  destruct (Z.ltb_spec n 0); [discriminate|].
  destruct (_ <? _)%Z; [discriminate|]. cbn [orb].
  intros [= <-]. exists n. repeat split; [exact Hint|lia|lia].
Qed.

Lemma encode_uint256_error (value : JSNumber.number) (e : exn) :
  encode_uint256 value = Err e ->
  (exists reason v, e = ArgumentError reason v) \/ (exists fault, e = NumericFault fault).
Proof.
  unfold encode_uint256.
  destruct (BigNumber_from value) as [n|e'] eqn:H.
  - cbn [rbind]. destruct (_ || _); [|discriminate]. intros [= <-]. left. eauto.
  - intros [= <-]. exact (BigNumber_from_error _ _ H).
Qed.

(** The call data of [createAccount]: the selector, then one word for each
    of the two addresses and for the index. *)
Lemma encodeFunctionData_createAccount_Ok {primitives : Primitives}
  (ownerOne ownerTwo : string) (index : JSNumber.number) (a1 a2 : string) (n : Z) :
  Address.getAddress ownerOne = Ok a1 ->
  Address.getAddress ownerTwo = Ok a2 ->
  JSNumber.integer index = Some n ->
  (0 <= n < MAX_SAFE)%Z ->
  encodeFunctionData_createAccount ownerOne ownerTwo index
  = Ok (hexlify_bytes
          (getSighash "createAccount(address,address,uint256)"
             ++ address_word a1 ++ address_word a2 ++ word (Z.to_N n))).
Proof.
  intros H1 H2 Hindex Hn.
  unfold encodeFunctionData_createAccount, encode_address.
  rewrite H1, H2, (encode_uint256_Ok _ _ Hindex Hn). cbn [rbind].
  now rewrite pack_three_static.
Qed.

(** The index the constructor sets is the integer 0. *)
Lemma integer_zero : JSNumber.integer (JSNumber.of_Z 0) = Some 0%Z.
Proof. reflexivity. Qed.

Lemma zero_is_safe : (0 <= 0 < MAX_SAFE)%Z.
Proof. split; [discriminate|reflexivity]. Qed.

(** The empty string is no address. *)
Lemma getAddress_empty {primitives : Primitives} :
  Address.getAddress "" = Err (ArgumentError "invalid address" "").
Proof. reflexivity. Qed.

(** The encoder rejects an empty second owner: the address coder throws
    again what [getAddress] throws. *)
Lemma encodeFunctionData_createAccount_empty {primitives : Primitives}
  (ownerOne : string) (index : JSNumber.number) :
  encodeFunctionData_createAccount ownerOne "" index
  = match Address.getAddress ownerOne with
    | Ok _ =>
        Err (ArgumentError (errorMessage (ArgumentError "invalid address" "")) "")
    | Err e => Err (ArgumentError (errorMessage e) ownerOne)
    end.
Proof.
  unfold encodeFunctionData_createAccount, encode_address.
  rewrite getAddress_empty. destruct (Address.getAddress ownerOne); reflexivity.
Qed.

(** What [getAddress] throws is an argument error. *)
Lemma getAddress_error {primitives : Primitives} (a : string) (e : exn) :
  Address.getAddress a = Err e -> exists reason v, e = ArgumentError reason v.
Proof.
  unfold Address.getAddress.
  destruct (Address.matches_hex_address a).
  - destruct (_ && _); intros [= <-]; eauto.
  - destruct (Address.matches_icap a); [destruct (icapAddress a)|];
      intros [= <-]; eauto.
Qed.

(** What the call encoder throws is an argument error or a numeric
    fault. *)
Lemma encodeFunctionData_createAccount_error {primitives : Primitives}
  (ownerOne ownerTwo : string) (index : JSNumber.number) (e : exn) :
  encodeFunctionData_createAccount ownerOne ownerTwo index = Err e ->
  (exists reason v, e = ArgumentError reason v) \/ (exists fault, e = NumericFault fault).
Proof.
  unfold encodeFunctionData_createAccount, encode_address.
  destruct (Address.getAddress ownerOne) as [a1|e1] eqn:H1.
  2:{ intros [= <-]. left. eauto. }
  destruct (Address.getAddress ownerTwo) as [a2|e2] eqn:H2.
  2:{ intros [= <-]. left. eauto. }
  cbn [rbind]. destruct (encode_uint256 index) as [e3|e3] eqn:H3; [discriminate|].
  intros [= <-]. exact (encode_uint256_error _ _ H3).
Qed.

Lemma encode_bytes_bytes_Ok (a b : string) (a' b' : list byte) :
  arrayify a = Ok a' ->
  arrayify b = Ok b' ->
  encode_bytes_bytes a b = Ok (hexlify_bytes (tuple_bytes_bytes a' b')).
Proof.
  intros Ha Hb. unfold encode_bytes_bytes, encode_bytes.
  rewrite Ha, Hb. reflexivity.
Qed.

(** [encode] fails on the first argument that is not hex data. *)
Lemma encode_bytes_bytes_Ok_inv (a b encoded : string) :
  encode_bytes_bytes a b = Ok encoded ->
  exists a' b', arrayify a = Ok a' /\ arrayify b = Ok b'
                /\ encoded = hexlify_bytes (tuple_bytes_bytes a' b').
Proof.
  unfold encode_bytes_bytes, encode_bytes.
  destruct (arrayify a) as [a'|]; [|discriminate].
  destruct (arrayify b) as [b'|]; [|discriminate].
  intros [= <-]. exists a', b'. repeat split.
Qed.

End AbiFacts.

(** ** Binary64 arithmetic *)

Module JSNumberFacts.
Import JSNumber.
Local Open Scope Z_scope.

Lemma Zpos_iter_xO a k : Zpos (Pos.iter xO a k) = Zpos a * 2 ^ Zpos k.
Proof.
  induction k as [|k IH] using Pos.peano_ind.
  - cbn. lia.
  - rewrite Pos.iter_succ, Pos2Z.inj_xO, IH, Pos2Z.inj_succ, Z.pow_succ_r by lia. lia.
Qed.

Lemma Zpos_shl a j : 0 <= j -> Zpos (shl a j) = Zpos a * 2 ^ j.
Proof.
  intros Hj. destruct j as [|k|k]; [cbn; lia| |lia].
  apply Zpos_iter_xO.
Qed.

Lemma digits_iter_xO a k :
  Zpos (digits2_pos (Pos.iter xO a k)) = Zpos (digits2_pos a) + Zpos k.
Proof.
  induction k as [|k IH] using Pos.peano_ind.
  - cbn. lia.
  - rewrite Pos.iter_succ. cbn [digits2_pos]. rewrite Pos2Z.inj_succ, IH. lia.
Qed.

Lemma digits_shl a j : 0 <= j ->
  Zpos (digits2_pos (shl a j)) = Zpos (digits2_pos a) + j.
Proof.
  intros Hj. destruct j as [|k|k]; [cbn; lia| |lia].
  apply digits_iter_xO.
Qed.

Lemma shl_shl a i j : 0 <= i -> 0 <= j -> shl (shl a i) j = shl a (i + j).
Proof.
  intros Hi Hj. apply Pos2Z.inj.
  rewrite !Zpos_shl, Z.pow_add_r by lia. lia.
Qed.

Lemma iter_pos_iter {A} (f : A -> A) p x : iter_pos f p x = Pos.iter f x p.
Proof.
  revert x. induction p as [p IH|p IH|]; intros x; cbn.
  - rewrite !IH. rewrite <- !Pos.iter_swap. reflexivity.
  - now rewrite !IH.
  - reflexivity.
Qed.

Lemma shr_iter_xO a k :
  iter_pos shr_1 k {| shr_m := Zpos (Pos.iter xO a k); shr_r := false; shr_s := false |}
  = {| shr_m := Zpos a; shr_r := false; shr_s := false |}.
Proof.
  rewrite iter_pos_iter. revert a.
  induction k as [|k IH] using Pos.peano_ind; intros a.
  - reflexivity.
  - rewrite (Pos.iter_succ_r k _ shr_1), (Pos.iter_succ k _ xO). cbn [shr_1 orb].
    apply IH.
Qed.

Lemma fexp_normal x : -1074 <= x - 53 -> fexp prec emax x = x - 53.
Proof. unfold fexp, emin, prec, emax. lia. Qed.

Lemma binary_round_aux_exact s a j e :
  0 <= j ->
  Zpos (digits2_pos a) <= 53 ->
  53 <= Zpos (digits2_pos a) + j ->
  -1074 <= e + (Zpos (digits2_pos a) + j - 53) <= 971 ->
  binary_round_aux prec emax s (Zpos (shl a j)) e loc_Exact
  = S754_finite s (shl a (53 - Zpos (digits2_pos a)))
      (e + (Zpos (digits2_pos a) + j - 53)).
Proof.
  intros Hj Hd Hdj He.
  set (d := Zpos (digits2_pos a)) in *.
  assert (Hshift : forall m e0 l,
             shr_fexp prec emax m e0 l
             = shr (shr_record_of_loc m l) e0 (fexp prec emax (Zdigits2 m + e0) - e0))
    by reflexivity.
  unfold binary_round_aux.
  rewrite Hshift. cbn [Zdigits2]. rewrite digits_shl by lia. fold d.
  rewrite fexp_normal by lia.
  replace (d + j + e - 53 - e) with (d + j - 53) by lia.
  assert (Hsplit : shl a j = shl (shl a (53 - d)) (d + j - 53)).
  { rewrite shl_shl by lia. f_equal. lia. }
  assert (Hfirst :
    shr (shr_record_of_loc (Zpos (shl a j)) loc_Exact) e (d + j - 53)
    = ({| shr_m := Zpos (shl a (53 - d)); shr_r := false; shr_s := false |},
       e + (d + j - 53))).
  { rewrite Hsplit. destruct (d + j - 53) as [|k|k] eqn:Hk; [| |lia].
    - cbn [shr shr_record_of_loc]. rewrite Z.add_0_r. reflexivity.
    - cbn [shr shr_record_of_loc].
      change (shl (shl a (53 - d)) (Zpos k)) with (Pos.iter xO (shl a (53 - d)) k).
      now rewrite shr_iter_xO. }
  rewrite Hfirst. cbn [shr_m loc_of_shr_record round_nearest_even].
  rewrite Hshift. cbn [Zdigits2]. rewrite digits_shl by lia. fold d.
  rewrite fexp_normal by lia.
  replace (d + (53 - d) + (e + (d + j - 53)) - 53 - (e + (d + j - 53))) with 0 by lia.
  cbn [shr shr_record_of_loc shr_m].
  destruct (Z.leb_spec (e + (d + j - 53)) (emax - prec)) as [_|Hgt];
    [reflexivity|unfold emax, prec in Hgt; lia].
Qed.

Lemma digits2_pos_bounds a :
  2 ^ (Zpos (digits2_pos a) - 1) <= Zpos a < 2 ^ Zpos (digits2_pos a).
Proof.
  induction a as [a IH|a IH|]; cbn [digits2_pos].
  - rewrite Pos2Z.inj_succ. change (Zpos a~1) with (2 * Zpos a + 1).
    replace (Z.succ (Zpos (digits2_pos a)) - 1) with (Z.succ (Zpos (digits2_pos a) - 1)) by lia.
    rewrite !Z.pow_succ_r by lia. lia.
  - rewrite Pos2Z.inj_succ. change (Zpos a~0) with (2 * Zpos a).
    replace (Z.succ (Zpos (digits2_pos a)) - 1) with (Z.succ (Zpos (digits2_pos a) - 1)) by lia.
    rewrite !Z.pow_succ_r by lia. lia.
  - cbn. lia.
Qed.

Lemma digits2_pos_le a k :
  0 <= k -> Zpos a < 2 ^ k -> Zpos (digits2_pos a) <= k.
Proof.
  intros Hk Ha. destruct (digits2_pos_bounds a) as [Hlo _].
  destruct (Z_le_gt_dec (Zpos (digits2_pos a)) k) as [|Hgt]; [assumption|].
  assert (2 ^ k <= 2 ^ (Zpos (digits2_pos a) - 1)) by (apply Z.pow_le_mono_r; lia).
  lia.
Qed.

Lemma digits2_pos_mono a b :
  Zpos a <= Zpos b -> Zpos (digits2_pos a) <= Zpos (digits2_pos b).
Proof.
  intros Hab. destruct (digits2_pos_bounds a) as [Hlo _].
  destruct (digits2_pos_bounds b) as [_ Hhi].
  assert (H : 2 ^ (Zpos (digits2_pos a) - 1) < 2 ^ Zpos (digits2_pos b)) by lia.
  apply Z.pow_lt_mono_r_iff in H; lia.
Qed.

Lemma of_Z_pos a :
  Zpos a < 2 ^ 53 ->
  of_Z (Zpos a)
  = S754_finite false (shl a (53 - Zpos (digits2_pos a))) (Zpos (digits2_pos a) - 53).
Proof.
  intros Ha. pose proof (digits2_pos_le a 53 ltac:(lia) Ha) as Hd.
  set (d := Zpos (digits2_pos a)) in *.
  unfold of_Z, binary_normalize, binary_round.
  rewrite Z.add_0_r. fold d. rewrite fexp_normal by lia.
  unfold shl_align. rewrite Z.sub_0_r.
  destruct (d - 53) as [|k|k] eqn:Hk; [| lia |].
  - change (Zpos a) with (Zpos (shl a 0)).
    rewrite binary_round_aux_exact by (fold d; lia).
    fold d. repeat (f_equal; try lia).
  - change (Pos.iter xO a k) with (shl a (Zpos k)).
    rewrite binary_round_aux_exact by (fold d; lia).
    fold d. repeat (f_equal; try lia).
Qed.

Lemma mul_two_and_a_half_pos a :
  Zpos (5 * a) < 2 ^ 53 ->
  mul (of_Z (Zpos a)) two_and_a_half
  = S754_finite false (shl (5 * a) (53 - Zpos (digits2_pos (5 * a))))
      (Zpos (digits2_pos (5 * a)) - 54).
Proof.
  intros H5.
  pose proof (digits2_pos_le (5 * a) 53 ltac:(lia) H5) as Hd5.
  pose proof (digits2_pos_mono a (5 * a) ltac:(lia)) as Hmono.
  pose proof (digits2_pos_le a 53 ltac:(lia) ltac:(lia)) as Hd.
  rewrite of_Z_pos by lia.
  set (d := Zpos (digits2_pos a)) in *.
  set (d5 := Zpos (digits2_pos (5 * a))) in *.
  assert (Hd1 : 1 <= d) by (unfold d; lia).
  unfold mul, two_and_a_half, SFmul. cbn [xorb].
  replace (shl a (53 - d) * 5629499534213120)%positive with (shl (5 * a) (103 - d)).
  2:{ apply Pos2Z.inj. rewrite Pos2Z.inj_mul, !Zpos_shl by lia.
      replace (103 - d) with ((53 - d) + 50) by lia.
      rewrite Z.pow_add_r by lia.
      change (Zpos 5629499534213120) with (5 * 2 ^ 50). lia. }
  rewrite binary_round_aux_exact by (fold d5; lia).
  fold d5. f_equal. lia.
Qed.

Lemma denotes_shl a j e :
  0 <= j -> denotes (S754_finite false (shl a j) e) (inject_Z (Zpos a) * (2 # 1) ^ (j + e))%Q.
Proof.
  intros Hj. unfold denotes, to_Q.
  rewrite Zpos_shl by lia. rewrite inject_Z_mult.
  rewrite Qpower_plus by discriminate.
  rewrite (Zpower_Qpower 2 j) by lia.
  change (inject_Z 2) with (2 # 1)%Q. ring.
Qed.

Lemma mul_two_and_a_half_exact n :
  0 <= n -> 5 * n < 2 ^ 53 ->
  denotes (mul (of_Z n) two_and_a_half) (5 * n # 2)%Q.
Proof.
  intros Hn H5. destruct n as [|a|a]; [reflexivity| |lia].
  rewrite mul_two_and_a_half_pos by lia.
  pose proof (digits2_pos_le (5 * a) 53 ltac:(lia) ltac:(lia)) as Hd5.
  pose proof (denotes_shl (5 * a) (53 - Zpos (digits2_pos (5 * a)))
                (Zpos (digits2_pos (5 * a)) - 54) ltac:(lia)) as E.
  replace (53 - Zpos (digits2_pos (5 * a)) + (Zpos (digits2_pos (5 * a)) - 54))
    with (-1) in E by lia.
  unfold denotes in *. destruct (to_Q _); [|exact E].
  rewrite E. unfold Qeq. cbn. lia.
Qed.

End JSNumberFacts.

(** ** Keys *)

Module KeyFacts.
Import Bytes.

Lemma hex_char_nibble (c : ascii) (n : N) :
  nibble_of_char c = Some n -> (n < 16)%N /\ hex_char n = lower_char c.
Proof.
  destruct c as [b0 b1 b2 b3 b4 b5 b6 b7].
  destruct b0, b1, b2, b3, b4, b5, b6, b7; vm_compute;
    intros H; try discriminate H; injection H as <-; split; reflexivity.
Qed.

Lemma hex_of_pair (hi lo : N) :
  (hi < 16)%N -> (lo < 16)%N ->
  (Byte.to_N (byte_of_N (16 * hi + lo)) / 16 = hi)%N
  /\ (Byte.to_N (byte_of_N (16 * hi + lo)) mod 16 = lo)%N.
Proof.
  intros Hhi Hlo. rewrite AbiFacts.to_N_byte_of_N by lia.
  split.
  - rewrite N.mul_comm, N.div_add_l by lia. rewrite N.div_small by lia. lia.
  - rewrite N.add_comm, N.mul_comm, N.Div0.mod_add. now apply N.mod_small.
Qed.

Lemma hex_of_bytes_parse_pairs_bounded (n : nat) (s : string) :
  String.length s <= n ->
  all_chars is_hex_char s = true ->
  Nat.odd (String.length s) = false ->
  hex_of_bytes (parse_pairs s) = toLowerCase s.
Proof.
  revert s. induction n as [|n IH]; intros s Hn Hall Hodd.
  - destruct s; [reflexivity|cbn in Hn; lia].
  - destruct s as [|a [|b r]]; [reflexivity|discriminate Hodd|].
    cbn [all_chars] in Hall.
    apply andb_prop in Hall as [Ha Hall]. apply andb_prop in Hall as [Hb Hall].
    unfold is_hex_char in Ha, Hb.
    cbn [parse_pairs].
    destruct (nibble_of_char a) as [hi|] eqn:Ea; [|discriminate Ha].
    destruct (nibble_of_char b) as [lo|] eqn:Eb; [|discriminate Hb].
    destruct (hex_char_nibble a hi Ea) as [Hhi Hca].
    destruct (hex_char_nibble b lo Eb) as [Hlo Hcb].
    cbn [hex_of_bytes toLowerCase].
    destruct (hex_of_pair hi lo Hhi Hlo) as [-> ->]. rewrite Hca, Hcb.
    rewrite IH; [reflexivity| |exact Hall|].
    + cbn [String.length] in Hn. lia.
    + cbn [String.length] in Hodd.
      now rewrite !Nat.odd_succ, <- Nat.negb_odd, Nat.odd_succ, Nat.negb_even in Hodd.
Qed.

(** Hex digits read as bytes and written back come out in lower case. *)
Lemma hex_of_bytes_parse_pairs (s : string) :
  all_chars is_hex_char s = true ->
  Nat.odd (String.length s) = false ->
  hex_of_bytes (parse_pairs s) = toLowerCase s.
Proof. apply (hex_of_bytes_parse_pairs_bounded (String.length s)). lia. Qed.

Lemma starts_with_0x_shape (k : string) :
  Address.starts_with_0x k = true ->
  k = String "0" (String "x" (substring_from 2 k)).
Proof.
  destruct k as [|c [|d r]]; [discriminate| |];
    destruct c as [c0 c1 c2 c3 c4 c5 c6 c7];
    destruct c0, c1, c2, c3, c4, c5, c6, c7; try discriminate.
  destruct d as [c0 c1 c2 c3 c4 c5 c6 c7].
  destruct c0, c1, c2, c3, c4, c5, c6, c7; try discriminate.
  reflexivity.
Qed.

Lemma hex_digits_unprefixed (k : string) :
  all_chars is_hex_char k = true -> Address.starts_with_0x k = false.
Proof.
  intros Hall. destruct (Address.starts_with_0x k) eqn:Hpre; [|reflexivity].
  rewrite (starts_with_0x_shape k Hpre) in Hall. discriminate Hall.
Qed.

Lemma isHexString_starts (k : string) :
  isHexString k = true -> Address.starts_with_0x k = true.
Proof.
  intros H. destruct (BytesFacts.isHexString_shape k H) as [-> _]. reflexivity.
Qed.

(** [new ethers.Wallet] on a key of 64 hex digits, with or without its
    prefix: the wallet holds the bytes the digits denote, unless they have
    no public key. *)
Lemma Wallet_new_well_formed (k : string) :
  is_private_key k = true ->
  WalletApi.new k
  = if Curve.has_public_key (parse_pairs (hex_digits k))
    then Ok {| signingKey := parse_pairs (hex_digits k) |}
    else Err TypeError.
Proof.
  unfold is_private_key, WalletApi.new. intros H.
  apply andb_prop in H as [Hlen Hall]. apply Nat.eqb_eq in Hlen.
  assert (Hkey : (if all_chars is_hex_char k && Nat.eqb (String.length k) 64
                  then ("0x" ++ k)%string else k)
                 = String "0" (String "x" (hex_digits k))).
  { unfold hex_digits in *.
    destruct (Address.starts_with_0x k) eqn:Hpre.
    - destruct (all_chars is_hex_char k) eqn:Hk.
      + now rewrite (hex_digits_unprefixed k Hk) in Hpre.
      + cbn [andb]. now apply starts_with_0x_shape.
    - now rewrite Hall, Hlen. }
  rewrite Hkey. unfold hexlify. cbn [isHexString]. rewrite Hall.
  cbn [String.length]. rewrite Hlen. cbn [Nat.odd Nat.even negb].
  change (Nat.odd 66) with false. cbv iota.
  unfold hexDataLength. cbn [toLowerCase String.length].
  rewrite BytesFacts.length_toLowerCase, Hlen.
  change (Nat.eqb (Nat.div (66 - 2) 2) 32) with true. cbv iota.
  change (lower_char "0") with "0"%char. change (lower_char "x") with "x"%char.
  cbn [substring_from]. now rewrite BytesFacts.parse_pairs_toLowerCase.
Qed.

Lemma Wallet_new_accepts (k : string) :
  is_valid_key k = true ->
  WalletApi.new k = Ok {| signingKey := parse_pairs (hex_digits k) |}.
Proof.
  unfold is_valid_key. intros H. apply andb_prop in H as [Hwell Hvalid].
  now rewrite (Wallet_new_well_formed k Hwell), Hvalid.
Qed.

(** Any other string is rejected with an argument error. *)
Lemma Wallet_new_rejects (k : string) :
  is_private_key k = false ->
  exists reason value, WalletApi.new k = Err (ArgumentError reason value).
Proof.
  unfold is_private_key, WalletApi.new. intros H.
  destruct (all_chars is_hex_char k && Nat.eqb (String.length k) 64) eqn:Hbare.
  - apply andb_prop in Hbare as [Hk Hlen].
    unfold hex_digits in H. rewrite (hex_digits_unprefixed k Hk), Hlen, Hk in H.
    discriminate H.
  - unfold hexlify. destruct (isHexString k) eqn:Hhex; [|now eexists _, _].
    destruct (Nat.odd (String.length k)) eqn:Hodd; [now eexists _, _|].
    destruct (Nat.eqb_spec (hexDataLength (toLowerCase k)) 32) as [Hlen|];
      [|now eexists _, _].
    exfalso. unfold hex_digits in H. rewrite (isHexString_starts k Hhex) in H.
    destruct (BytesFacts.isHexString_shape k Hhex) as [Hshape Hall].
    rewrite Hall, andb_true_r in H. apply Nat.eqb_neq in H. apply H.
    unfold hexDataLength in Hlen. rewrite BytesFacts.length_toLowerCase in Hlen.
    rewrite Hshape in Hlen, Hodd. cbn [String.length] in Hlen, Hodd.
    set (d := String.length (substring_from 2 k)) in *.
    replace (S (S d) - 2) with d in Hlen by lia.
    change (Nat.odd (S (S d))) with (Nat.odd d) in Hodd.
    destruct (Nat.Even_or_Odd d) as [[m Hm]|[m Hm]].
    + rewrite Hm in Hlen. rewrite Nat.mul_comm, Nat.div_mul in Hlen by lia. lia.
    + rewrite Hm in Hodd.
      rewrite Nat.add_1_r, Nat.odd_succ, Nat.even_mul in Hodd. discriminate.
Qed.

End KeyFacts.

(** ** The init code *)

Module InitCodeFacts.
Import Bytes Abi.

Lemma length_getSighash {primitives : Primitives} (signature : string) :
  List.length (getSighash signature) = 4.
Proof.
  unfold getSighash. rewrite length_firstn, keccak256_length. reflexivity.
Qed.

Lemma length_createAccount_data {primitives : Primitives} (a1 a2 : string)
  (index : N) :
  List.length (getSighash "createAccount(address,address,uint256)"
                 ++ address_word a1 ++ address_word a2 ++ word index) = 100.
Proof.
  rewrite !length_app, length_getSighash. unfold address_word.
  rewrite !AbiFacts.length_word. reflexivity.
Qed.

Lemma encodeFunctionData_createAccount_Ok_inv {primitives : Primitives}
  (ownerOne ownerTwo : string) (index : JSNumber.number) (data : string) :
  encodeFunctionData_createAccount ownerOne ownerTwo index = Ok data ->
  exists (a1 a2 : string) (n : Z),
    Address.getAddress ownerOne = Ok a1
    /\ Address.getAddress ownerTwo = Ok a2
    /\ JSNumber.integer index = Some n
    /\ (0 <= n < MAX_SAFE)%Z
    /\ data = hexlify_bytes
                (getSighash "createAccount(address,address,uint256)"
                   ++ address_word a1 ++ address_word a2 ++ word (Z.to_N n)).
Proof.
  unfold encodeFunctionData_createAccount, encode_address, rbind.
  destruct (Address.getAddress ownerOne) as [a1|]; [|discriminate].
  destruct (Address.getAddress ownerTwo) as [a2|]; [|discriminate].
  destruct (encode_uint256 index) as [e3|] eqn:H3; [|discriminate].
  destruct (AbiFacts.encode_uint256_Ok_inv _ _ H3) as (n & Hint & Hn & ->).
  intros [= <-]. exists a1, a2, n. rewrite AbiFacts.pack_three_static.
  repeat split; try reflexivity; try exact Hint; lia.
Qed.


(** [hexConcat] of a factory address and call data: the lower-cased
    address followed by the digits of the data, unless the address is not
    hex data. *)
Lemma hexConcat_factory (F : string) (callData : list byte) :
  hexConcat [F; hexlify_bytes callData]
  = if isHexString F then
      if Nat.odd (String.length F)
      then Err (ArgumentError "hex data is odd-length" F)
      else Ok (toLowerCase F ++ hex_of_bytes callData)%string
    else Err (ArgumentError "invalid hexlify value" F).
Proof.
  unfold hexConcat. cbn [hexConcat_from]. unfold hexlify at 1.
  destruct (isHexString F) eqn:Hhex; [|reflexivity].
  destruct (Nat.odd (String.length F)); [reflexivity|].
  rewrite BytesFacts.hexlify_hexlify_bytes.
  destruct (BytesFacts.isHexString_shape F Hhex) as [HF _].
  set (digits := substring_from 2 F) in HF. rewrite HF. reflexivity.
Qed.

Lemma Ok_injective {A} (a b : A) : Ok a = Ok b -> a = b.
Proof. now intros [= ->]. Qed.

Lemma hex_of_bytes_injective (l1 l2 : list byte) :
  hex_of_bytes l1 = hex_of_bytes l2 -> l1 = l2.
Proof.
  intros H. apply (f_equal parse_pairs) in H.
  now rewrite !BytesFacts.parse_pairs_hex_of_bytes in H.
Qed.

Lemma app_inv_length {A} (a1 a2 b1 b2 : list A) :
  List.length a1 = List.length a2 -> a1 ++ b1 = a2 ++ b2 -> a1 = a2 /\ b1 = b2.
Proof.
  revert a2. induction a1 as [|x a1 IH]; intros [|y a2] Hlen H; try discriminate.
  - now split.
  - injection H as -> H. injection Hlen as Hlen.
    destruct (IH a2 Hlen H) as [-> ->]. now split.
Qed.

Lemma append_inv_length (a1 a2 b1 b2 : string) :
  String.length b1 = String.length b2 ->
  (a1 ++ b1 = a2 ++ b2)%string -> a1 = a2 /\ b1 = b2.
Proof.
  intros Hlen. revert a2. induction a1 as [|x a1 IH]; intros [|y a2] H; cbn in H.
  - now split.
  - apply (f_equal String.length) in H. cbn in H.
    rewrite BytesFacts.length_append in H. lia.
  - apply (f_equal String.length) in H. cbn in H.
    rewrite BytesFacts.length_append in H. lia.
  - injection H as -> H. destruct (IH a2 H) as [-> ->]. now split.
Qed.

End InitCodeFacts.

(** ** Words *)

Module WordFacts.
Import Bytes Abi.

Lemma byte_of_to_N (b : byte) : byte_of_N (Byte.to_N b) = b.
Proof. unfold byte_of_N. now rewrite Byte.of_to_N. Qed.

Lemma to_N_lt (b : byte) : (Byte.to_N b < 256)%N.
Proof. pose proof (Byte.to_N_bounded b). lia. Qed.

Lemma be_bytes_N_of_bytes (l : list byte) :
  be_bytes (List.length l) (N_of_bytes l) = l.
Proof.
  induction l as [|b l IH] using rev_ind; [reflexivity|].
  rewrite AbiFacts.N_of_bytes_snoc, length_app. cbn [List.length].
  rewrite Nat.add_1_r. cbn [be_bytes].
  pose proof (to_N_lt b).
  replace ((N_of_bytes l * 256 + Byte.to_N b) / 256)%N with (N_of_bytes l)
    by (rewrite N.div_add_l by lia; rewrite N.div_small by lia; lia).
  replace ((N_of_bytes l * 256 + Byte.to_N b) mod 256)%N with (Byte.to_N b)
    by (rewrite N.add_comm, N.Div0.mod_add; now rewrite N.mod_small).
  now rewrite IH, byte_of_to_N.
Qed.

Lemma N_of_bytes_lt (l : list byte) :
  (N_of_bytes l < 256 ^ N.of_nat (List.length l))%N.
Proof.
  induction l as [|b l IH] using rev_ind; [reflexivity|].
  rewrite AbiFacts.N_of_bytes_snoc, length_app. cbn [List.length].
  rewrite Nat.add_1_r, Nat2N.inj_succ, N.pow_succ_r'.
  pose proof (to_N_lt b). lia.
Qed.

Lemma be_bytes_zero (j : nat) : be_bytes j 0 = repeat x00 j.
Proof.
  induction j as [|j IH]; [reflexivity|].
  cbn [be_bytes]. change (0 / 256)%N with 0%N. rewrite IH.
  change (byte_of_N (0 mod 256)) with x00.
  now rewrite <- repeat_cons.
Qed.

Lemma be_bytes_padded (j k : nat) (n : N) :
  (n < 256 ^ N.of_nat k)%N ->
  be_bytes (j + k) n = repeat x00 j ++ be_bytes k n.
Proof.
  revert n. induction k as [|k IH]; intros n Hn.
  - cbn in Hn. replace n with 0%N by lia. rewrite Nat.add_0_r, be_bytes_zero.
    now rewrite app_nil_r.
  - rewrite Nat.add_succ_r. cbn [be_bytes]. rewrite IH, app_assoc; [reflexivity|].
    rewrite Nat2N.inj_succ, N.pow_succ_r' in Hn.
    apply N.Div0.div_lt_upper_bound. lia.
Qed.

(** A number of 20 bytes is written as twelve zero bytes and the bytes. *)
Lemma word_of_address_bytes (l : list byte) :
  List.length l = 20 -> word (N_of_bytes l) = repeat x00 12 ++ l.
Proof.
  intros Hlen. unfold word. change 32 with (12 + 20).
  rewrite be_bytes_padded by (rewrite <- Hlen; apply N_of_bytes_lt).
  now rewrite <- Hlen, be_bytes_N_of_bytes.
Qed.

Lemma parse_pairs_checksum_chars (chars : string) (hashed : list byte) :
  parse_pairs (Address.checksum_chars chars hashed) = parse_pairs chars.
Proof.
  rewrite <- (BytesFacts.parse_pairs_toLowerCase (Address.checksum_chars _ _)).
  rewrite AddressFacts.toLowerCase_checksum_chars.
  apply BytesFacts.parse_pairs_toLowerCase.
Qed.

(** The word an accepted hex address is written as: twelve zero bytes,
    then the twenty bytes its digits denote, whatever their case and
    whether or not the prefix is there. *)
Lemma address_word_getAddress {primitives : Primitives} (a checked : string) :
  Address.matches_hex_address a = true ->
  Address.getAddress a = Ok checked ->
  address_word checked = repeat x00 12 ++ parse_pairs (hex_digits a)
  /\ List.length (parse_pairs (hex_digits a)) = 20.
Proof.
  unfold Address.getAddress, Address.matches_hex_address, hex_digits.
  intros Hmatch. rewrite Hmatch.
  apply andb_prop in Hmatch as [Hlen Hall]. apply Nat.eqb_eq in Hlen.
  set (digits := if Address.starts_with_0x a then substring_from 2 a else a) in *.
  assert (Hprefixed : (if Address.starts_with_0x a then a else ("0x" ++ a)%string)
                      = String "0" (String "x" digits)).
  { unfold digits. destruct (Address.starts_with_0x a) eqn:Hpre; [|reflexivity].
    now apply KeyFacts.starts_with_0x_shape. }
  rewrite Hprefixed.
  assert (Hbytes : List.length (parse_pairs digits) = 20).
  { rewrite (BytesFacts.length_parse_pairs _ Hall), Hlen. reflexivity. }
  destruct (Address.is_mixed_case _ && _); [discriminate|].
  intros [= <-]. split; [|exact Hbytes].
  unfold address_word. rewrite AddressFacts.getChecksumAddress_prefixed.
  cbn [substring_from]. rewrite parse_pairs_checksum_chars.
  rewrite BytesFacts.parse_pairs_toLowerCase.
  now apply word_of_address_bytes.
Qed.

(** The word of a wallet's address: the last twenty bytes of the hash of
    its public key. *)
Lemma address_word_wallet {primitives : Primitives} (wallet : Wallet) :
  address_word (WalletApi.getAddress wallet)
  = repeat x00 12
      ++ skipn 12 (keccak256 (tl (computePublicKey (signingKey wallet)))).
Proof.
  unfold WalletApi.getAddress, WalletApi.computeAddress, address_word.
  unfold hexlify_bytes. rewrite AddressFacts.getChecksumAddress_prefixed.
  cbn [substring_from]. rewrite parse_pairs_checksum_chars.
  rewrite BytesFacts.parse_pairs_toLowerCase, BytesFacts.parse_pairs_hex_of_bytes.
  apply word_of_address_bytes, AddressFacts.address_bytes_length.
Qed.

Lemma word_zero : word 0 = repeat x00 32.
Proof. apply be_bytes_zero. Qed.

Lemma length_writeBytes_words (value : list byte) :
  Nat.modulo (List.length (writeBytes value)) 32 = 0.
Proof.
  unfold writeBytes.
  destruct (Nat.eqb_spec (Nat.modulo (List.length value) 32) 0) as [H|H]; [exact H|].
  rewrite length_app, repeat_length.
  pose proof (Nat.div_mod_eq (List.length value) 32) as E.
  pose proof (Nat.mod_upper_bound (List.length value) 32 ltac:(lia)) as Hr.
  set (r := Nat.modulo (List.length value) 32) in *.
  set (q := Nat.div (List.length value) 32) in *.
  replace (List.length value + (32 - r)) with ((q + 1) * 32) by lia.
  apply Nat.Div0.mod_mul.
Qed.

Lemma writeBytes_65 (value : list byte) :
  List.length value = 65 -> writeBytes value = value ++ repeat x00 31.
Proof. intros H. unfold writeBytes. now rewrite H. Qed.

End WordFacts.

(** ** Messages *)

Module SigningFacts.
Import Bytes.

(** A hex digit is a code unit below 0x80. *)
Lemma hex_char_unit (c : ascii) :
  is_hex_char c = true -> (N_of_ascii c <? 0x80)%N = true.
Proof.
  destruct c as [b0 b1 b2 b3 b4 b5 b6 b7].
  destruct b7; [destruct b0, b1, b2, b3, b4, b5, b6; discriminate|].
  intros _. destruct b0, b1, b2, b3, b4, b5, b6; reflexivity.
Qed.

(** Hex digits are encoded in one byte each. *)
Lemma length_toUtf8Bytes_digits (s : string) :
  all_chars is_hex_char s = true ->
  List.length (toUtf8Bytes s) = String.length s.
Proof.
  unfold toUtf8Bytes. induction s as [|c s IH]; [reflexivity|].
  cbn [all_chars]. intros H. apply andb_prop in H as [Hc Hs].
  cbn [list_ascii_of_string flat_map String.length]. rewrite length_app, (IH Hs).
  unfold utf8_of_char. cbv zeta. now rewrite (hex_char_unit c Hc).
Qed.

Lemma length_toUtf8Bytes (value : string) :
  isHexString value = true ->
  List.length (toUtf8Bytes value) = String.length value.
Proof.
  intros Hhex. destruct (BytesFacts.isHexString_shape value Hhex) as [E Hall].
  rewrite E. pose proof (length_toUtf8Bytes_digits _ Hall) as H.
  unfold toUtf8Bytes in *. cbn [list_ascii_of_string flat_map String.length].
  rewrite !length_app, H. reflexivity.
Qed.

Lemma even_length_hex (value : string) :
  isHexString value = true ->
  Nat.odd (String.length (substring_from 2 value))
  = negb (Nat.even (String.length value)).
Proof.
  intros H. destruct (BytesFacts.isHexString_shape value H) as [E _].
  rewrite E at 2. cbn [String.length].
  change (Nat.even (S (S ?n))) with (Nat.even n).
  now rewrite Nat.negb_even.
Qed.

(** [arrayify] returns exactly on hex data of whole bytes, and otherwise
    throws an argument error that carries its argument. *)
Lemma arrayify_returns_iff (value : string) :
  ((exists l, arrayify value = Ok l)
   <-> isHexString value = true /\ Nat.even (String.length value) = true)
  /\ (forall e, arrayify value = Err e ->
        exists reason, e = ArgumentError reason value).
Proof.
  unfold arrayify. destruct (isHexString value) eqn:Hhex.
  - rewrite (even_length_hex value Hhex).
    destruct (Nat.even (String.length value)); cbn [negb]; split.
    + split; [now intros _|intros _; now eexists].
    + discriminate.
    + split; [intros [l [=]]|intros [_ [=]]].
    + intros e [= <-]. now eexists.
  - split.
    + split; [intros [l [=]]|intros [[=] _]].
    + intros e [= <-]. now eexists.
Qed.

(** Hex data of [n] bytes has [2 + 2 * n] characters. *)
Lemma hex_length_of_bytes (value : string) (l : list byte) :
  arrayify value = Ok l -> String.length value = 2 + 2 * List.length l.
Proof.
  intros H. destruct (BytesFacts.arrayify_Ok value l H) as (Hhex & Hodd & ->).
  destruct (BytesFacts.isHexString_shape value Hhex) as [E Hall].
  rewrite (BytesFacts.length_parse_pairs _ Hall). rewrite E at 1. cbn [String.length].
  set (n := String.length (substring_from 2 value)) in *.
  destruct (Nat.Even_or_Odd n) as [[m Hm]|[m Hm]].
  - rewrite Hm at 2. rewrite (Nat.mul_comm 2 m), Nat.div_mul by lia. lia.
  - rewrite Hm, Nat.add_1_r, Nat.odd_succ, Nat.even_mul in Hodd. discriminate.
Qed.

End SigningFacts.

(** *** Text to sign *)

Module TextFacts.
Import Bytes.

(** A character is a code unit below 0x100. *)
Lemma N_of_ascii_unit (c : ascii) : (N_of_ascii c <? 0x800)%N = true.
Proof.
  apply N.ltb_lt. pose proof (N_ascii_bounded c) as H. lia.
Qed.

(** The two encoders agree on the strings that both take. *)
Lemma toUtf8Bytes_of_ascii (s : string) :
  JSString.toUtf8Bytes (JSString.of_ascii s) = Ok (toUtf8Bytes s).
Proof.
  unfold JSString.of_ascii, toUtf8Bytes.
  induction s as [|c s IH]; [reflexivity|].
  cbn [list_ascii_of_string map flat_map JSString.toUtf8Bytes].
  rewrite IH, (N_of_ascii_unit c). unfold utf8_of_char. cbv zeta.
  destruct (N_of_ascii c <? 128)%N; reflexivity.
Qed.

(** What the encoder throws. *)
Lemma toUtf8Bytes_error (str : JSString.t) (e : exn) :
  JSString.toUtf8Bytes str = Err e -> e = Error "invalid utf-8 string".
Proof.
  remember (List.length str) as n eqn:Hn. revert str Hn e.
  induction n as [n IH] using lt_wf_ind. intros str Hn e.
  destruct str as [|c rest]; [discriminate|].
  cbn [JSString.toUtf8Bytes]. cbn [List.length] in Hn.
  assert (Hrest : forall r : result (list byte),
            (exists f, r = (x <-? JSString.toUtf8Bytes rest ;; Ok (f x))%res) ->
            r = Err e -> e = Error "invalid utf-8 string").
  { intros r [f ->].
    destruct (JSString.toUtf8Bytes rest) as [x|e'] eqn:H; [discriminate|].
    intros [= <-].
    apply (IH (List.length rest)) with (str := rest); [lia|reflexivity|exact H]. }
  destruct (c <? 128)%N.
  { apply Hrest. now eexists (fun r => _ :: r). }
  destruct (c <? 2048)%N.
  { apply Hrest. now eexists (fun r => _ :: _ :: r). }
  destruct (N.land c 64512 =? 55296)%N.
  - destruct rest as [|c2 rest']; [now intros [= <-]|].
    destruct (N.land c2 64512 =? 56320)%N; [|now intros [= <-]].
    destruct (JSString.toUtf8Bytes rest') as [x|e'] eqn:H; [discriminate|].
    intros [= <-].
    apply (IH (List.length rest')) with (str := rest');
      [cbn [List.length] in Hn; lia|reflexivity|exact H].
  - apply Hrest. now eexists (fun r => _ :: _ :: _ :: r).
Qed.

End TextFacts.

(** ** The adapter *)

Section AdapterFacts.
Context {Base BaseApiParams Details : Type}.
Context {primitives : Primitives} {api : BaseAccountAPI Base BaseApiParams Details}.

Ltac run :=
  unfold bind, ret, from_result, throw, get_this, modify_this, inherited, alloc,
    deref, assign;
  cbn [this heap fst snd].

Lemma nth_error_alloc (l : list UserOperationStruct) (o : UserOperationStruct) :
  nth_error (l ++ [o]) (List.length l) = Some o.
Proof. induction l as [|x l IH]; [reflexivity|exact IH]. Qed.

Lemma nth_error_kept (l : list UserOperationStruct) (o : UserOperationStruct) (r : ref) :
  r < List.length l -> nth_error (l ++ [o]) r = nth_error l r.
Proof. intros Hr. now apply nth_error_app1. Qed.

(** The local owner's signature is hex data denoting its bytes. *)
Lemma arrayify_signMessage (wallet : Wallet) (message : BytesOrString) :
  Bytes.arrayify (WalletApi.signMessage wallet message)
  = Ok (WalletApi.signature_bytes wallet message).
Proof. apply BytesFacts.arrayify_hexlify_bytes. Qed.

(** What [signUserOpWithContext] does once the hash is known. *)
Lemma signUserOpWithContext_run (w : World Base) (userOp : ref)
  (context : SigningContext) (op : UserOperationStruct) :
  nth_error (heap w) userOp = Some op ->
  signUserOpWithContext userOp context w
  = match getUserOpHash op (this w) with
    | (Ok userOpHash, t') =>
        match Bytes.arrayify userOpHash with
        | Ok hash =>
            match Abi.encode_bytes_bytes
                    (WalletApi.signMessage (ownerOne t') (Arr hash))
                    (signedMessage context) with
            | Ok encoded =>
                (Ok (List.length (heap w)),
                 {| this := t'; heap := heap w ++ [with_signature op encoded] |})
            | Err e => (Err e, {| this := t'; heap := heap w |})
            end
        | Err e => (Err e, {| this := t'; heap := heap w |})
        end
    | (Err e, t') => (Err e, {| this := t'; heap := heap w |})
    end.
Proof.
  intros Hop. unfold signUserOpWithContext, signOwnerOne. run. rewrite Hop.
  destruct (getUserOpHash op (this w)) as [[userOpHash|e] t']; [|reflexivity].
  cbn [this heap].
  destruct (Bytes.arrayify userOpHash) as [hash|e]; [|reflexivity].
  destruct (Abi.encode_bytes_bytes _ _); reflexivity.
Qed.

(** C1. [signUserOpWithContext(userOp, context)], for an operation whose
    authorization hash the base class yields and a [signedMessage] that is
    byte data, returns a new operation: its [signature] field is the hex
    data of the ABI encoding of the pair (the local owner's signed-message
    signature over the hash, [signedMessage]), which (for byte strings of
    a length a word can hold) decodes as [(bytes, bytes)] to these two in
    that order; each of its other ten fields is the input's; the input
    operation, and every other object, is as before. *)
Theorem signUserOpWithContext_assembles (w : World Base) (userOp : ref)
  (context : SigningContext) (op : UserOperationStruct) (userOpHash : string)
  (t' : TwoOwnerAccountAPI Base) (hash second : list byte) :
  nth_error (heap w) userOp = Some op ->
  getUserOpHash op (this w) = (Ok userOpHash, t') ->
  Bytes.arrayify userOpHash = Ok hash ->
  Bytes.arrayify (signedMessage context) = Ok second ->
  exists (returned : ref) (w' : World Base) (signed : UserOperationStruct)
         (sig : string),
    signUserOpWithContext userOp context w = (Ok returned, w')
    /\ nth_error (heap w') returned = Some signed
    /\ signature signed = Value sig
    /\ sig = Bytes.hexlify_bytes
               (Abi.tuple_bytes_bytes
                  (WalletApi.signature_bytes (ownerOne t') (Arr hash)) second)
    /\ Bytes.arrayify sig
       = Ok (Abi.tuple_bytes_bytes
               (WalletApi.signature_bytes (ownerOne t') (Arr hash)) second)
    /\ ((N.of_nat (List.length (WalletApi.signature_bytes (ownerOne t') (Arr hash)))
         + N.of_nat (List.length second) + 192 < 2 ^ 256)%N ->
        Abi.decode_bytes_bytes
          (Abi.tuple_bytes_bytes
             (WalletApi.signature_bytes (ownerOne t') (Arr hash)) second)
        = Some (WalletApi.signature_bytes (ownerOne t') (Arr hash), second))
    /\ (sender signed = sender op
        /\ nonce signed = nonce op
        /\ initCode signed = initCode op
        /\ callData signed = callData op
        /\ callGasLimit signed = callGasLimit op
        /\ verificationGasLimit signed = verificationGasLimit op
        /\ preVerificationGas signed = preVerificationGas op
        /\ maxFeePerGas signed = maxFeePerGas op
        /\ maxPriorityFeePerGas signed = maxPriorityFeePerGas op
        /\ paymasterAndData signed = paymasterAndData op)
    /\ returned <> userOp
    /\ nth_error (heap w') userOp = Some op
    /\ (forall r, r < List.length (heap w) ->
                  nth_error (heap w') r = nth_error (heap w) r).
Proof.
  intros Hop Hhash Harr Hsecond.
  set (local := WalletApi.signature_bytes (ownerOne t') (Arr hash)) in *.
  assert (Hlive : userOp < List.length (heap w)).
  { apply nth_error_Some. rewrite Hop. discriminate. }
  exists (List.length (heap w)),
    {| this := t';
       heap := heap w ++ [with_signature op
                            (Bytes.hexlify_bytes (Abi.tuple_bytes_bytes local second))] |},
    (with_signature op (Bytes.hexlify_bytes (Abi.tuple_bytes_bytes local second))),
    (Bytes.hexlify_bytes (Abi.tuple_bytes_bytes local second)).
  split; [|split; [|split; [|split; [|split; [|split; [|split; [|split; [|split]]]]]]]].
  - rewrite (signUserOpWithContext_run w userOp context op Hop), Hhash, Harr.
    rewrite (AbiFacts.encode_bytes_bytes_Ok _ _ local second
               (arrayify_signMessage _ _) Hsecond).
    reflexivity.
  - apply nth_error_alloc.
  - reflexivity.
  - reflexivity.
  - apply BytesFacts.arrayify_hexlify_bytes.
  - apply AbiFacts.decode_pack_bytes_bytes.
  - destruct op. repeat split.
  - lia.
  - cbn [heap]. rewrite nth_error_kept by exact Hlive. exact Hop.
  - intros r Hr. cbn [heap]. now apply nth_error_kept.
Qed.

(** The new operation differs from the input in its signature only. *)
Lemma with_signature_fields (op : UserOperationStruct) (sig : string) :
  sender (with_signature op sig) = sender op
  /\ nonce (with_signature op sig) = nonce op
  /\ initCode (with_signature op sig) = initCode op
  /\ callData (with_signature op sig) = callData op
  /\ callGasLimit (with_signature op sig) = callGasLimit op
  /\ verificationGasLimit (with_signature op sig) = verificationGasLimit op
  /\ preVerificationGas (with_signature op sig) = preVerificationGas op
  /\ maxFeePerGas (with_signature op sig) = maxFeePerGas op
  /\ maxPriorityFeePerGas (with_signature op sig) = maxPriorityFeePerGas op
  /\ paymasterAndData (with_signature op sig) = paymasterAndData op
  /\ signature (with_signature op sig) = Value sig.
Proof. repeat split. Qed.

(** The hash [getUserOpHashToSign] exposes is the base class's. *)
Lemma getUserOpHashToSign_run (w : World Base) (userOp : ref)
  (op : UserOperationStruct) :
  nth_error (heap w) userOp = Some op ->
  getUserOpHashToSign userOp w
  = (fst (getUserOpHash op (this w)),
     {| this := snd (getUserOpHash op (this w)); heap := heap w |}).
Proof.
  intros Hop. unfold getUserOpHashToSign. run. rewrite Hop.
  destruct (getUserOpHash op (this w)); reflexivity.
Qed.

Lemma deref_fails (w : World Base) (userOp : ref) :
  nth_error (heap w) userOp = None ->
  (forall context, fst (signUserOpWithContext userOp context w)
                   = Err (Rejected "no such object"))
  /\ fst (getUserOpHashToSign userOp w) = Err (Rejected "no such object").
Proof.
  intros Hop. split; [intros context|];
    unfold signUserOpWithContext, getUserOpHashToSign; run; now rewrite Hop.
Qed.

(** A failure to compute the hash is the failure of both methods. *)
Lemma getUserOpHashToSign_failure_shared (w w1 : World Base) (userOp : ref)
  (context : SigningContext) (e : exn) :
  getUserOpHashToSign userOp w = (Err e, w1) ->
  signUserOpWithContext userOp context w = (Err e, w1).
Proof.
  intros Hhash.
  destruct (nth_error (heap w) userOp) as [op|] eqn:Hop.
  - rewrite (getUserOpHashToSign_run w userOp op Hop) in Hhash.
    rewrite (signUserOpWithContext_run w userOp context op Hop).
    destruct (getUserOpHash op (this w)) as [[h|e'] t']; cbn [fst snd] in Hhash;
      [discriminate|].
    injection Hhash as -> <-. reflexivity.
  - revert Hhash. unfold signUserOpWithContext, getUserOpHashToSign. run.
    rewrite Hop. intros [= <- <-]. reflexivity.
Qed.

(** C2. The hash [getUserOpHashToSign(userOp)] returns is the hash over
    which [signUserOpWithContext] has the local owner sign for the same
    [userOp]: whenever both return, the [signature] field of the operation
    that [signUserOpWithContext] returns is the hex data of the encoding of
    the local signature over exactly the returned hash, and of
    [signedMessage]. *)
Theorem getUserOpHashToSign_is_the_signed_hash (w w1 w2 : World Base)
  (userOp returned : ref) (context : SigningContext) (userOpHash : string) :
  getUserOpHashToSign userOp w = (Ok userOpHash, w1) ->
  signUserOpWithContext userOp context w = (Ok returned, w2) ->
  exists (op signed : UserOperationStruct) (hash second : list byte),
    nth_error (heap w) userOp = Some op
    /\ getUserOpHash op (this w) = (Ok userOpHash, this w1)
    /\ Bytes.arrayify userOpHash = Ok hash
    /\ Bytes.arrayify (signedMessage context) = Ok second
    /\ nth_error (heap w2) returned = Some signed
    /\ signature signed
       = Value (Bytes.hexlify_bytes
                  (Abi.tuple_bytes_bytes
                     (WalletApi.signature_bytes (ownerOne (this w1)) (Arr hash))
                     second))
    /\ WalletApi.signature_bytes (ownerOne (this w1)) (Arr hash)
       = signDigest (signingKey (ownerOne (this w1)))
           (WalletApi.hashMessage (Arr hash)).
Proof.
  intros Hhash Hsign.
  destruct (nth_error (heap w) userOp) as [op|] eqn:Hop.
  2:{ destruct (deref_fails w userOp Hop) as [_ Hfail].
      rewrite Hhash in Hfail. discriminate Hfail. }
  rewrite (getUserOpHashToSign_run w userOp op Hop) in Hhash.
  rewrite (signUserOpWithContext_run w userOp context op Hop) in Hsign.
  destruct (getUserOpHash op (this w)) as [[h|e] t'] eqn:Hbase;
    cbn [fst snd] in Hhash; [|discriminate].
  injection Hhash as -> <-. cbn [this].
  destruct (Bytes.arrayify userOpHash) as [hash|] eqn:Harr; [|discriminate].
  destruct (Abi.encode_bytes_bytes _ _) as [encoded|] eqn:Henc; [|discriminate].
  injection Hsign as <- <-.
  destruct (AbiFacts.encode_bytes_bytes_Ok_inv _ _ _ Henc)
    as (local & second & Hlocal & Hsecond & ->).
  rewrite arrayify_signMessage in Hlocal. injection Hlocal as <-.
  exists op, (with_signature op
                (Bytes.hexlify_bytes
                   (Abi.tuple_bytes_bytes
                      (WalletApi.signature_bytes (ownerOne t') (Arr hash)) second))),
    hash, second.
  repeat split; try assumption.
  cbn [heap]. apply nth_error_alloc.
Qed.

(** C8. Two invocations of [signUserOpWithContext] on the same operation
    and the same [signedMessage], by instances holding the same local key
    and for which the base class computes the same hash, return the same
    signature field, whatever else differs between the two states. *)
Theorem signUserOpWithContext_deterministic (w1 w2 w1' w2' : World Base)
  (userOp1 userOp2 returned1 returned2 : ref) (context : SigningContext)
  (op : UserOperationStruct) :
  nth_error (heap w1) userOp1 = Some op ->
  nth_error (heap w2) userOp2 = Some op ->
  fst (getUserOpHash op (this w1)) = fst (getUserOpHash op (this w2)) ->
  signUserOpWithContext userOp1 context w1 = (Ok returned1, w1') ->
  signUserOpWithContext userOp2 context w2 = (Ok returned2, w2') ->
  ownerOne (this w1') = ownerOne (this w2') ->
  exists sig : string,
    option_map signature (nth_error (heap w1') returned1) = Some (Value sig)
    /\ option_map signature (nth_error (heap w2') returned2) = Some (Value sig).
Proof.
  intros Hop1 Hop2 Hsame Hrun1 Hrun2 Hkey.
  rewrite (signUserOpWithContext_run w1 userOp1 context op Hop1) in Hrun1.
  rewrite (signUserOpWithContext_run w2 userOp2 context op Hop2) in Hrun2.
  destruct (getUserOpHash op (this w1)) as [[h1|] t1]; [|discriminate].
  destruct (getUserOpHash op (this w2)) as [[h2|] t2]; [|discriminate].
  cbn [fst] in Hsame. injection Hsame as <-.
  destruct (Bytes.arrayify h1) as [hash|]; [|discriminate].
  destruct (Abi.encode_bytes_bytes
              (WalletApi.signMessage (ownerOne t1) (Arr hash)) (signedMessage context))
    as [sig1|] eqn:Henc1; [|discriminate].
  destruct (Abi.encode_bytes_bytes
              (WalletApi.signMessage (ownerOne t2) (Arr hash)) (signedMessage context))
    as [sig2|] eqn:Henc2; [|discriminate].
  injection Hrun1 as <- <-. injection Hrun2 as <- <-.
  cbn [this] in Hkey. rewrite Hkey, Henc2 in Henc1. injection Henc1 as <-.
  exists sig2. cbn [heap]. rewrite !nth_error_alloc. split; reflexivity.
Qed.

(** The two ways [_getAccountContract] yields the binding. *)
Lemma _getAccountContract_run (w : World Base) :
  _getAccountContract w
  = match accountContract (this w) with
    | Some c => (Ok c, w)
    | None =>
        match getAccountAddress (this w) with
        | (Ok a, t') =>
            (Ok (connect a),
             {| this := set_accountContract (connect a) t'; heap := heap w |})
        | (Err e, t') => (Err e, {| this := t'; heap := heap w |})
        end
    end.
Proof.
  unfold _getAccountContract. run.
  destruct (accountContract (this w)); [reflexivity|].
  destruct (getAccountAddress (this w)) as [[a|e] t']; reflexivity.
Qed.


(** [getAccountInitCode], by whether a factory address is resolvable. *)
Lemma getAccountInitCode_run (w : World Base) :
  getAccountInitCode w
  = match resolvable_factory (this w) with
    | None => (Err (Error "no factory to get initCode"), w)
    | Some F =>
        let w' :=
          {| this := match factory (this w) with
                     | Some _ => this w
                     | None => set_factory (connect F) (this w)
                     end;
             heap := heap w |} in
        match Abi.encodeFunctionData_createAccount
                (WalletApi.getAddress (ownerOne (this w)))
                (ownerTwo (this w)) (index (this w)) with
        | Ok data => (Bytes.hexConcat [F; data], w')
        | Err e => (Err e, w')
        end
    end.
Proof.
  destruct w as [t objects].
  unfold getAccountInitCode, resolvable_factory. run.
  destruct (factory t) as [f|] eqn:Hf.
  - cbn [this heap]. destruct (Abi.encodeFunctionData_createAccount _ _ _); reflexivity.
  - destruct (factoryAddress t) as [a|]; [|reflexivity].
    destruct (String.eqb a ""); [reflexivity|].
    cbn [negb this heap set_factory ownerOne ownerTwo index address connect].
    destruct (Abi.encodeFunctionData_createAccount _ _ _); reflexivity.
Qed.

(** C3. With a resolvable factory address that is hex data, a second
    owner that is an address, and an index that is an integer [n] with
    [0 <= n < 2^53 - 1], [getAccountInitCode] returns hex data whose bytes
    are those of the factory address followed by the call data of
    [createAccount(ownerOne, ownerTwo, index)] (selector, then a word per
    argument), so the factory address is a prefix; with no resolvable
    factory address it throws [Error('no factory to get initCode')]. *)
Theorem getAccountInitCode_layout (w : World Base) :
  (forall (F a2 : string) (factoryBytes : list byte) (n : Z),
      resolvable_factory (this w) = Some F ->
      Bytes.arrayify F = Ok factoryBytes ->
      Address.getAddress (ownerTwo (this w)) = Ok a2 ->
      JSNumber.integer (index (this w)) = Some n ->
      (0 <= n < Abi.MAX_SAFE)%Z ->
      exists (code : string) (w' : World Base),
        getAccountInitCode w = (Ok code, w')
        /\ Bytes.arrayify code
           = Ok (factoryBytes
                   ++ Abi.getSighash "createAccount(address,address,uint256)"
                   ++ Abi.address_word (WalletApi.getAddress (ownerOne (this w)))
                   ++ Abi.address_word a2
                   ++ Abi.word (Z.to_N n))
        /\ firstn (List.length factoryBytes)
             (factoryBytes
                ++ Abi.getSighash "createAccount(address,address,uint256)"
                ++ Abi.address_word (WalletApi.getAddress (ownerOne (this w)))
                ++ Abi.address_word a2
                ++ Abi.word (Z.to_N n))
           = factoryBytes)
  /\ (resolvable_factory (this w) = None ->
      getAccountInitCode w = (Err (Error "no factory to get initCode"), w)).
Proof.
  split.
  - intros F a2 factoryBytes n Hfactory HF H2 Hint Hindex.
    rewrite getAccountInitCode_run, Hfactory.
    rewrite (AbiFacts.encodeFunctionData_createAccount_Ok _ _ _ _ a2 n
               (AddressFacts.getAddress_wallet _) H2 Hint Hindex).
    cbv zeta.
    set (callData := Abi.getSighash "createAccount(address,address,uint256)"
                       ++ Abi.address_word (WalletApi.getAddress (ownerOne (this w)))
                       ++ Abi.address_word a2
                       ++ Abi.word (Z.to_N n)).
    destruct (BytesFacts.arrayify_hexConcat F (Bytes.hexlify_bytes callData)
                factoryBytes callData HF
                (BytesFacts.arrayify_hexlify_bytes callData))
      as (code & Hcode & Hbytes).
    rewrite Hcode. eexists code, _. split; [reflexivity|]. split; [exact Hbytes|].
    apply AbiFacts.firstn_length_app.
  - intros Hnone. now rewrite getAccountInitCode_run, Hnone.
Qed.

Lemma FACTORY_ADDRESS_nonempty (Config : ExConfig) :
  String.eqb (FACTORY_ADDRESS Config) "" = false.
Proof.
  unfold FACTORY_ADDRESS, or_else, cond.
  destruct (factory_address Config) as [a|]; [|reflexivity].
  destruct (String.eqb a "") eqn:Ha; [reflexivity|exact Ha].
Qed.

(** What the constructor leaves in the fields it does not draw from its
    parameters. *)
Lemma constructor_fields (Config : ExConfig)
  (params : AccountApiParamsType BaseApiParams) (random : nat -> byte)
  (I : TwoOwnerAccountAPI Base) :
  constructor Config params random = Ok I ->
  factoryAddress I = Some (FACTORY_ADDRESS Config)
  /\ index I = JSNumber.of_Z 0 /\ factory I = None /\ accountContract I = None
  /\ super I = base_constructor params.
Proof.
  unfold constructor. destruct (cond _ _ _); [|discriminate].
  intros [= <-]. repeat split.
Qed.

(** C9. An instance built by the constructor has [FACTORY_ADDRESS], a
    non-empty string, as its factory address; as long as that field is the
    one the constructor set, [getAccountInitCode] does not throw
    [Error('no factory to get initCode')]. *)
Theorem getAccountInitCode_never_lacks_a_factory (Config : ExConfig)
  (params : AccountApiParamsType BaseApiParams) (random : nat -> byte)
  (I : TwoOwnerAccountAPI Base) (w : World Base) :
  constructor Config params random = Ok I ->
  factoryAddress (this w) = factoryAddress I ->
  FACTORY_ADDRESS Config <> ""
  /\ resolvable_factory I = Some (FACTORY_ADDRESS Config)
  /\ fst (getAccountInitCode w) <> Err (Error "no factory to get initCode").
Proof.
  intros Hnew Hsame.
  destruct (constructor_fields Config params random I Hnew) as (Hfa & _ & Hf & _).
  pose proof (FACTORY_ADDRESS_nonempty Config) as Hne.
  split; [|split].
  - intros E. rewrite E in Hne. discriminate Hne.
  - unfold resolvable_factory. now rewrite Hf, Hfa, Hne.
  - rewrite getAccountInitCode_run.
    assert (Hres : resolvable_factory (this w) <> None).
    { unfold resolvable_factory. destruct (factory (this w)); [discriminate|].
      rewrite Hsame, Hfa, Hne. discriminate. }
    destruct (resolvable_factory (this w)) as [F|]; [|contradiction].
    cbv zeta.
    destruct (Abi.encodeFunctionData_createAccount _ _ _) as [data|e] eqn:Hdata.
    + cbn [fst]. destruct (Bytes.hexConcat [F; data]) as [code|e] eqn:Hcode;
        [discriminate|].
      destruct (BytesFacts.hexConcat_from_error _ _ _ Hcode) as (reason & v & ->).
      discriminate.
    + cbn [fst].
      destruct (AbiFacts.encodeFunctionData_createAccount_error _ _ _ _ Hdata)
        as [(reason & v & ->)|(fault & ->)]; discriminate.
Qed.

(** C7. With the second-owner address unset (the empty string),
    [getAccountInitCode] produces no initCode: the empty string is passed
    as it is to the encoder of [createAccount], which rejects it, and the
    adapter substitutes nothing for it; whenever a factory is resolvable,
    the call throws the address coder's argument error for the empty
    string, whose reason is the message of the ['invalid address'] error
    that [getAddress] throws for it. *)
Theorem getAccountInitCode_unset_second_owner (w : World Base) :
  ownerTwo (this w) = "" ->
  (forall code : string, fst (getAccountInitCode w) <> Ok code)
  /\ (forall F : string,
        resolvable_factory (this w) = Some F ->
        Address.getAddress "" = Err (ArgumentError "invalid address" "")
        /\ fst (getAccountInitCode w)
           = Err (ArgumentError
                    (errorMessage (ArgumentError "invalid address" "")) "")).
Proof.
  intros Hunset. rewrite getAccountInitCode_run, Hunset.
  rewrite AbiFacts.encodeFunctionData_createAccount_empty.
  rewrite AddressFacts.getAddress_wallet. split.
  - intros code. destruct (resolvable_factory (this w)); discriminate.
  - intros F ->. split; reflexivity.
Qed.

(** The constructor accepts parameters that name no second owner. *)
Lemma constructor_unset_second_owner (Config : ExConfig) (base : BaseApiParams)
  (random : nat -> byte) :
  exists I,
    constructor Config
      {| baseParams := base; context := None; deserializeState := None |} random
    = Ok I
    /\ ownerTwo I = "".
Proof. eexists. split; reflexivity. Qed.

(** C10. [signMessage] with no request, or with a request that has no
    [rawSigningData], returns the local owner's signed-message signature
    over the empty byte string, whose digest is the hash of the message
    prefix followed by the length ["0"]. *)
Theorem signMessage_without_data {Any : Type} (context : Any)
  (request : option MessageSigningRequest) (w : World Base) :
  request = None \/ (exists r, request = Some r /\ rawSigningData r = None) ->
  signMessage context request w
  = (Ok (WalletApi.signMessage (ownerOne (this w)) (Arr [])), w)
  /\ WalletApi.signMessage (ownerOne (this w)) (Arr [])
     = Bytes.hexlify_bytes
         (signDigest (signingKey (ownerOne (this w)))
            (keccak256 (Bytes.toUtf8Bytes WalletApi.messagePrefix
                          ++ Bytes.toUtf8Bytes "0"))).
Proof.
  intros Habsent. split.
  - unfold signMessage. run.
    destruct Habsent as [->|(r & -> & ->)]; reflexivity.
  - unfold WalletApi.signMessage, WalletApi.signature_bytes, WalletApi.hashMessage.
    cbn [WalletApi.message_bytes List.length]. now rewrite app_nil_r.
Qed.

Lemma update_alloc (l : list UserOperationStruct) (o o' : UserOperationStruct) :
  update (l ++ [o]) (List.length l) o' = l ++ [o'].
Proof. induction l as [|x l IH]; cbn; [reflexivity|now rewrite IH]. Qed.

(** [createUnsignedUserOp], by what the generic builder returns. *)
Lemma createUnsignedUserOp_run (info : Details) (w : World Base) :
  createUnsignedUserOp info w
  = match base_createUnsignedUserOp info (this w) with
    | (Ok built, t') =>
        match await (preVerificationGas built) with
        | Ok value =>
            (Ok (List.length (heap w)),
             {| this := t';
                heap := heap w
                          ++ [with_preVerificationGas built
                                (JSNumber.mul (Number value) JSNumber.two_and_a_half)] |})
        | Err e => (Err e, {| this := t'; heap := heap w ++ [built] |})
        end
    | (Err e, t') => (Err e, {| this := t'; heap := heap w |})
    end.
Proof.
  unfold createUnsignedUserOp. run.
  destruct (base_createUnsignedUserOp info (this w)) as [[built|e] t'];
    [|reflexivity].
  cbn [this heap]. rewrite nth_error_alloc.
  destruct (await (preVerificationGas built)) as [value|e] eqn:Hvalue;
    [|reflexivity].
  repeat first [ rewrite nth_error_alloc | rewrite Hvalue | rewrite update_alloc
               | progress cbn [this heap] ].
  reflexivity.
Qed.


(** A wallet is restored from its own private key. *)
Lemma Wallet_new_privateKey (wallet : Wallet) :
  List.length (signingKey wallet) = 32 ->
  Curve.has_public_key (signingKey wallet) = true ->
  WalletApi.new (WalletApi.privateKey wallet) = Ok wallet.
Proof.
  intros Hlen Hvalid. unfold WalletApi.new, WalletApi.privateKey.
  change (Bytes.all_chars Bytes.is_hex_char (Bytes.hexlify_bytes (signingKey wallet)))
    with false.
  cbn [andb]. rewrite BytesFacts.hexlify_hexlify_bytes.
  rewrite BytesFacts.hexDataLength_hexlify_bytes, Hlen. cbn [Nat.eqb].
  cbn [Bytes.hexlify_bytes Bytes.substring_from].
  rewrite BytesFacts.parse_pairs_hex_of_bytes, Hvalid. now destruct wallet.
Qed.

(** A wallet made by [new ethers.Wallet] holds a key of 32 bytes that has
    a public key. *)
Lemma Wallet_new_key_length (privateKey : string) (wallet : Wallet) :
  WalletApi.new privateKey = Ok wallet ->
  List.length (signingKey wallet) = 32
  /\ Curve.has_public_key (signingKey wallet) = true.
Proof.
  unfold WalletApi.new.
  set (key := if Bytes.all_chars Bytes.is_hex_char privateKey
                 && Nat.eqb (String.length privateKey) 64
              then ("0x" ++ privateKey)%string else privateKey).
  unfold Bytes.hexlify. destruct (Bytes.isHexString key) eqn:Hhex; [|discriminate].
  destruct (Nat.odd (String.length key)); [discriminate|].
  destruct (Nat.eqb_spec (Bytes.hexDataLength (Bytes.toLowerCase key)) 32)
    as [Hlen|]; [|discriminate].
  destruct (Curve.has_public_key _) eqn:Hvalid; [|discriminate].
  intros [= <-]. cbn [signingKey]. split; [|exact Hvalid].
  assert (Hlower : Bytes.isHexString (Bytes.toLowerCase key) = true).
  { destruct (BytesFacts.isHexString_shape _ Hhex) as (-> & Hall).
    cbn [Bytes.toLowerCase Bytes.isHexString].
    change (Bytes.lower_char "0") with "0"%char.
    change (Bytes.lower_char "x") with "x"%char.
    now rewrite BytesFacts.all_hex_toLowerCase. }
  destruct (BytesFacts.isHexString_shape _ Hlower) as (Hshape & Hall).
  etransitivity; [exact (BytesFacts.length_parse_pairs _ Hall)|].
  unfold Bytes.hexDataLength in Hlen. rewrite Hshape in Hlen.
  cbn [String.length] in Hlen. rewrite <- Hlen. f_equal. lia.
Qed.

(** A random wallet holds a key of 32 bytes that has a public key. *)
Lemma createRandom_key_length (random : nat -> byte) :
  List.length (signingKey (WalletApi.createRandom random)) = 32
  /\ Curve.has_public_key (signingKey (WalletApi.createRandom random)) = true.
Proof.
  unfold WalletApi.createRandom. cbn [signingKey].
  split; [apply deriveKey_length|apply deriveKey_valid].
Qed.

Lemma constructor_key_length (Config : ExConfig)
  (params : AccountApiParamsType BaseApiParams) (random : nat -> byte)
  (I : TwoOwnerAccountAPI Base) :
  constructor Config params random = Ok I ->
  List.length (signingKey (ownerOne I)) = 32
  /\ Curve.has_public_key (signingKey (ownerOne I)) = true.
Proof.
  unfold constructor, cond.
  destruct (option_map State.privateKey (deserializeState params)) as [privateKey|].
  - destruct (String.eqb privateKey "").
    + intros [= <-]. apply createRandom_key_length.
    + destruct (WalletApi.new privateKey) as [wallet|] eqn:Hnew; [|discriminate].
      intros [= <-]. exact (Wallet_new_key_length _ _ Hnew).
  - intros [= <-]. apply createRandom_key_length.
Qed.

(** C6. An instance built from the state that [serialize] returns, and
    from no creation context, holds the same local owner (the same key,
    hence the same address) and the same second-owner address as the
    instance that was serialized, under any configuration. *)
Theorem serialize_roundtrip (Config Config' : ExConfig)
  (params : AccountApiParamsType BaseApiParams) (random random' : nat -> byte)
  (I : TwoOwnerAccountAPI Base) (objects : list UserOperationStruct)
  (base' : BaseApiParams) :
  constructor Config params random = Ok I ->
  exists (state : State.t) (I' : TwoOwnerAccountAPI Base),
    serialize {| this := I; heap := objects |}
    = (Ok state, {| this := I; heap := objects |})
    /\ constructor Config' (restore_params base' state) random' = Ok I'
    /\ ownerOne I' = ownerOne I
    /\ WalletApi.getAddress (ownerOne I') = WalletApi.getAddress (ownerOne I)
    /\ ownerTwo I' = ownerTwo I.
Proof.
  intros Hnew. destruct (constructor_key_length _ _ _ _ Hnew) as [Hlen Hvalid].
  exists {| State.privateKey := WalletApi.privateKey (ownerOne I);
            State.ownerTwo := ownerTwo I |}.
  eexists. split; [reflexivity|].
  unfold constructor, restore_params.
  cbn [deserializeState context option_map State.privateKey State.ownerTwo].
  unfold cond at 1.
  change (String.eqb (WalletApi.privateKey (ownerOne I)) "") with false.
  cbv iota. rewrite (Wallet_new_privateKey _ Hlen Hvalid).
  split; [reflexivity|]. cbn [ownerOne ownerTwo].
  split; [reflexivity|]. split; [reflexivity|].
  unfold cond, or_else, cond.
  destruct (String.eqb_spec (ownerTwo I) ""); [now symmetry|reflexivity].
Qed.

(** A restore that also carries a creation context: the context's address
    is taken only when the serialized second owner is empty. *)
Lemma restore_with_context (Config Config' : ExConfig)
  (params : AccountApiParamsType BaseApiParams) (random random' : nat -> byte)
  (I : TwoOwnerAccountAPI Base) (base' : BaseApiParams)
  (creation : option CreationContext.t) :
  constructor Config params random = Ok I ->
  exists I' : TwoOwnerAccountAPI Base,
    constructor Config'
      {| baseParams := base';
         context := creation;
         deserializeState :=
           Some {| State.privateKey := WalletApi.privateKey (ownerOne I);
                   State.ownerTwo := ownerTwo I |} |} random'
    = Ok I'
    /\ ownerOne I' = ownerOne I
    /\ ownerTwo I'
       = if String.eqb (ownerTwo I) ""
         then or_else (option_map CreationContext.address creation) ""
         else ownerTwo I.
Proof.
  intros Hnew. destruct (constructor_key_length _ _ _ _ Hnew) as [Hlen Hvalid].
  eexists. unfold constructor.
  cbn [deserializeState context option_map State.privateKey State.ownerTwo].
  unfold cond at 1.
  change (String.eqb (WalletApi.privateKey (ownerOne I)) "") with false.
  cbv iota. rewrite (Wallet_new_privateKey _ Hlen Hvalid).
  split; [reflexivity|]. cbn [ownerOne ownerTwo].
  split; [reflexivity|]. unfold cond at 1.
  destruct (String.eqb (ownerTwo I) ""); reflexivity.
Qed.

(** *** The constructor and the restored key *)

(** The constructor, by the wallet it makes. *)
Lemma constructor_wallet (Config : ExConfig)
  (params : AccountApiParamsType BaseApiParams) (random : nat -> byte) :
  constructor Config params random
  = match cond (option_map State.privateKey (deserializeState params))
            WalletApi.new (Ok (WalletApi.createRandom random)) with
    | Ok wallet =>
        Ok {| super := base_constructor params;
              name := "SimpleAccountAPI";
              factoryAddress := Some (FACTORY_ADDRESS Config);
              ownerOne := wallet;
              ownerTwo :=
                cond (option_map State.ownerTwo (deserializeState params))
                  (fun s => s)
                  (or_else (option_map CreationContext.address (context params)) "");
              index := JSNumber.of_Z 0;
              accountContract := None;
              factory := None |}
    | Err e => Err e
    end.
Proof. reflexivity. Qed.

(** The factory a new instance resolves is the configured one. *)
Lemma constructor_resolvable_factory (Config : ExConfig)
  (params : AccountApiParamsType BaseApiParams) (random : nat -> byte)
  (I : TwoOwnerAccountAPI Base) :
  constructor Config params random = Ok I ->
  resolvable_factory I = Some (FACTORY_ADDRESS Config) /\ factory I = None
  /\ index I = JSNumber.of_Z 0.
Proof.
  intros Hnew.
  destruct (constructor_fields Config params random I Hnew) as (Hfa & Hi & Hf & _).
  unfold resolvable_factory. now rewrite Hf, Hfa, FACTORY_ADDRESS_nonempty.
Qed.

(** X1. The constructor returns an instance exactly when the state to
    restore, if there is one, has a private key that is empty or is 64 hex
    digits, with or without the prefix [0x], that denote a number which is
    not 0 modulo the order of the curve; whatever the configuration, the
    context and the second owner. For 64 hex digits that denote 0 modulo
    the order (all zeros, or the order itself) it throws a type error; any
    other key it rejects with an argument error of the wallet. *)
Theorem constructor_returns_iff_key_usable (Config : ExConfig)
  (params : AccountApiParamsType BaseApiParams) (random : nat -> byte) :
  ((exists I, constructor Config params random = Ok I)
   <-> (forall state, deserializeState params = Some state ->
          State.privateKey state = ""
          \/ is_valid_key (State.privateKey state) = true))
  /\ (forall state, deserializeState params = Some state ->
        is_private_key (State.privateKey state) = true ->
        Curve.has_public_key
          (Bytes.parse_pairs (hex_digits (State.privateKey state))) = false ->
        constructor Config params random = Err TypeError)
  /\ (forall state e, deserializeState params = Some state ->
        is_private_key (State.privateKey state) = false ->
        constructor Config params random = Err e ->
        exists reason value, e = ArgumentError reason value)
  /\ (forall e, constructor Config params random = Err e ->
        e = TypeError \/ exists reason value, e = ArgumentError reason value).
Proof.
  rewrite constructor_wallet. unfold cond.
  destruct (deserializeState params) as [state|]; cbn [option_map].
  2:{ split; [split|repeat split; discriminate].
      - intros _ state [=].
      - intros _. eexists. reflexivity. }
  destruct (String.eqb_spec (State.privateKey state) "") as [Hempty|Hkey].
  { split; [split|split; [|split]].
    - intros _ s [= <-]. now left.
    - intros _. eexists. reflexivity.
    - intros s [= <-] Hwell. rewrite Hempty in Hwell. discriminate Hwell.
    - discriminate.
    - discriminate. }
  destruct (is_private_key (State.privateKey state)) eqn:Hwell.
  - rewrite (KeyFacts.Wallet_new_well_formed _ Hwell).
    destruct (Curve.has_public_key _) eqn:Hvalid.
    + split; [split|split; [|split]].
      * intros _ s [= <-]. right. unfold is_valid_key. now rewrite Hwell, Hvalid.
      * intros _. eexists. reflexivity.
      * intros s [= <-] _ H. congruence.
      * discriminate.
      * discriminate.
    + split; [split|split; [|split]].
      * intros [I [=]].
      * intros H. destruct (H state eq_refl) as [E|E]; [contradiction|].
        unfold is_valid_key in E. rewrite Hwell, Hvalid in E. discriminate E.
      * reflexivity.
      * intros s e [= <-]. congruence.
      * intros e [= <-]. now left.
  - destruct (KeyFacts.Wallet_new_rejects _ Hwell) as (reason & value & ->).
    split; [split|split; [|split]].
    + intros [I [=]].
    + intros H. destruct (H state eq_refl) as [E|E]; [contradiction|].
      unfold is_valid_key in E. rewrite Hwell in E. discriminate E.
    + intros s [= <-]. congruence.
    + intros s e _ _ [= <-]. now exists reason, value.
    + intros e [= <-]. right. now exists reason, value.
Qed.

(** X2. An instance restored from a state whose private key is 64 hex
    digits, in any case and with or without the prefix, that denote a
    number which is not 0 modulo the order of the curve, serializes to the
    key in canonical form: the prefix [0x] followed by the digits in lower
    case. *)
Theorem serialize_canonical_key (Config : ExConfig)
  (params : AccountApiParamsType BaseApiParams) (random : nat -> byte)
  (state : State.t) :
  deserializeState params = Some state ->
  is_valid_key (State.privateKey state) = true ->
  exists I,
    constructor Config params random = Ok I
    /\ forall objects,
         serialize {| this := I; heap := objects |}
         = (Ok {| State.privateKey :=
                    "0x" ++ Bytes.toLowerCase (hex_digits (State.privateKey state));
                  State.ownerTwo := ownerTwo I |},
            {| this := I; heap := objects |}).
Proof.
  intros Hstate Hvalid. rewrite constructor_wallet, Hstate. cbn [option_map].
  unfold cond at 1.
  destruct (String.eqb_spec (State.privateKey state) "") as [Hempty|_].
  { rewrite Hempty in Hvalid. discriminate Hvalid. }
  rewrite (KeyFacts.Wallet_new_accepts _ Hvalid). eexists. split; [reflexivity|].
  intros objects. unfold serialize. run. cbn [ownerOne ownerTwo].
  unfold WalletApi.privateKey, Bytes.hexlify_bytes. cbn [signingKey].
  apply andb_prop in Hvalid as [Hwell _].
  apply andb_prop in Hwell as [Hlen Hall]. apply Nat.eqb_eq in Hlen.
  rewrite KeyFacts.hex_of_bytes_parse_pairs; [reflexivity|exact Hall|].
  now rewrite Hlen.
Qed.

(** X3. A state to restore whose private key is the empty string does not
    make the constructor fail: the key is drawn afresh, as for a new
    account, while the second owner is still the state's (or, when that is
    empty too, the address of the creation context). *)
Theorem constructor_empty_key_draws_fresh (Config : ExConfig)
  (params : AccountApiParamsType BaseApiParams) (random : nat -> byte)
  (state : State.t) :
  deserializeState params = Some state ->
  State.privateKey state = "" ->
  exists I,
    constructor Config params random = Ok I
    /\ ownerOne I = WalletApi.createRandom random
    /\ ownerTwo I
       = if String.eqb (State.ownerTwo state) ""
         then match context params with
              | Some c => CreationContext.address c
              | None => ""
              end
         else State.ownerTwo state.
Proof.
  intros Hstate Hempty. rewrite constructor_wallet, Hstate. cbn [option_map].
  unfold cond at 1. rewrite Hempty. cbn [String.eqb]. eexists.
  split; [reflexivity|]. split; [reflexivity|]. cbn [ownerTwo]. unfold cond at 1.
  destruct (String.eqb (State.ownerTwo state) ""); [|reflexivity].
  unfold or_else, cond. destruct (context params) as [c|]; [|reflexivity].
  cbn [option_map]. destruct (String.eqb_spec (CreationContext.address c) "");
    [now symmetry|reflexivity].
Qed.


(** X5. An instance restored, under the same configuration, from what
    [serialize] returns yields the same init code as the instance that was
    serialized, or fails as it does. *)
Theorem restored_instance_same_initCode (Config : ExConfig)
  (params : AccountApiParamsType BaseApiParams) (random random' : nat -> byte)
  (I : TwoOwnerAccountAPI Base) (objects objects' : list UserOperationStruct)
  (base' : BaseApiParams) :
  constructor Config params random = Ok I ->
  exists (state : State.t) (I' : TwoOwnerAccountAPI Base),
    fst (serialize {| this := I; heap := objects |}) = Ok state
    /\ constructor Config (restore_params base' state) random' = Ok I'
    /\ fst (getAccountInitCode {| this := I'; heap := objects' |})
       = fst (getAccountInitCode {| this := I; heap := objects |}).
Proof.
  intros Hnew.
  destruct (restore_with_context Config Config params random random' I base' None Hnew)
    as (I' & Hnew' & Hone & Htwo).
  exists {| State.privateKey := WalletApi.privateKey (ownerOne I);
            State.ownerTwo := ownerTwo I |}, I'.
  split; [reflexivity|]. split; [exact Hnew'|].
  assert (Htwo' : ownerTwo I' = ownerTwo I).
  { rewrite Htwo. destruct (String.eqb_spec (ownerTwo I) ""); [now symmetry|reflexivity]. }
  destruct (constructor_resolvable_factory _ _ _ _ Hnew) as (Hres & Hf & Hindex).
  destruct (constructor_resolvable_factory _ _ _ _ Hnew') as (Hres' & Hf' & Hindex').
  rewrite !getAccountInitCode_run. cbn [this heap].
  rewrite Hres, Hres', Hone, Htwo', Hindex, Hindex'. cbv zeta.
  destruct (Abi.encodeFunctionData_createAccount _ _ _); reflexivity.
Qed.

(** *** The bindings *)

(** X6. Once [_getAccountContract] has returned a binding, the binding is
    kept: a further call returns the same contract and leaves the instance
    as it is, so the account address is asked of the base class at most
    once. *)
Theorem _getAccountContract_binds_once (w w' : World Base) (c : Contract) :
  _getAccountContract w = (Ok c, w') ->
  accountContract (this w') = Some c
  /\ heap w' = heap w
  /\ _getAccountContract w' = (Ok c, w').
Proof.
  rewrite _getAccountContract_run.
  destruct (accountContract (this w)) as [c'|] eqn:Hc.
  - intros [= <- <-]. split; [exact Hc|]. split; [reflexivity|].
    now rewrite _getAccountContract_run, Hc.
  - destruct (getAccountAddress (this w)) as [[a|e] t']; [|discriminate].
    intros [= <- <-]. split; [reflexivity|]. split; [reflexivity|].
    now rewrite _getAccountContract_run.
Qed.

Lemma connect_address (f : Contract) : connect (address f) = f.
Proof. now destruct f. Qed.

(** X7. [getAccountInitCode] is repeatable: called again in the state it
    left, it gives the same result, a value or the same error, and leaves
    that state as it is. *)
Theorem getAccountInitCode_repeatable (w : World Base) :
  getAccountInitCode (snd (getAccountInitCode w)) = getAccountInitCode w.
Proof.
  rewrite (getAccountInitCode_run w). unfold resolvable_factory.
  destruct (factory (this w)) as [f|] eqn:Hf.
  - cbv zeta.
    destruct (Abi.encodeFunctionData_createAccount _ _ _) as [data|e] eqn:Hdata;
      cbn [snd]; rewrite getAccountInitCode_run; unfold resolvable_factory;
      cbn [this heap]; rewrite Hf, Hdata; reflexivity.
  - destruct (factoryAddress (this w)) as [a|] eqn:Ha.
    2:{ cbn [snd]. rewrite getAccountInitCode_run. unfold resolvable_factory.
        now rewrite Hf, Ha. }
    destruct (String.eqb a "") eqn:Hempty.
    { cbn [snd]. rewrite getAccountInitCode_run. unfold resolvable_factory.
      now rewrite Hf, Ha, Hempty. }
    cbv zeta.
    destruct (Abi.encodeFunctionData_createAccount _ _ _) as [data|e] eqn:Hdata;
      cbn [snd]; rewrite getAccountInitCode_run; unfold resolvable_factory;
      cbn [this heap set_factory factory ownerOne ownerTwo index address connect];
      rewrite Hdata; reflexivity.
Qed.

(** X8. Once the factory is bound, [factoryAddress] is no longer read: two
    instances with the same factory binding, owners and index give the same
    result whatever their [factoryAddress] fields hold, the call changes
    nothing, and it cannot throw [Error('no factory to get initCode')]. *)
Theorem getAccountInitCode_cached_factory_wins (w1 w2 : World Base) (f : Contract) :
  factory (this w1) = Some f ->
  factory (this w2) = Some f ->
  ownerOne (this w1) = ownerOne (this w2) ->
  ownerTwo (this w1) = ownerTwo (this w2) ->
  index (this w1) = index (this w2) ->
  fst (getAccountInitCode w1) = fst (getAccountInitCode w2)
  /\ snd (getAccountInitCode w1) = w1
  /\ fst (getAccountInitCode w1) <> Err (Error "no factory to get initCode").
Proof.
  intros H1 H2 Hone Htwo Hindex. rewrite !getAccountInitCode_run.
  unfold resolvable_factory. rewrite H1, H2, Hone, Htwo, Hindex. cbv zeta.
  destruct (Abi.encodeFunctionData_createAccount _ _ _) as [data|e] eqn:Hdata;
    cbn [fst snd].
  - split; [reflexivity|]. split; [now destruct w1|].
    destruct (Bytes.hexConcat [address f; data]) as [code|e] eqn:Hcode; [discriminate|].
    destruct (BytesFacts.hexConcat_from_error _ _ _ Hcode) as (reason & v & ->).
    discriminate.
  - split; [reflexivity|]. split; [now destruct w1|].
    destruct (AbiFacts.encodeFunctionData_createAccount_error _ _ _ _ Hdata)
      as [(reason & v & ->)|(fault & ->)]; discriminate.
Qed.

(** *** The shape of the init code *)

(** What a returned init code tells of the state it was computed in. *)
Lemma getAccountInitCode_Ok_inv (w w' : World Base) (code : string) :
  getAccountInitCode w = (Ok code, w') ->
  exists (F a2 : string) (n : Z),
    resolvable_factory (this w) = Some F
    /\ Address.getAddress (ownerTwo (this w)) = Ok a2
    /\ JSNumber.integer (index (this w)) = Some n
    /\ (0 <= n < Abi.MAX_SAFE)%Z
    /\ Bytes.hexConcat
         [F; Bytes.hexlify_bytes
               (Abi.getSighash "createAccount(address,address,uint256)"
                  ++ Abi.address_word (WalletApi.getAddress (ownerOne (this w)))
                  ++ Abi.address_word a2
                  ++ Abi.word (Z.to_N n))]
       = Ok code
    /\ this w' = match factory (this w) with
                 | Some _ => this w
                 | None => set_factory (connect F) (this w)
                 end.
Proof.
  rewrite getAccountInitCode_run.
  destruct (resolvable_factory (this w)) as [F|] eqn:Hres; [|discriminate].
  cbv zeta.
  destruct (Abi.encodeFunctionData_createAccount _ _ _) as [data|] eqn:Hdata;
    [|discriminate].
  destruct (InitCodeFacts.encodeFunctionData_createAccount_Ok_inv _ _ _ _ Hdata)
    as (a1 & a2 & n & H1 & H2 & Hint & Hindex & ->).
  rewrite AddressFacts.getAddress_wallet in H1. injection H1 as <-.
  intros [= Hcode <-]. now exists F, a2, n.
Qed.

(** X9. Whenever [getAccountInitCode] returns, a factory address was
    resolvable and is hex data, the second owner is an address, the index
    is an integer from 0 and below [2^53 - 1], and the value is the factory
    address in lower case followed by the hex digits of the 100 bytes of
    call data (200 characters more than the factory address); the factory
    binding is cached afterwards. *)
Theorem getAccountInitCode_output_shape (w w' : World Base) (code : string) :
  getAccountInitCode w = (Ok code, w') ->
  exists (F a2 : string) (n : Z),
    resolvable_factory (this w) = Some F
    /\ Bytes.isHexString F = true
    /\ Address.getAddress (ownerTwo (this w)) = Ok a2
    /\ JSNumber.integer (index (this w)) = Some n
    /\ (0 <= n < 2 ^ 53 - 1)%Z
    /\ code
       = (Bytes.toLowerCase F
            ++ Bytes.hex_of_bytes
                 (Abi.getSighash "createAccount(address,address,uint256)"
                    ++ Abi.address_word (WalletApi.getAddress (ownerOne (this w)))
                    ++ Abi.address_word a2
                    ++ Abi.word (Z.to_N n)))%string
    /\ String.length code = String.length F + 200
    /\ factory (this w') = Some (connect F).
Proof.
  intros Hrun.
  destruct (getAccountInitCode_Ok_inv w w' code Hrun)
    as (F & a2 & n & Hres & H2 & Hint & Hindex & Hcode & Hthis).
  pose proof (InitCodeFacts.length_createAccount_data
                (WalletApi.getAddress (ownerOne (this w)))
                a2 (Z.to_N n)) as Hlength.
  set (callData := Abi.getSighash "createAccount(address,address,uint256)"
                     ++ Abi.address_word (WalletApi.getAddress (ownerOne (this w)))
                     ++ Abi.address_word a2
                     ++ Abi.word (Z.to_N n)) in *.
  rewrite InitCodeFacts.hexConcat_factory in Hcode.
  destruct (Bytes.isHexString F) eqn:Hhex; [|discriminate].
  destruct (Nat.odd (String.length F)); [discriminate|].
  apply InitCodeFacts.Ok_injective in Hcode. subst code. exists F, a2, n.
  split; [exact Hres|]. split; [exact Hhex|]. split; [exact H2|].
  split; [exact Hint|]. split; [exact Hindex|]. split; [reflexivity|]. split.
  - rewrite BytesFacts.length_append, BytesFacts.length_toLowerCase,
      BytesFacts.length_hex_of_bytes, Hlength. reflexivity.
  - rewrite Hthis. unfold resolvable_factory in Hres.
    destruct (factory (this w)) as [f|] eqn:Hf.
    + injection Hres as <-. now rewrite connect_address.
    + reflexivity.
Qed.

(** X10. The init code of a new instance whose second owner is an address:
    with no factory address configured (absent or empty) it starts with
    the default factory address in lower case,
    [0x6c0ec05ad55c8b8427119ce50b6087e7b0c9c23e]; with one configured that
    is hex data, with that address in lower case; the call data follows,
    with index 0. *)
Theorem getAccountInitCode_of_new_instance (Config : ExConfig)
  (params : AccountApiParamsType BaseApiParams) (random : nat -> byte)
  (I : TwoOwnerAccountAPI Base) (objects : list UserOperationStruct) (a2 : string) :
  constructor Config params random = Ok I ->
  Address.getAddress (ownerTwo I) = Ok a2 ->
  (factory_address Config = None \/ factory_address Config = Some "" ->
   fst (getAccountInitCode {| this := I; heap := objects |})
   = Ok ("0x6c0ec05ad55c8b8427119ce50b6087e7b0c9c23e"
         ++ Bytes.hex_of_bytes
              (Abi.getSighash "createAccount(address,address,uint256)"
                 ++ Abi.address_word (WalletApi.getAddress (ownerOne I))
                 ++ Abi.address_word a2
                 ++ Abi.word 0))%string)
  /\ (forall F : string,
        factory_address Config = Some F ->
        Bytes.isHexString F = true ->
        Nat.even (String.length F) = true ->
        fst (getAccountInitCode {| this := I; heap := objects |})
        = Ok (Bytes.toLowerCase F
              ++ Bytes.hex_of_bytes
                   (Abi.getSighash "createAccount(address,address,uint256)"
                      ++ Abi.address_word (WalletApi.getAddress (ownerOne I))
                      ++ Abi.address_word a2
                      ++ Abi.word 0))%string).
Proof.
  intros Hnew H2.
  destruct (constructor_resolvable_factory _ _ _ _ Hnew) as (Hres & Hf & Hindex).
  rewrite getAccountInitCode_run. cbn [this heap]. rewrite Hres, Hindex. cbv zeta.
  rewrite (AbiFacts.encodeFunctionData_createAccount_Ok _ _ _ _ a2 0
             (AddressFacts.getAddress_wallet _) H2 AbiFacts.integer_zero
             AbiFacts.zero_is_safe).
  rewrite InitCodeFacts.hexConcat_factory. split.
  - intros Hdefault.
    assert (HF : FACTORY_ADDRESS Config = "0x6c0ec05Ad55C8B8427119ce50b6087E7B0C9c23e").
    { unfold FACTORY_ADDRESS. now destruct Hdefault as [-> | ->]. }
    rewrite HF. reflexivity.
  - intros F HF Hhex Heven.
    assert (E : FACTORY_ADDRESS Config = F).
    { unfold FACTORY_ADDRESS, or_else, cond. rewrite HF.
      destruct (String.eqb_spec F "") as [->|]; [discriminate Hhex|reflexivity]. }
    rewrite E, Hhex, <- Nat.negb_even, Heven. reflexivity.
Qed.

(** X11. A configured factory address that is not hex data (a name, or
    an address written without its prefix) is accepted by the constructor;
    [getAccountInitCode] on the new instance, with a second owner that is an
    address, then throws the ['invalid hexlify value'] argument error for
    that string. *)
Theorem getAccountInitCode_rejects_malformed_factory (Config : ExConfig)
  (params : AccountApiParamsType BaseApiParams) (random : nat -> byte)
  (I : TwoOwnerAccountAPI Base) (objects : list UserOperationStruct)
  (F a2 : string) :
  constructor Config params random = Ok I ->
  factory_address Config = Some F ->
  F <> "" ->
  Bytes.isHexString F = false ->
  Address.getAddress (ownerTwo I) = Ok a2 ->
  fst (getAccountInitCode {| this := I; heap := objects |})
  = Err (ArgumentError "invalid hexlify value" F).
Proof.
  intros Hnew HF Hne Hhex H2.
  destruct (constructor_resolvable_factory _ _ _ _ Hnew) as (Hres & Hf & Hindex).
  assert (E : FACTORY_ADDRESS Config = F).
  { unfold FACTORY_ADDRESS, or_else, cond. rewrite HF.
    destruct (String.eqb_spec F ""); [contradiction|reflexivity]. }
  rewrite E in Hres.
  rewrite getAccountInitCode_run. cbn [this heap]. rewrite Hres, Hindex. cbv zeta.
  rewrite (AbiFacts.encodeFunctionData_createAccount_Ok _ _ _ _ a2 0
             (AddressFacts.getAddress_wallet _) H2 AbiFacts.integer_zero
             AbiFacts.zero_is_safe).
  rewrite InitCodeFacts.hexConcat_factory, Hhex. reflexivity.
Qed.

(** X12. The bytes of the init code, for a second owner written as 40 hex
    digits (with or without prefix, in any accepted case) and an index that
    is the number 0: the
    factory address, the selector, then three words; the first owner's word
    is twelve zero bytes and the last twenty bytes of the hash of its public
    key, the second owner's is twelve zero bytes and the twenty bytes its
    digits denote, the index's is thirty-two zero bytes. The call data has
    100 bytes. *)
Theorem getAccountInitCode_wire_format (w : World Base) (F a2 : string)
  (factoryBytes : list byte) :
  resolvable_factory (this w) = Some F ->
  Bytes.arrayify F = Ok factoryBytes ->
  Address.matches_hex_address (ownerTwo (this w)) = true ->
  Address.getAddress (ownerTwo (this w)) = Ok a2 ->
  JSNumber.integer (index (this w)) = Some 0%Z ->
  exists (code : string) (w' : World Base),
    getAccountInitCode w = (Ok code, w')
    /\ Bytes.arrayify code
       = Ok (factoryBytes
               ++ Abi.getSighash "createAccount(address,address,uint256)"
               ++ (repeat x00 12
                     ++ skipn 12 (keccak256
                                    (tl (computePublicKey
                                           (signingKey (ownerOne (this w)))))))
               ++ (repeat x00 12 ++ Bytes.parse_pairs (hex_digits (ownerTwo (this w))))
               ++ repeat x00 32)
    /\ List.length (Bytes.parse_pairs (hex_digits (ownerTwo (this w)))) = 20
    /\ Bytes.hexDataLength code = List.length factoryBytes + 100.
Proof.
  intros Hfactory HF Hmatch H2 Hindex.
  destruct (WordFacts.address_word_getAddress _ _ Hmatch H2) as [Hword Hlen].
  rewrite getAccountInitCode_run, Hfactory.
  rewrite (AbiFacts.encodeFunctionData_createAccount_Ok _ _ _ _ a2 0
             (AddressFacts.getAddress_wallet _) H2 Hindex AbiFacts.zero_is_safe).
  cbv zeta. rewrite Hword, WordFacts.address_word_wallet.
  change (Abi.word (Z.to_N 0)) with (Abi.word 0). rewrite WordFacts.word_zero.
  set (callData := Abi.getSighash "createAccount(address,address,uint256)" ++ _).
  assert (Hdata : List.length callData = 100).
  { unfold callData.
    rewrite !length_app, InitCodeFacts.length_getSighash, !repeat_length, Hlen.
    now rewrite AddressFacts.address_bytes_length. }
  destruct (BytesFacts.arrayify_hexConcat F (Bytes.hexlify_bytes callData)
              factoryBytes callData HF
              (BytesFacts.arrayify_hexlify_bytes callData))
    as (code & Hcode & Hbytes).
  rewrite Hcode. eexists code, _. split; [reflexivity|]. split; [exact Hbytes|].
  split; [exact Hlen|].
  unfold Bytes.hexDataLength.
  rewrite (SigningFacts.hex_length_of_bytes code _ Hbytes), length_app, Hdata.
  cbn [Nat.add Nat.sub]. rewrite Nat.sub_0_r, Nat.mul_comm, Nat.div_mul by lia.
  reflexivity.
Qed.

(** X13. The init code identifies the owners: two instances, with second
    owners written as hex digits, for which [getAccountInitCode] returns
    the same value have the same first-owner address, the same twenty bytes
    of second owner, and indexes that are the same integer. *)
Theorem getAccountInitCode_identifies_owners (w1 w2 w1' w2' : World Base)
  (code : string) :
  getAccountInitCode w1 = (Ok code, w1') ->
  getAccountInitCode w2 = (Ok code, w2') ->
  Address.matches_hex_address (ownerTwo (this w1)) = true ->
  Address.matches_hex_address (ownerTwo (this w2)) = true ->
  WalletApi.getAddress (ownerOne (this w1)) = WalletApi.getAddress (ownerOne (this w2))
  /\ Bytes.parse_pairs (hex_digits (ownerTwo (this w1)))
     = Bytes.parse_pairs (hex_digits (ownerTwo (this w2)))
  /\ (exists n : Z,
        JSNumber.integer (index (this w1)) = Some n
        /\ JSNumber.integer (index (this w2)) = Some n).
Proof.
  intros Hrun1 Hrun2 Hmatch1 Hmatch2.
  destruct (getAccountInitCode_Ok_inv _ _ _ Hrun1)
    as (F1 & a1 & n1 & _ & Ha1 & Hint1 & Hi1 & Hcode1 & _).
  destruct (getAccountInitCode_Ok_inv _ _ _ Hrun2)
    as (F2 & a2 & n2 & _ & Ha2 & Hint2 & Hi2 & Hcode2 & _).
  rewrite InitCodeFacts.hexConcat_factory in Hcode1, Hcode2.
  destruct (Bytes.isHexString F1); [|discriminate].
  destruct (Nat.odd (String.length F1)); [discriminate|].
  destruct (Bytes.isHexString F2); [|discriminate].
  destruct (Nat.odd (String.length F2)); [discriminate|].
  apply InitCodeFacts.Ok_injective in Hcode1, Hcode2.
  symmetry in Hcode1, Hcode2.
  destruct (WordFacts.address_word_getAddress _ _ Hmatch1 Ha1) as [Hw1 Hl1].
  destruct (WordFacts.address_word_getAddress _ _ Hmatch2 Ha2) as [Hw2 Hl2].
  rewrite Hw1, WordFacts.address_word_wallet in Hcode1.
  rewrite Hw2, WordFacts.address_word_wallet in Hcode2.
  set (one1 := skipn 12 (keccak256 (tl (computePublicKey
                                          (signingKey (ownerOne (this w1))))))) in *.
  set (one2 := skipn 12 (keccak256 (tl (computePublicKey
                                          (signingKey (ownerOne (this w2))))))) in *.
  set (two1 := Bytes.parse_pairs (hex_digits (ownerTwo (this w1)))) in *.
  set (two2 := Bytes.parse_pairs (hex_digits (ownerTwo (this w2)))) in *.
  assert (Hone1 : List.length one1 = 20) by apply AddressFacts.address_bytes_length.
  assert (Hone2 : List.length one2 = 20) by apply AddressFacts.address_bytes_length.
  rewrite Hcode1 in Hcode2.
  apply InitCodeFacts.append_inv_length in Hcode2 as [_ Hdata].
  2:{ rewrite !BytesFacts.length_hex_of_bytes, !length_app,
        !InitCodeFacts.length_getSighash, !repeat_length, !AbiFacts.length_word.
      lia. }
  apply InitCodeFacts.hex_of_bytes_injective in Hdata.
  apply app_inv_head in Hdata.
  apply InitCodeFacts.app_inv_length in Hdata as [Hone Hdata];
    [|rewrite !length_app, !repeat_length; lia].
  apply InitCodeFacts.app_inv_length in Hdata as [Htwo Hindex];
    [|rewrite !length_app, !repeat_length; lia].
  apply app_inv_head in Hone, Htwo.
  split; [|split; [exact Htwo|]].
  - unfold WalletApi.getAddress, WalletApi.computeAddress. fold one1 one2.
    now rewrite Hone.
  - apply (f_equal Abi.N_of_bytes) in Hindex.
    unfold Abi.MAX_SAFE in Hi1, Hi2.
    rewrite !AbiFacts.N_of_bytes_word in Hindex by lia.
    exists n1. split; [exact Hint1|]. rewrite Hint2. f_equal. lia.
Qed.

(** *** The execute call *)

(** X14. [getNonce] on a deployed account and [encodeExecute] share one
    binding: after [getNonce] has read the nonce from the account contract
    it bound, that contract is cached, and every later [encodeExecute]
    encodes with it and leaves the state as it is. *)
Theorem getNonce_then_encodeExecute_share_binding (w w' : World Base)
  (t' : TwoOwnerAccountAPI Base) (c : Contract) :
  checkAccountPhantom (this w) = (Ok false, t') ->
  _getAccountContract {| this := t'; heap := heap w |} = (Ok c, w') ->
  getNonce w = (contract_getNonce c, w')
  /\ accountContract (this w') = Some c
  /\ (forall (interface_encodeExecute :
                Contract -> string -> BigNumberish -> string -> result string)
        (target : string) (value : BigNumberish) (data : string),
        encodeExecute interface_encodeExecute target value data w'
        = (interface_encodeExecute c target value data, w')).
Proof.
  intros Hphantom Hbind. split; [|split].
  - unfold getNonce. unfold bind at 1. unfold inherited.
    rewrite Hphantom. unfold bind. rewrite Hbind. reflexivity.
  - rewrite _getAccountContract_run in Hbind. cbn [this heap] in Hbind.
    destruct (accountContract t') as [c'|] eqn:Hc.
    + injection Hbind as <- <-. exact Hc.
    + destruct (getAccountAddress t') as [[a|e] t'']; [|discriminate].
      injection Hbind as <- <-. reflexivity.
  - intros enc target value data. unfold encodeExecute, bind.
    rewrite _getAccountContract_run in Hbind |- *. cbn [this heap] in Hbind.
    destruct (accountContract t') as [c'|] eqn:Hc.
    + injection Hbind as <- <-. cbn [this]. rewrite Hc. reflexivity.
    + destruct (getAccountAddress t') as [[a|e] t'']; [|discriminate].
      injection Hbind as <- <-. reflexivity.
Qed.

(** X15. [encodeExecute] resolves the account contract first. When the
    binding is obtained, the result is what the contract interface's encoder
    gives for [(target, value, data)], a value or an error, and later calls
    with any arguments encode with the same binding without touching the
    state. When the instance is not bound and the base class fails to give
    the account address, that failure is thrown whatever the arguments. *)
Theorem encodeExecute_binds_then_encodes
  (interface_encodeExecute : Contract -> string -> BigNumberish -> string -> result string)
  (w : World Base) (target : string) (value : BigNumberish) (data : string) :
  (forall (c : Contract) (w' : World Base),
      _getAccountContract w = (Ok c, w') ->
      encodeExecute interface_encodeExecute target value data w
      = (interface_encodeExecute c target value data, w')
      /\ (forall (target' : string) (value' : BigNumberish) (data' : string),
            encodeExecute interface_encodeExecute target' value' data' w'
            = (interface_encodeExecute c target' value' data', w')))
  /\ (forall (e : exn) (t' : TwoOwnerAccountAPI Base),
        accountContract (this w) = None ->
        getAccountAddress (this w) = (Err e, t') ->
        encodeExecute interface_encodeExecute target value data w
        = (Err e, {| this := t'; heap := heap w |})).
Proof.
  split.
  - intros c w' Hbind. split.
    + unfold encodeExecute, bind. rewrite Hbind. reflexivity.
    + intros target' value' data'. unfold encodeExecute, bind.
      rewrite _getAccountContract_run in Hbind |- *.
      destruct (accountContract (this w)) as [c'|] eqn:Hc.
      * injection Hbind as <- <-. rewrite Hc. reflexivity.
      * destruct (getAccountAddress (this w)) as [[a|e] t'']; [|discriminate].
        injection Hbind as <- <-. reflexivity.
  - intros e t' Hc Haddr. unfold encodeExecute, bind.
    now rewrite _getAccountContract_run, Hc, Haddr.
Qed.

(** *** Signing *)

Lemma signOwnerOne_run (userOpHash : string) (w : World Base) :
  signOwnerOne userOpHash w
  = match Bytes.arrayify userOpHash with
    | Ok message => (Ok (WalletApi.signMessage (ownerOne (this w)) (Arr message)), w)
    | Err e => (Err e, w)
    end.
Proof.
  unfold signOwnerOne. run. destruct (Bytes.arrayify userOpHash); reflexivity.
Qed.

(** X16. [signOwnerOne] returns exactly when its argument is hex data of
    whole bytes: the prefix [0x] followed by an even number of hex digits.
    Otherwise it throws an argument error that carries the argument. In no
    case does it change the state. *)
Theorem signOwnerOne_returns_iff_hex (userOpHash : string) (w : World Base) :
  snd (signOwnerOne userOpHash w) = w
  /\ ((exists s, fst (signOwnerOne userOpHash w) = Ok s)
      <-> Bytes.isHexString userOpHash = true
          /\ Nat.even (String.length userOpHash) = true)
  /\ (forall e, fst (signOwnerOne userOpHash w) = Err e ->
        exists reason, e = ArgumentError reason userOpHash).
Proof.
  rewrite signOwnerOne_run.
  destruct (SigningFacts.arrayify_returns_iff userOpHash) as [Hiff Herr].
  destruct (Bytes.arrayify userOpHash) as [message|e] eqn:Harr; cbn [fst snd].
  - split; [reflexivity|]. split; [|discriminate].
    split; [intros _; apply Hiff; now eexists|intros _; now eexists].
  - split; [reflexivity|]. split.
    + split; [intros [s [=]]|]. intros H. apply Hiff in H as [l [=]].
    + intros e' [= <-]. now apply Herr.
Qed.

(** X17. For a hash of 32 bytes, [signOwnerOne] returns the local key's
    signature over the digest of the message prefix, the length ["32"] and
    the 32 bytes themselves (not the characters of the hex string). *)
Theorem signOwnerOne_signs_hash_bytes (userOpHash : string) (hash : list byte)
  (w : World Base) :
  Bytes.arrayify userOpHash = Ok hash ->
  List.length hash = 32 ->
  signOwnerOne userOpHash w
  = (Ok (Bytes.hexlify_bytes
           (signDigest (signingKey (ownerOne (this w)))
              (keccak256 (Bytes.toUtf8Bytes WalletApi.messagePrefix
                            ++ Bytes.toUtf8Bytes "32" ++ hash)))), w).
Proof.
  intros Harr Hlen. rewrite signOwnerOne_run, Harr.
  unfold WalletApi.signMessage, WalletApi.signature_bytes, WalletApi.hashMessage.
  cbn [WalletApi.message_bytes]. now rewrite Hlen.
Qed.

(** X18. [signMessage] signs [rawSigningData] as text: when the text has a
    UTF-8 encoding, the digest is that of the message prefix, the number of
    bytes of the encoding in decimal, and the encoding, and the state is
    not changed; when it has none (a high surrogate that no low surrogate
    follows) the call throws [Error('invalid utf-8 string')]. Hex data is
    not decoded: for data that is the hex string of a 32-byte hash, the
    encoding is the characters of the string, and what is hashed differs
    from what [signOwnerOne] hashes for the same string. *)
Theorem signMessage_signs_text {Any : Type} (context : Any)
  (request : MessageSigningRequest) (data : JSString.t) (w : World Base) :
  rawSigningData request = Some data ->
  (forall bytes : list byte,
      JSString.toUtf8Bytes data = Ok bytes ->
      signMessage context (Some request) w
      = (Ok (Bytes.hexlify_bytes
               (signDigest (signingKey (ownerOne (this w)))
                  (keccak256 (Bytes.toUtf8Bytes WalletApi.messagePrefix
                                ++ Bytes.toUtf8Bytes
                                     (WalletApi.decimal (List.length bytes))
                                ++ bytes)))), w))
  /\ (forall e : exn,
        JSString.toUtf8Bytes data = Err e ->
        e = Error "invalid utf-8 string"
        /\ signMessage context (Some request) w = (Err e, w))
  /\ (forall (text : string) (hash : list byte),
        data = JSString.of_ascii text ->
        Bytes.arrayify text = Ok hash ->
        List.length hash = 32 ->
        JSString.toUtf8Bytes data = Ok (Bytes.toUtf8Bytes text)
        /\ Bytes.toUtf8Bytes WalletApi.messagePrefix
             ++ Bytes.toUtf8Bytes
                  (WalletApi.decimal (List.length (Bytes.toUtf8Bytes text)))
             ++ Bytes.toUtf8Bytes text
           <> Bytes.toUtf8Bytes WalletApi.messagePrefix
                ++ Bytes.toUtf8Bytes "32" ++ hash).
Proof.
  intros Hdata.
  assert (E : JSString.toUtf8Bytes (JSString.or_else (Some data) [])
              = JSString.toUtf8Bytes data).
  { destruct data; reflexivity. }
  split; [|split].
  - intros bytes Hbytes. unfold signMessage, WalletApi.signText. run.
    rewrite Hdata, E, Hbytes. reflexivity.
  - intros e He. split; [exact (TextFacts.toUtf8Bytes_error _ _ He)|].
    unfold signMessage, WalletApi.signText. run. now rewrite Hdata, E, He.
  - intros text hash -> Harr Hlen.
    destruct (BytesFacts.arrayify_Ok text hash Harr) as (Hhex & _ & _).
    split; [exact (TextFacts.toUtf8Bytes_of_ascii text)|].
    intros Heq. apply (f_equal (@List.length byte)) in Heq.
    rewrite (SigningFacts.length_toUtf8Bytes text Hhex) in Heq.
    rewrite !length_app in Heq. apply Nat.add_cancel_l in Heq.
    rewrite (SigningFacts.length_toUtf8Bytes text Hhex) in Heq.
    rewrite (SigningFacts.hex_length_of_bytes text hash Harr), Hlen in Heq.
    vm_compute in Heq. discriminate Heq.
Qed.

(** X19. A [signUserOpWithContext] that throws, for whatever reason,
    leaves the store of operations as it was: no operation is added and
    none is changed. *)
Theorem signUserOpWithContext_failure_leaves_store (w w' : World Base)
  (userOp : ref) (context : SigningContext) (e : exn) :
  signUserOpWithContext userOp context w = (Err e, w') ->
  heap w' = heap w.
Proof.
  destruct (nth_error (heap w) userOp) as [op|] eqn:Hop.
  - rewrite (signUserOpWithContext_run w userOp context op Hop).
    destruct (getUserOpHash op (this w)) as [[h|e'] t']; [|now intros [= _ <-]].
    destruct (Bytes.arrayify h) as [hash|e']; [|now intros [= _ <-]].
    destruct (Abi.encode_bytes_bytes _ _); [discriminate|now intros [= _ <-]].
  - unfold signUserOpWithContext. run. rewrite Hop. now intros [= _ <-].
Qed.

(** X20. A [signedMessage] that is not a hex string (the empty string, for
    one) makes [signUserOpWithContext] throw the ['invalid arrayify value']
    argument error for it, after the hash has been computed and signed; no
    operation is returned. *)
Theorem signUserOpWithContext_rejects_malformed_signedMessage (w : World Base)
  (userOp : ref) (context : SigningContext) (op : UserOperationStruct)
  (userOpHash : string) (t' : TwoOwnerAccountAPI Base) (hash : list byte) :
  nth_error (heap w) userOp = Some op ->
  getUserOpHash op (this w) = (Ok userOpHash, t') ->
  Bytes.arrayify userOpHash = Ok hash ->
  Bytes.isHexString (signedMessage context) = false ->
  signUserOpWithContext userOp context w
  = (Err (ArgumentError "invalid arrayify value" (signedMessage context)),
     {| this := t'; heap := heap w |}).
Proof.
  intros Hop Hhash Harr Hbad.
  rewrite (signUserOpWithContext_run w userOp context op Hop), Hhash, Harr.
  unfold Abi.encode_bytes_bytes, Abi.encode_bytes, rbind.
  rewrite arrayify_signMessage. unfold Bytes.arrayify at 1. now rewrite Hbad.
Qed.

(** X21. The bytes of the assembled signature, for a local signature of 65
    bytes: the offsets 64 and 192, then the length 65, the local signature
    and 31 zero bytes, then the length of [signedMessage] and its bytes
    padded to whole words. The total is a whole number of 32-byte words,
    between 224 and 255 bytes more than [signedMessage]. *)
Theorem signUserOpWithContext_wire_format (w : World Base) (userOp : ref)
  (context : SigningContext) (op : UserOperationStruct) (userOpHash : string)
  (t' : TwoOwnerAccountAPI Base) (hash second : list byte) :
  nth_error (heap w) userOp = Some op ->
  getUserOpHash op (this w) = (Ok userOpHash, t') ->
  Bytes.arrayify userOpHash = Ok hash ->
  Bytes.arrayify (signedMessage context) = Ok second ->
  List.length (WalletApi.signature_bytes (ownerOne t') (Arr hash)) = 65 ->
  exists (returned : ref) (w' : World Base) (sig : string) (bytes : list byte),
    signUserOpWithContext userOp context w = (Ok returned, w')
    /\ option_map signature (nth_error (heap w') returned) = Some (Value sig)
    /\ Bytes.arrayify sig = Ok bytes
    /\ bytes
       = Abi.word 64 ++ Abi.word 192
           ++ (Abi.word 65
                 ++ WalletApi.signature_bytes (ownerOne t') (Arr hash)
                 ++ repeat x00 31)
           ++ (Abi.word (N.of_nat (List.length second)) ++ Abi.writeBytes second)
    /\ Nat.modulo (List.length bytes) 32 = 0
    /\ 224 + List.length second <= List.length bytes < 256 + List.length second.
Proof.
  intros Hop Hhash Harr Hsecond Hlen.
  set (local := WalletApi.signature_bytes (ownerOne t') (Arr hash)) in *.
  rewrite (signUserOpWithContext_run w userOp context op Hop), Hhash, Harr.
  rewrite (AbiFacts.encode_bytes_bytes_Ok _ _ local second
             (arrayify_signMessage _ _) Hsecond).
  eexists _, _, _, _. split; [reflexivity|]. split.
  { cbn [heap]. rewrite nth_error_alloc. reflexivity. }
  split; [apply BytesFacts.arrayify_hexlify_bytes|].
  unfold Abi.tuple_bytes_bytes. rewrite AbiFacts.pack_two_dynamic.
  rewrite (WordFacts.writeBytes_65 local Hlen), Hlen.
  rewrite !length_app, AbiFacts.length_word, Hlen, repeat_length.
  change (N.of_nat (64 + (32 + (65 + 31)))) with 192%N.
  change (N.of_nat 65) with 65%N.
  rewrite <- !app_assoc.
  split; [reflexivity|].
  pose proof (WordFacts.length_writeBytes_words second) as Hwords.
  pose proof (AbiFacts.length_writeBytes second) as Hbounds.
  rewrite !AbiFacts.length_word.
  split; [|lia].
  set (n := List.length (Abi.writeBytes second)) in *.
  replace (32 + (32 + (32 + (65 + 31) + (32 + n)))) with (n + 7 * 32) by lia.
  now rewrite Nat.Div0.mod_add.
Qed.

(** *** Building *)

(** X22. [createUnsignedUserOp] adds no failure of its own: it throws an
    error exactly when the generic builder throws it, or when the builder's
    [preVerificationGas] is a promise rejected with it. *)
Theorem createUnsignedUserOp_fails_only_with_base (info : Details)
  (w : World Base) (e : exn) :
  (exists w', createUnsignedUserOp info w = (Err e, w'))
  <-> (exists t', base_createUnsignedUserOp info (this w) = (Err e, t'))
      \/ (exists built t',
            base_createUnsignedUserOp info (this w) = (Ok built, t')
            /\ await (preVerificationGas built) = Err e).
Proof.
  rewrite createUnsignedUserOp_run.
  destruct (base_createUnsignedUserOp info (this w)) as [[built|e'] t'].
  - destruct (await (preVerificationGas built)) as [value|e''] eqn:Hgas; split.
    + intros [w' [=]].
    + intros [[t'' [=]]|(b & t'' & [= <- <-] & Hb)]. rewrite Hgas in Hb. discriminate.
    + intros [w' [= <- _]]. right. now exists built, t'.
    + intros [[t'' [=]]|(b & t'' & [= <- <-] & Hb)]. rewrite Hgas in Hb.
      injection Hb as <-. now eexists.
  - split.
    + intros [w' [= <- _]]. left. now exists t'.
    + intros [[t'' [= <- _]]|(b & t'' & [=] & _)]. now eexists.
Qed.

Lemma denotes_unique (x : JSNumber.number) (p q : Q) :
  JSNumber.denotes x p -> JSNumber.denotes x q -> (p == q)%Q.
Proof.
  unfold JSNumber.denotes. destruct (JSNumber.to_Q x) as [v|]; [|contradiction].
  intros Hp Hq. now rewrite <- Hp, <- Hq.
Qed.

(** X23. For an integer gas value [n] of the builder with [0 <= n] and
    [5 * n < 2^53], the [preVerificationGas] that [createUnsignedUserOp]
    writes is a number that is no integer when [n] is odd, and is the
    integer [5 * (n / 2)] when [n] is even. *)
Theorem createUnsignedUserOp_odd_gas_is_fractional (info : Details)
  (w : World Base) (built : UserOperationStruct) (t' : TwoOwnerAccountAPI Base)
  (value : BigNumberish) (n : Z) :
  base_createUnsignedUserOp info (this w) = (Ok built, t') ->
  await (preVerificationGas built) = Ok value ->
  value = BN_BigNumber n \/ value = BN_number (JSNumber.of_Z n) ->
  (0 <= n)%Z ->
  (5 * n < 2 ^ 53)%Z ->
  exists (returned : ref) (w' : World Base) (x : JSNumber.number),
    createUnsignedUserOp info w = (Ok returned, w')
    /\ option_map preVerificationGas (nth_error (heap w') returned)
       = Some (Value (BN_number x))
    /\ (Z.odd n = true -> forall z : Z, ~ JSNumber.denotes x (z # 1))
    /\ (Z.even n = true -> JSNumber.denotes x (5 * (n / 2) # 1)).
Proof.
  intros Hbuilt Hvalue Hn H0 H5.
  rewrite createUnsignedUserOp_run, Hbuilt, Hvalue.
  eexists _, _, _. split; [reflexivity|]. split.
  { cbn [heap]. rewrite nth_error_alloc. reflexivity. }
  assert (Hx : JSNumber.denotes
                 (JSNumber.mul (Number value) JSNumber.two_and_a_half) (5 * n # 2)).
  { destruct Hn as [-> | ->]; cbn [Number];
      now apply JSNumberFacts.mul_two_and_a_half_exact. }
  split.
  - intros Hodd z Hz. pose proof (denotes_unique _ _ _ Hx Hz) as E.
    unfold Qeq in E. cbn [Qnum Qden] in E.
    rewrite Z.odd_spec in Hodd. destruct Hodd as [m ->]. lia.
  - intros Heven. rewrite Z.even_spec in Heven. destruct Heven as [m ->].
    replace (2 * m / 2)%Z with m by (rewrite Z.mul_comm, Z.div_mul; lia).
    unfold JSNumber.denotes in *. destruct (JSNumber.to_Q _) as [v|]; [|contradiction].
    rewrite Hx. unfold Qeq. cbn [Qnum Qden]. lia.
Qed.

(** X24. Building then signing: the operation [createUnsignedUserOp]
    returns is the one passed to the base class's hash when it is given to
    [signUserOpWithContext], with its [preVerificationGas] already
    multiplied. When the base class throws on it, [signUserOpWithContext]
    throws the same error and adds no operation. When the base class
    yields a hash, the signed operation is a further object whose
    [signature] is the encoding of the local signature over that hash and
    of [signedMessage], and whose [preVerificationGas] is the multiplied
    value; the built operation stays as [createUnsignedUserOp] left it. *)
Theorem createUnsignedUserOp_then_sign (info : Details) (w : World Base)
  (context : SigningContext) (built : UserOperationStruct)
  (t1 : TwoOwnerAccountAPI Base) (value : BigNumberish) :
  base_createUnsignedUserOp info (this w) = (Ok built, t1) ->
  await (preVerificationGas built) = Ok value ->
  exists (created : ref) (w1 : World Base) (scaled : UserOperationStruct),
    createUnsignedUserOp info w = (Ok created, w1)
    /\ this w1 = t1
    /\ nth_error (heap w1) created = Some scaled
    /\ preVerificationGas scaled
       = Value (BN_number (JSNumber.mul (Number value) JSNumber.two_and_a_half))
    /\ signature scaled = signature built
    /\ (forall (e : exn) (t2 : TwoOwnerAccountAPI Base),
          getUserOpHash scaled t1 = (Err e, t2) ->
          signUserOpWithContext created context w1
          = (Err e, {| this := t2; heap := heap w1 |}))
    /\ (forall (userOpHash : string) (t2 : TwoOwnerAccountAPI Base)
          (hash second : list byte),
          getUserOpHash scaled t1 = (Ok userOpHash, t2) ->
          Bytes.arrayify userOpHash = Ok hash ->
          Bytes.arrayify (signedMessage context) = Ok second ->
          exists (signed : ref) (w2 : World Base) (o : UserOperationStruct),
            signUserOpWithContext created context w1 = (Ok signed, w2)
            /\ nth_error (heap w2) signed = Some o
            /\ signature o
               = Value (Bytes.hexlify_bytes
                          (Abi.tuple_bytes_bytes
                             (WalletApi.signature_bytes (ownerOne t2) (Arr hash))
                             second))
            /\ preVerificationGas o
               = Value (BN_number
                          (JSNumber.mul (Number value) JSNumber.two_and_a_half))
            /\ nth_error (heap w2) created = Some scaled
            /\ signed <> created).
Proof.
  intros Hbuilt Hvalue.
  rewrite createUnsignedUserOp_run, Hbuilt, Hvalue.
  set (scaled := with_preVerificationGas built
                   (JSNumber.mul (Number value) JSNumber.two_and_a_half)) in *.
  exists (List.length (heap w)), {| this := t1; heap := heap w ++ [scaled] |}, scaled.
  split; [reflexivity|]. split; [reflexivity|].
  split; [apply nth_error_alloc|]. split; [reflexivity|]. split; [reflexivity|].
  split.
  - intros e t2 Hhash.
    rewrite (signUserOpWithContext_run {| this := t1; heap := heap w ++ [scaled] |}
               (List.length (heap w)) context scaled (nth_error_alloc _ _)).
    cbn [this heap]. now rewrite Hhash.
  - intros userOpHash t2 hash second Hhash Harr Hsecond.
    exists (S (List.length (heap w))).
    rewrite (signUserOpWithContext_run {| this := t1; heap := heap w ++ [scaled] |}
               (List.length (heap w)) context scaled (nth_error_alloc _ _)).
    cbn [this heap]. rewrite Hhash, Harr.
    rewrite (AbiFacts.encode_bytes_bytes_Ok _ _ _ second
               (arrayify_signMessage _ _) Hsecond).
    rewrite length_app, Nat.add_1_r.
    eexists _, _. split; [reflexivity|]. cbn [heap]. split; [|split; [|split; [|split]]].
    + replace (S (List.length (heap w))) with (List.length (heap w ++ [scaled]))
        by (rewrite length_app; cbn; lia).
      apply nth_error_alloc.
    + reflexivity.
    + reflexivity.
    + rewrite nth_error_kept by (rewrite length_app; cbn; lia).
      apply nth_error_alloc.
    + lia.
Qed.

End AdapterFacts.

(** ** The properties at the sample collaborators *)

#[local] Existing Instance Sample.primitives.
#[local] Existing Instance Sample.api.

Lemma signUserOpWithContext_assembles_witness :
  exists (returned : ref) (w' : World Sample.base) (signed : UserOperationStruct)
         (sig : string),
    signUserOpWithContext 0 Sample.signing_context
      Sample.signing_world = (Ok returned, w')
    /\ nth_error (heap w') returned = Some signed
    /\ signature signed = Value sig
    /\ sig = Bytes.hexlify_bytes
               (Abi.tuple_bytes_bytes Sample.local_signature [x12; x34])
    /\ Bytes.arrayify sig
       = Ok (Abi.tuple_bytes_bytes Sample.local_signature [x12; x34])
    /\ ((N.of_nat (List.length Sample.local_signature) + 2 + 192 < 2 ^ 256)%N ->
        Abi.decode_bytes_bytes
          (Abi.tuple_bytes_bytes Sample.local_signature [x12; x34])
        = Some (Sample.local_signature, [x12; x34]))
    /\ (sender signed = sender (Sample.operation Sample.gas)
        /\ nonce signed = nonce (Sample.operation Sample.gas)
        /\ initCode signed = initCode (Sample.operation Sample.gas)
        /\ callData signed = callData (Sample.operation Sample.gas)
        /\ callGasLimit signed = callGasLimit (Sample.operation Sample.gas)
        /\ verificationGasLimit signed
           = verificationGasLimit (Sample.operation Sample.gas)
        /\ preVerificationGas signed
           = preVerificationGas (Sample.operation Sample.gas)
        /\ maxFeePerGas signed = maxFeePerGas (Sample.operation Sample.gas)
        /\ maxPriorityFeePerGas signed
           = maxPriorityFeePerGas (Sample.operation Sample.gas)
        /\ paymasterAndData signed = paymasterAndData (Sample.operation Sample.gas))
    /\ returned <> 0
    /\ nth_error (heap w') 0 = Some (Sample.operation Sample.gas)
    /\ (forall r, r < 1 ->
                  nth_error (heap w') r
                  = nth_error [Sample.operation Sample.gas] r).
Proof.
  exact (signUserOpWithContext_assembles
           (primitives := Sample.primitives) (api := Sample.api)
           Sample.signing_world 0 Sample.signing_context
           (Sample.operation Sample.gas) Sample.userOpHash
           (this Sample.signing_world) (repeat x11 32) [x12; x34]
           eq_refl eq_refl eq_refl eq_refl).
Defined.

(** The signature field of the sample's signed operation, which the input
    operation does not have. *)
Example signUserOpWithContext_sample :
  option_map signature
    (nth_error
       (heap (snd (signUserOpWithContext 0 Sample.signing_context
                     Sample.signing_world))) 1)
  = Some (Value (Bytes.hexlify_bytes
                   (Abi.tuple_bytes_bytes Sample.local_signature [x12; x34])))
  /\ signature (Sample.operation Sample.gas)
     <> Value (Bytes.hexlify_bytes
                 (Abi.tuple_bytes_bytes Sample.local_signature [x12; x34])).
Proof. split; [reflexivity|discriminate]. Qed.

Lemma getUserOpHashToSign_is_the_signed_hash_witness :
  exists (op signed : UserOperationStruct) (hash second : list byte),
    nth_error (heap Sample.signing_world) 0 = Some op
    /\ getUserOpHash op (this Sample.signing_world)
       = (Ok Sample.userOpHash, this Sample.signing_world)
    /\ Bytes.arrayify Sample.userOpHash = Ok hash
    /\ Bytes.arrayify (signedMessage Sample.signing_context) = Ok second
    /\ nth_error
         (heap (snd (signUserOpWithContext 0 Sample.signing_context
                       Sample.signing_world))) 1
       = Some signed
    /\ signature signed
       = Value (Bytes.hexlify_bytes
                  (Abi.tuple_bytes_bytes
                     (WalletApi.signature_bytes
                        (ownerOne (this Sample.signing_world)) (Arr hash))
                     second))
    /\ WalletApi.signature_bytes (ownerOne (this Sample.signing_world)) (Arr hash)
       = signDigest (signingKey (ownerOne (this Sample.signing_world)))
           (WalletApi.hashMessage (Arr hash)).
Proof.
  exact (getUserOpHashToSign_is_the_signed_hash
           Sample.signing_world Sample.signing_world
           (snd (signUserOpWithContext 0 Sample.signing_context Sample.signing_world))
           0 1 Sample.signing_context Sample.userOpHash eq_refl eq_refl).
Defined.

Lemma signUserOpWithContext_deterministic_witness :
  exists sig : string,
    option_map signature
      (nth_error
         (heap (snd (signUserOpWithContext 0 Sample.signing_context
                       Sample.signing_world))) 1)
    = Some (Value sig)
    /\ option_map signature
         (nth_error
            (heap (snd (signUserOpWithContext 1 Sample.signing_context
                          Sample.other_world))) 2)
       = Some (Value sig).
Proof.
  exact (signUserOpWithContext_deterministic
           Sample.signing_world Sample.other_world
           (snd (signUserOpWithContext 0 Sample.signing_context Sample.signing_world))
           (snd (signUserOpWithContext 1 Sample.signing_context Sample.other_world))
           0 1 1 2 Sample.signing_context (Sample.operation Sample.gas)
           eq_refl eq_refl eq_refl eq_refl eq_refl eq_refl).
Defined.

(** The two cases of [getNonce] at the sample base class: a phantom
    account over a chain that would report 41, and a deployed one. *)
Example getNonce_phantom_sample :
  @getNonce _ _ _ (with_reported_nonce Sample.api (fun _ => Ok 41%Z))
    (Sample.world true Sample.gas Sample.second_owner [])
  = (Ok 0%Z, Sample.world true Sample.gas Sample.second_owner []).
Proof. reflexivity. Qed.

Example getNonce_deployed_sample :
  fst (getNonce Sample.bound_world) = Ok 7%Z.
Proof. reflexivity. Qed.

Lemma getAccountInitCode_never_lacks_a_factory_witness :
  FACTORY_ADDRESS Sample.config <> ""
  /\ resolvable_factory (Sample.instance false Sample.gas Sample.second_owner)
     = Some (FACTORY_ADDRESS Sample.config)
  /\ fst (getAccountInitCode Sample.bound_world)
     <> Err (Error "no factory to get initCode").
Proof.
  exact (getAccountInitCode_never_lacks_a_factory Sample.config
           (Sample.params false Sample.gas) Sample.random
           (Sample.instance false Sample.gas Sample.second_owner)
           Sample.bound_world eq_refl eq_refl).
Defined.


Lemma zero_is_safe_index : (0 <= 0 < Abi.MAX_SAFE)%Z.
Proof. split; [discriminate|reflexivity]. Defined.

Lemma getAccountInitCode_layout_witness :
  (exists (code : string) (w' : World Sample.base),
      getAccountInitCode Sample.signing_world = (Ok code, w')
      /\ Bytes.arrayify code
         = Ok (Bytes.parse_pairs "6c0ec05Ad55C8B8427119ce50b6087E7B0C9c23e"
                 ++ Sample.call_data)
      /\ firstn 20
           (Bytes.parse_pairs "6c0ec05Ad55C8B8427119ce50b6087E7B0C9c23e"
              ++ Sample.call_data)
         = Bytes.parse_pairs "6c0ec05Ad55C8B8427119ce50b6087E7B0C9c23e")
  /\ getAccountInitCode Sample.unconfigured_world
     = (Err (Error "no factory to get initCode"), Sample.unconfigured_world).
Proof.
  split.
  - exact (proj1 (getAccountInitCode_layout Sample.signing_world)
             "0x6c0ec05Ad55C8B8427119ce50b6087E7B0C9c23e"
             Sample.second_owner
             (Bytes.parse_pairs "6c0ec05Ad55C8B8427119ce50b6087E7B0C9c23e") 0%Z
             eq_refl eq_refl eq_refl eq_refl zero_is_safe_index).
  - exact (proj2 (getAccountInitCode_layout Sample.unconfigured_world) eq_refl).
Defined.

(** C3 does not hold as the specification states it: an instance
    restored from a state without a second owner has a resolvable factory
    address (the default one), and its [getAccountInitCode] returns no
    bytes; it throws the argument error of the address coder, whose value
    is the empty string and whose reason is the message of the error that
    [getAddress] throws for it. *)
Lemma getAccountInitCode_resolvable_factory_yet_no_code :
  exists I : TwoOwnerAccountAPI Sample.base,
    constructor Sample.config
      (restore_params (Sample.base_state true Sample.gas)
         Sample.state_without_second_owner) Sample.random = Ok I
    /\ resolvable_factory I = Some "0x6c0ec05Ad55C8B8427119ce50b6087E7B0C9c23e"
    /\ (forall code : string,
          fst (getAccountInitCode {| this := I; heap := [] |}) <> Ok code)
    /\ Address.getAddress (ownerTwo I) = Err (ArgumentError "invalid address" "")
    /\ fst (getAccountInitCode {| this := I; heap := [] |})
       = Err (ArgumentError
                (errorMessage (ArgumentError "invalid address" "")) "").
Proof.
  eexists. split; [reflexivity|]. split; [reflexivity|]. split.
  - intros code H. vm_compute in H. discriminate H.
  - split; reflexivity.
Qed.

(** An index from [2^53 - 1] on, or one with a fraction, is refused by
    [BigNumber.from] before the range of [uint256] is looked at. *)
Example encode_uint256_sample :
  Abi.encode_uint256 (JSNumber.of_Z 9007199254740991) = Err (NumericFault "overflow")
  /\ Abi.encode_uint256 (JSNumber.of_Z (2 ^ 60)) = Err (NumericFault "overflow")
  /\ Abi.encode_uint256 JSNumber.two_and_a_half = Err (NumericFault "underflow")
  /\ Abi.encode_uint256 (JSNumber.of_Z 9007199254740990)
     = Ok (Abi.Static (Abi.word 9007199254740990))
  /\ Abi.encode_uint256 (JSNumber.of_Z (-1))
     = Err (ArgumentError "value out-of-bounds" "-1").
Proof. repeat split. Qed.

(** The init code of the sample instance: the default factory address,
    then the call data. *)
Example getAccountInitCode_sample :
  fst (getAccountInitCode Sample.signing_world)
  = Ok ("0x6c0ec05ad55c8b8427119ce50b6087e7b0c9c23e"
        ++ "63726561"
        ++ "0000000000000000000000002a2a2a2a2a2a2a2a2a2a2a2a2a2a2a2a2a2a2a2a"
        ++ "00000000000000000000000000000000000000000000000000000000000000bb"
        ++ "0000000000000000000000000000000000000000000000000000000000000000")%string.
Proof. vm_compute. reflexivity. Qed.

(** C7 does not hold as the specification states it: the instance the
    constructor builds from parameters that name no second owner has the
    empty string as [ownerTwo], and its [getAccountInitCode] throws the
    address coder's argument error for the empty string. *)
Lemma getAccountInitCode_fails_without_second_owner :
  exists I : TwoOwnerAccountAPI Sample.base,
    constructor Sample.config Sample.bare_params Sample.random = Ok I
    /\ ownerTwo I = ""
    /\ (forall code : string,
          fst (getAccountInitCode {| this := I; heap := [] |}) <> Ok code)
    /\ fst (getAccountInitCode {| this := I; heap := [] |})
       = Err (ArgumentError
                (errorMessage (ArgumentError "invalid address" "")) "").
Proof.
  eexists. split; [reflexivity|]. split; [reflexivity|]. split.
  - intros code H. vm_compute in H. discriminate H.
  - reflexivity.
Qed.

Lemma getAccountInitCode_unset_second_owner_witness :
  (forall code : string,
      fst (getAccountInitCode (Sample.world true Sample.gas "" [])) <> Ok code)
  /\ (forall F : string,
        resolvable_factory (this (Sample.world true Sample.gas "" [])) = Some F ->
        Address.getAddress "" = Err (ArgumentError "invalid address" "")
        /\ fst (getAccountInitCode (Sample.world true Sample.gas "" []))
           = Err (ArgumentError
                    (errorMessage (ArgumentError "invalid address" "")) "")).
Proof.
  exact (getAccountInitCode_unset_second_owner
           (Sample.world true Sample.gas "" []) eq_refl).
Defined.

Lemma signMessage_without_data_witness :
  signMessage tt None Sample.signing_world
  = (Ok (WalletApi.signMessage (ownerOne (this Sample.signing_world)) (Arr [])),
     Sample.signing_world)
  /\ WalletApi.signMessage (ownerOne (this Sample.signing_world)) (Arr [])
     = Bytes.hexlify_bytes
         (signDigest (signingKey (ownerOne (this Sample.signing_world)))
            (keccak256 (Bytes.toUtf8Bytes WalletApi.messagePrefix
                          ++ Bytes.toUtf8Bytes "0"))).
Proof.
  exact (signMessage_without_data tt None Sample.signing_world (or_introl eq_refl)).
Defined.


(** The sample gas value 21000 becomes 52500. *)
Example createUnsignedUserOp_sample :
  JSNumber.denotes (JSNumber.mul (Number Sample.gas) JSNumber.two_and_a_half)
    (52500 # 1).
Proof. reflexivity. Qed.


Lemma serialize_roundtrip_witness :
  exists (state : State.t) (I' : TwoOwnerAccountAPI Sample.base),
    serialize {| this := Sample.instance false Sample.gas Sample.second_owner;
                 heap := [] |}
    = (Ok state,
       {| this := Sample.instance false Sample.gas Sample.second_owner;
          heap := [] |})
    /\ constructor Sample.other_config
         (restore_params (Sample.base_state true Sample.gas) state) Sample.random
       = Ok I'
    /\ ownerOne I' = ownerOne (Sample.instance false Sample.gas Sample.second_owner)
    /\ WalletApi.getAddress (ownerOne I')
       = WalletApi.getAddress
           (ownerOne (Sample.instance false Sample.gas Sample.second_owner))
    /\ ownerTwo I' = ownerTwo (Sample.instance false Sample.gas Sample.second_owner).
Proof.
  exact (serialize_roundtrip Sample.config Sample.other_config
           (Sample.params false Sample.gas) Sample.random Sample.random
           (Sample.instance false Sample.gas Sample.second_owner) []
           (Sample.base_state true Sample.gas) eq_refl).
Defined.

(** ** The further properties at the sample collaborators *)

Lemma serialize_canonical_key_witness :
  exists I : TwoOwnerAccountAPI Sample.base,
    constructor Sample.config
      (restore_params (Sample.base_state true Sample.gas) Sample.state_with_bare_key)
      Sample.random = Ok I
    /\ forall objects : list UserOperationStruct,
         serialize {| this := I; heap := objects |}
         = (Ok {| State.privateKey :=
                    "0x" ++ Bytes.toLowerCase
                              (hex_digits (State.privateKey Sample.state_with_bare_key));
                  State.ownerTwo := ownerTwo I |},
            {| this := I; heap := objects |}).
Proof.
  exact (serialize_canonical_key Sample.config
           (restore_params (Sample.base_state true Sample.gas) Sample.state_with_bare_key)
           Sample.random Sample.state_with_bare_key eq_refl eq_refl).
Defined.

(** The key of the sample state comes back prefixed and in lower case. *)
Example serialize_canonical_key_sample :
  ("0x" ++ Bytes.toLowerCase
             (hex_digits (State.privateKey Sample.state_with_bare_key)))%string
  = "0xabababababababababababababababababababababababababababababababab".
Proof. reflexivity. Qed.

(** A key of 64 zeros, and the order of the curve itself, are in the form
    of a private key and have no public key: the constructor throws a type
    error. A key that is too short is rejected with an argument error. *)
Example constructor_key_sample :
  constructor Sample.config
    (restore_params (Sample.base_state true Sample.gas)
       {| State.privateKey :=
            "0000000000000000000000000000000000000000000000000000000000000000";
          State.ownerTwo := Sample.second_owner |}) Sample.random
  = Err TypeError
  /\ constructor Sample.config
       (restore_params (Sample.base_state true Sample.gas)
          {| State.privateKey :=
               "0xFFFFFFFFFFFFFFFFFFFFFFFFFFFFFFFEBAAEDCE6AF48A03BBFD25E8CD0364141";
             State.ownerTwo := Sample.second_owner |}) Sample.random
     = Err TypeError
  /\ constructor Sample.config
       (restore_params (Sample.base_state true Sample.gas)
          {| State.privateKey := "0xabcd";
             State.ownerTwo := Sample.second_owner |}) Sample.random
     = Err (ArgumentError "invalid private key" "[[ REDACTED ]]").
Proof. repeat split. Qed.

Lemma constructor_empty_key_draws_fresh_witness :
  exists I : TwoOwnerAccountAPI Sample.base,
    constructor Sample.config
      (restore_params (Sample.base_state true Sample.gas) Sample.state_without_key)
      Sample.random = Ok I
    /\ ownerOne I = WalletApi.createRandom Sample.random
    /\ ownerTwo I = Sample.second_owner.
Proof.
  exact (constructor_empty_key_draws_fresh Sample.config
           (restore_params (Sample.base_state true Sample.gas) Sample.state_without_key)
           Sample.random Sample.state_without_key eq_refl eq_refl).
Defined.


Lemma restored_instance_same_initCode_witness :
  exists (state : State.t) (I' : TwoOwnerAccountAPI Sample.base),
    fst (serialize {| this := Sample.instance false Sample.gas Sample.second_owner;
                      heap := [] |}) = Ok state
    /\ constructor Sample.config
         (restore_params (Sample.base_state true Sample.gas) state) Sample.random
       = Ok I'
    /\ fst (getAccountInitCode {| this := I'; heap := [] |})
       = fst (getAccountInitCode
                {| this := Sample.instance false Sample.gas Sample.second_owner;
                   heap := [] |}).
Proof.
  exact (restored_instance_same_initCode Sample.config (Sample.params false Sample.gas)
           Sample.random Sample.random
           (Sample.instance false Sample.gas Sample.second_owner) [] []
           (Sample.base_state true Sample.gas) eq_refl).
Defined.

Lemma _getAccountContract_binds_once_witness :
  accountContract (this (snd (_getAccountContract Sample.signing_world)))
  = Some (connect "0x00000000000000000000000000000000000000aa")
  /\ heap (snd (_getAccountContract Sample.signing_world)) = heap Sample.signing_world
  /\ _getAccountContract (snd (_getAccountContract Sample.signing_world))
     = (Ok (connect "0x00000000000000000000000000000000000000aa"),
        snd (_getAccountContract Sample.signing_world)).
Proof.
  exact (_getAccountContract_binds_once Sample.signing_world
           (snd (_getAccountContract Sample.signing_world))
           (connect "0x00000000000000000000000000000000000000aa") eq_refl).
Defined.

Lemma getAccountInitCode_cached_factory_wins_witness :
  fst (getAccountInitCode
         (Sample.factory_world (Some "0x6c0ec05Ad55C8B8427119ce50b6087E7B0C9c23e")))
  = fst (getAccountInitCode (Sample.factory_world None))
  /\ snd (getAccountInitCode
            (Sample.factory_world (Some "0x6c0ec05Ad55C8B8427119ce50b6087E7B0C9c23e")))
     = Sample.factory_world (Some "0x6c0ec05Ad55C8B8427119ce50b6087E7B0C9c23e")
  /\ fst (getAccountInitCode
            (Sample.factory_world (Some "0x6c0ec05Ad55C8B8427119ce50b6087E7B0C9c23e")))
     <> Err (Error "no factory to get initCode").
Proof.
  exact (getAccountInitCode_cached_factory_wins
           (Sample.factory_world (Some "0x6c0ec05Ad55C8B8427119ce50b6087E7B0C9c23e"))
           (Sample.factory_world None)
           (connect "0x00000000000000000000000000000000000000fa")
           eq_refl eq_refl eq_refl eq_refl eq_refl).
Defined.

Lemma getAccountInitCode_output_shape_witness :
  exists (F a2 : string) (n : Z),
    resolvable_factory (this Sample.signing_world) = Some F
    /\ Bytes.isHexString F = true
    /\ Address.getAddress (ownerTwo (this Sample.signing_world)) = Ok a2
    /\ JSNumber.integer (index (this Sample.signing_world)) = Some n
    /\ (0 <= n < 2 ^ 53 - 1)%Z
    /\ Sample.init_code
       = (Bytes.toLowerCase F
            ++ Bytes.hex_of_bytes
                 (Abi.getSighash "createAccount(address,address,uint256)"
                    ++ Abi.address_word
                         (WalletApi.getAddress (ownerOne (this Sample.signing_world)))
                    ++ Abi.address_word a2
                    ++ Abi.word (Z.to_N n)))%string
    /\ String.length Sample.init_code = String.length F + 200
    /\ factory (this (snd (getAccountInitCode Sample.signing_world)))
       = Some (connect F).
Proof.
  exact (getAccountInitCode_output_shape Sample.signing_world
           (snd (getAccountInitCode Sample.signing_world)) Sample.init_code eq_refl).
Defined.

Lemma getAccountInitCode_of_new_instance_witness :
  fst (getAccountInitCode
         {| this := Sample.instance false Sample.gas Sample.second_owner; heap := [] |})
  = Ok ("0x6c0ec05ad55c8b8427119ce50b6087e7b0c9c23e"
        ++ Bytes.hex_of_bytes
             (Abi.getSighash "createAccount(address,address,uint256)"
                ++ Abi.address_word
                     (WalletApi.getAddress (WalletApi.createRandom Sample.random))
                ++ Abi.address_word Sample.second_owner
                ++ Abi.word 0))%string
  /\ fst (getAccountInitCode
            {| this := Sample.configured_instance
                         "0x00000000000000000000000000000000000000fa";
               heap := [] |})
     = Ok (Bytes.toLowerCase "0x00000000000000000000000000000000000000fa"
           ++ Bytes.hex_of_bytes
                (Abi.getSighash "createAccount(address,address,uint256)"
                   ++ Abi.address_word
                        (WalletApi.getAddress (WalletApi.createRandom Sample.random))
                   ++ Abi.address_word Sample.second_owner
                   ++ Abi.word 0))%string.
Proof.
  split.
  - exact (proj1 (getAccountInitCode_of_new_instance Sample.config
                    (Sample.params false Sample.gas) Sample.random
                    (Sample.instance false Sample.gas Sample.second_owner) []
                    Sample.second_owner eq_refl eq_refl)
             (or_introl eq_refl)).
  - exact (proj2 (getAccountInitCode_of_new_instance Sample.other_config
                    (Sample.params false Sample.gas) Sample.random
                    (Sample.configured_instance
                       "0x00000000000000000000000000000000000000fa") []
                    Sample.second_owner eq_refl eq_refl)
             "0x00000000000000000000000000000000000000fa" eq_refl eq_refl eq_refl).
Defined.

Lemma factory_name_is_not_empty : "factory.eth" <> "".
Proof. discriminate. Defined.

Lemma getAccountInitCode_rejects_malformed_factory_witness :
  fst (getAccountInitCode
         {| this := Sample.configured_instance "factory.eth"; heap := [] |})
  = Err (ArgumentError "invalid hexlify value" "factory.eth").
Proof.
  exact (getAccountInitCode_rejects_malformed_factory Sample.named_config
           (Sample.params false Sample.gas) Sample.random
           (Sample.configured_instance "factory.eth") [] "factory.eth"
           Sample.second_owner eq_refl eq_refl factory_name_is_not_empty
           eq_refl eq_refl).
Defined.

Lemma getAccountInitCode_wire_format_witness :
  exists (code : string) (w' : World Sample.base),
    getAccountInitCode Sample.signing_world = (Ok code, w')
    /\ Bytes.arrayify code
       = Ok (Bytes.parse_pairs "6c0ec05Ad55C8B8427119ce50b6087E7B0C9c23e"
               ++ Abi.getSighash "createAccount(address,address,uint256)"
               ++ (repeat x00 12
                     ++ skipn 12
                          (keccak256
                             (tl (computePublicKey
                                    (signingKey (ownerOne (this Sample.signing_world)))))))
               ++ (repeat x00 12
                     ++ Bytes.parse_pairs
                          (hex_digits (ownerTwo (this Sample.signing_world))))
               ++ repeat x00 32)
    /\ List.length
         (Bytes.parse_pairs (hex_digits (ownerTwo (this Sample.signing_world)))) = 20
    /\ Bytes.hexDataLength code = 20 + 100.
Proof.
  exact (getAccountInitCode_wire_format Sample.signing_world
           "0x6c0ec05Ad55C8B8427119ce50b6087E7B0C9c23e" Sample.second_owner
           (Bytes.parse_pairs "6c0ec05Ad55C8B8427119ce50b6087E7B0C9c23e")
           eq_refl eq_refl eq_refl eq_refl eq_refl).
Defined.

(** The second owner's word of the sample: twelve zero bytes, then nineteen
    more and [bb]. *)
Example getAccountInitCode_wire_format_sample :
  repeat x00 12 ++ Bytes.parse_pairs (hex_digits Sample.second_owner)
  = repeat x00 31 ++ [xbb].
Proof. reflexivity. Qed.

Lemma getAccountInitCode_identifies_owners_witness :
  WalletApi.getAddress (ownerOne (this Sample.signing_world))
  = WalletApi.getAddress
      (ownerOne (this (Sample.world true Sample.gas Sample.second_owner_bare [])))
  /\ Bytes.parse_pairs (hex_digits Sample.second_owner)
     = Bytes.parse_pairs (hex_digits Sample.second_owner_bare)
  /\ (exists n : Z,
        JSNumber.integer (index (this Sample.signing_world)) = Some n
        /\ JSNumber.integer
             (index (this (Sample.world true Sample.gas Sample.second_owner_bare [])))
           = Some n).
Proof.
  exact (getAccountInitCode_identifies_owners Sample.signing_world
           (Sample.world true Sample.gas Sample.second_owner_bare [])
           (snd (getAccountInitCode Sample.signing_world))
           (snd (getAccountInitCode
                   (Sample.world true Sample.gas Sample.second_owner_bare [])))
           Sample.init_code eq_refl eq_refl eq_refl eq_refl).
Defined.

Lemma getNonce_then_encodeExecute_share_binding_witness :
  getNonce Sample.signing_world
  = (Ok 7%Z, snd (_getAccountContract Sample.signing_world))
  /\ accountContract (this (snd (_getAccountContract Sample.signing_world)))
     = Some (connect "0x00000000000000000000000000000000000000aa")
  /\ (forall (interface_encodeExecute :
                Contract -> string -> BigNumberish -> string -> result string)
        (target : string) (value : BigNumberish) (data : string),
        encodeExecute interface_encodeExecute target value data
          (snd (_getAccountContract Sample.signing_world))
        = (interface_encodeExecute
             (connect "0x00000000000000000000000000000000000000aa") target value data,
           snd (_getAccountContract Sample.signing_world))).
Proof.
  exact (getNonce_then_encodeExecute_share_binding Sample.signing_world
           (snd (_getAccountContract Sample.signing_world))
           (this Sample.signing_world)
           (connect "0x00000000000000000000000000000000000000aa") eq_refl eq_refl).
Defined.

Lemma encodeExecute_binds_then_encodes_witness :
  encodeExecute Sample.interface_encodeExecute
    "0x00000000000000000000000000000000000000cc" (BN_BigNumber 1) "0x"
    Sample.signing_world
  = (Sample.interface_encodeExecute
       (connect "0x00000000000000000000000000000000000000aa")
       "0x00000000000000000000000000000000000000cc" (BN_BigNumber 1) "0x",
     snd (_getAccountContract Sample.signing_world))
  /\ (forall (target' : string) (value' : BigNumberish) (data' : string),
        encodeExecute Sample.interface_encodeExecute target' value' data'
          (snd (_getAccountContract Sample.signing_world))
        = (Sample.interface_encodeExecute
             (connect "0x00000000000000000000000000000000000000aa")
             target' value' data',
           snd (_getAccountContract Sample.signing_world))).
Proof.
  exact (proj1 (encodeExecute_binds_then_encodes Sample.interface_encodeExecute
                  Sample.signing_world "0x00000000000000000000000000000000000000cc"
                  (BN_BigNumber 1) "0x")
           (connect "0x00000000000000000000000000000000000000aa")
           (snd (_getAccountContract Sample.signing_world)) eq_refl).
Defined.

Lemma signOwnerOne_signs_hash_bytes_witness :
  signOwnerOne Sample.userOpHash Sample.signing_world
  = (Ok (Bytes.hexlify_bytes
           (signDigest (signingKey (ownerOne (this Sample.signing_world)))
              (keccak256 (Bytes.toUtf8Bytes WalletApi.messagePrefix
                            ++ Bytes.toUtf8Bytes "32" ++ repeat x11 32)))),
     Sample.signing_world).
Proof.
  exact (signOwnerOne_signs_hash_bytes Sample.userOpHash (repeat x11 32)
           Sample.signing_world eq_refl eq_refl).
Defined.

Lemma signMessage_signs_text_witness :
  signMessage tt
    (Some {| rawSigningData := Some (JSString.of_ascii Sample.userOpHash) |})
    Sample.signing_world
  = (Ok (Bytes.hexlify_bytes
           (signDigest (signingKey (ownerOne (this Sample.signing_world)))
              (keccak256
                 (Bytes.toUtf8Bytes WalletApi.messagePrefix
                    ++ Bytes.toUtf8Bytes
                         (WalletApi.decimal
                            (List.length (Bytes.toUtf8Bytes Sample.userOpHash)))
                    ++ Bytes.toUtf8Bytes Sample.userOpHash)))),
     Sample.signing_world)
  /\ (JSString.toUtf8Bytes (JSString.of_ascii Sample.userOpHash)
      = Ok (Bytes.toUtf8Bytes Sample.userOpHash)
      /\ Bytes.toUtf8Bytes WalletApi.messagePrefix
           ++ Bytes.toUtf8Bytes
                (WalletApi.decimal (List.length (Bytes.toUtf8Bytes Sample.userOpHash)))
           ++ Bytes.toUtf8Bytes Sample.userOpHash
         <> Bytes.toUtf8Bytes WalletApi.messagePrefix
              ++ Bytes.toUtf8Bytes "32" ++ repeat x11 32)
  /\ (Error "invalid utf-8 string" = Error "invalid utf-8 string"
      /\ signMessage tt (Some {| rawSigningData := Some [0xD800%N] |})
           Sample.signing_world
         = (Err (Error "invalid utf-8 string"), Sample.signing_world)).
Proof.
  split; [|split].
  - exact (proj1 (signMessage_signs_text tt
                    {| rawSigningData := Some (JSString.of_ascii Sample.userOpHash) |}
                    (JSString.of_ascii Sample.userOpHash) Sample.signing_world
                    eq_refl)
             (Bytes.toUtf8Bytes Sample.userOpHash) eq_refl).
  - exact (proj2 (proj2 (signMessage_signs_text tt
                           {| rawSigningData :=
                                Some (JSString.of_ascii Sample.userOpHash) |}
                           (JSString.of_ascii Sample.userOpHash)
                           Sample.signing_world eq_refl))
             Sample.userOpHash (repeat x11 32) eq_refl eq_refl eq_refl).
  - exact (proj1 (proj2 (signMessage_signs_text tt
                           {| rawSigningData := Some [0xD800%N] |}
                           [0xD800%N] Sample.signing_world eq_refl))
             (Error "invalid utf-8 string") eq_refl).
Defined.

(** The length written for the sample hash taken as text; a pair of
    surrogates is four bytes, a lone low surrogate three, and a lone high
    surrogate has no encoding. *)
Example signMessage_signs_text_sample :
  WalletApi.decimal (List.length (Bytes.toUtf8Bytes Sample.userOpHash)) = "66"
  /\ JSString.toUtf8Bytes [0xD83D%N; 0xDE00%N] = Ok [xf0; x9f; x98; x80]
  /\ JSString.toUtf8Bytes [0xDC00%N] = Ok [xed; xb0; x80]
  /\ JSString.toUtf8Bytes [0x61%N; 0xD800%N; 0x62%N]
     = Err (Error "invalid utf-8 string").
Proof. repeat split. Qed.

Lemma signUserOpWithContext_failure_leaves_store_witness :
  heap (snd (signUserOpWithContext 0 Sample.empty_context Sample.signing_world))
  = heap Sample.signing_world.
Proof.
  exact (signUserOpWithContext_failure_leaves_store Sample.signing_world
           (snd (signUserOpWithContext 0 Sample.empty_context Sample.signing_world))
           0 Sample.empty_context (ArgumentError "invalid arrayify value" "") eq_refl).
Defined.

Lemma signUserOpWithContext_rejects_malformed_signedMessage_witness :
  signUserOpWithContext 0 Sample.empty_context Sample.signing_world
  = (Err (ArgumentError "invalid arrayify value" ""),
     {| this := this Sample.signing_world; heap := heap Sample.signing_world |}).
Proof.
  exact (signUserOpWithContext_rejects_malformed_signedMessage Sample.signing_world
           0 Sample.empty_context (Sample.operation Sample.gas) Sample.userOpHash
           (this Sample.signing_world) (repeat x11 32)
           eq_refl eq_refl eq_refl eq_refl).
Defined.

Lemma signUserOpWithContext_wire_format_witness :
  exists (returned : ref) (w' : World Sample.base) (sig : string) (bytes : list byte),
    signUserOpWithContext 0 Sample.signing_context Sample.signing_world
    = (Ok returned, w')
    /\ option_map signature (nth_error (heap w') returned) = Some (Value sig)
    /\ Bytes.arrayify sig = Ok bytes
    /\ bytes
       = Abi.word 64 ++ Abi.word 192
           ++ (Abi.word 65 ++ Sample.local_signature ++ repeat x00 31)
           ++ (Abi.word 2 ++ Abi.writeBytes [x12; x34])
    /\ Nat.modulo (List.length bytes) 32 = 0
    /\ 224 + 2 <= List.length bytes < 256 + 2.
Proof.
  exact (signUserOpWithContext_wire_format Sample.signing_world 0
           Sample.signing_context (Sample.operation Sample.gas) Sample.userOpHash
           (this Sample.signing_world) (repeat x11 32) [x12; x34]
           eq_refl eq_refl eq_refl eq_refl eq_refl).
Defined.

Lemma odd_gas_in_range : (0 <= 21001)%Z /\ (5 * 21001 < 2 ^ 53)%Z.
Proof. split; [discriminate|reflexivity]. Defined.

Lemma createUnsignedUserOp_odd_gas_is_fractional_witness :
  exists (returned : ref) (w' : World Sample.base) (x : JSNumber.number),
    createUnsignedUserOp tt (Sample.world false Sample.odd_gas "" [])
    = (Ok returned, w')
    /\ option_map preVerificationGas (nth_error (heap w') returned)
       = Some (Value (BN_number x))
    /\ (Z.odd 21001 = true -> forall z : Z, ~ JSNumber.denotes x (z # 1))
    /\ (Z.even 21001 = true -> JSNumber.denotes x (5 * (21001 / 2) # 1)).
Proof.
  exact (createUnsignedUserOp_odd_gas_is_fractional tt
           (Sample.world false Sample.odd_gas "" []) (Sample.operation Sample.odd_gas)
           (this (Sample.world false Sample.odd_gas "" [])) Sample.odd_gas 21001
           eq_refl eq_refl (or_introl eq_refl)
           (proj1 odd_gas_in_range) (proj2 odd_gas_in_range)).
Defined.

(** The odd sample value 21001 becomes 52502.5. *)
Example createUnsignedUserOp_odd_gas_sample :
  JSNumber.denotes (JSNumber.mul (Number Sample.odd_gas) JSNumber.two_and_a_half)
    (105005 # 2).
Proof. reflexivity. Qed.

Lemma createUnsignedUserOp_then_sign_witness :
  exists (created : ref) (w1 : World Sample.base) (scaled : UserOperationStruct),
    @createUnsignedUserOp _ _ _ Sample.strict_api tt
      (Sample.world false Sample.odd_gas Sample.second_owner [])
    = (Ok created, w1)
    /\ this w1 = this (Sample.world false Sample.odd_gas Sample.second_owner [])
    /\ nth_error (heap w1) created = Some scaled
    /\ preVerificationGas scaled
       = Value (BN_number
                  (JSNumber.mul (Number Sample.odd_gas) JSNumber.two_and_a_half))
    /\ signature scaled = signature (Sample.operation Sample.odd_gas)
    /\ (forall (e : exn) (t2 : TwoOwnerAccountAPI Sample.base),
          @getUserOpHash _ _ _ Sample.strict_api scaled
            (this (Sample.world false Sample.odd_gas Sample.second_owner []))
          = (Err e, t2) ->
          @signUserOpWithContext _ _ _ Sample.primitives Sample.strict_api
            created Sample.signing_context w1
          = (Err e, {| this := t2; heap := heap w1 |}))
    /\ (forall (userOpHash : string) (t2 : TwoOwnerAccountAPI Sample.base)
          (hash second : list byte),
          @getUserOpHash _ _ _ Sample.strict_api scaled
            (this (Sample.world false Sample.odd_gas Sample.second_owner []))
          = (Ok userOpHash, t2) ->
          Bytes.arrayify userOpHash = Ok hash ->
          Bytes.arrayify (signedMessage Sample.signing_context) = Ok second ->
          exists (signed : ref) (w2 : World Sample.base) (o : UserOperationStruct),
            @signUserOpWithContext _ _ _ Sample.primitives Sample.strict_api
              created Sample.signing_context w1
            = (Ok signed, w2)
            /\ nth_error (heap w2) signed = Some o
            /\ signature o
               = Value (Bytes.hexlify_bytes
                          (Abi.tuple_bytes_bytes
                             (WalletApi.signature_bytes (ownerOne t2) (Arr hash))
                             second))
            /\ preVerificationGas o
               = Value (BN_number
                          (JSNumber.mul (Number Sample.odd_gas)
                             JSNumber.two_and_a_half))
            /\ nth_error (heap w2) created = Some scaled
            /\ signed <> created).
Proof.
  exact (createUnsignedUserOp_then_sign (api := Sample.strict_api) tt
           (Sample.world false Sample.odd_gas Sample.second_owner [])
           Sample.signing_context (Sample.operation Sample.odd_gas)
           (this (Sample.world false Sample.odd_gas Sample.second_owner []))
           Sample.odd_gas eq_refl eq_refl).
Defined.

(** Building then signing over a base class that encodes the operation:
    the even sample value 21000 is signed as 52500, while for the odd value
    21001 the hash of the built operation, and so the signing, fails. *)
Example createUnsignedUserOp_then_sign_sample :
  fst (@signUserOpWithContext _ _ _ Sample.primitives Sample.strict_api
         0 Sample.signing_context
         (snd (@createUnsignedUserOp _ _ _ Sample.strict_api tt
                 (Sample.world false Sample.gas Sample.second_owner []))))
  = Ok 1
  /\ option_map signature
       (nth_error
          (heap (snd (@signUserOpWithContext _ _ _ Sample.primitives Sample.strict_api
                        0 Sample.signing_context
                        (snd (@createUnsignedUserOp _ _ _ Sample.strict_api tt
                                (Sample.world false Sample.gas
                                   Sample.second_owner [])))))) 1)
     = Some (Value (Bytes.hexlify_bytes
                      (Abi.tuple_bytes_bytes Sample.local_signature [x12; x34])))
  /\ @signUserOpWithContext _ _ _ Sample.primitives Sample.strict_api
       0 Sample.signing_context
       (snd (@createUnsignedUserOp _ _ _ Sample.strict_api tt
               (Sample.world false Sample.odd_gas Sample.second_owner [])))
     = (Err (NumericFault "underflow"),
        snd (@createUnsignedUserOp _ _ _ Sample.strict_api tt
               (Sample.world false Sample.odd_gas Sample.second_owner []))).
Proof. repeat split. Qed.
